(** * libdnn: a shallow embedding of the CNN / DNN engine

    The development follows [src/cnn.cu] (CNN, ConvolutionalLayer,
    SubSamplingLayer), [feature-transform.h] (the [ext] activations and the
    bias helpers), and [dnn.cpp] (DNN construction, serialisation, the
    learning-rate schedule).

    Conventions of the embedding.
    - [device_matrix<T>] is a record of a row count, a column count and the
      column-major data, as the library stores it.
    - The element type is a parameter: every operation the code performs on a
      [float] is an operation of the class [Arith] (and [Activation] for the
      sigmoid functor), so theorems proved for every instance hold whatever
      the rounding is.  Two instances are given: exact rationals (executable)
      and the real numbers (with the logistic function).
    - [std::vector] is [list]; [v[i]] is the total lookup [v !!! i], and an
      in-place update [v[i] op= e] is [alter]/insert at [i].  Reading a vector
      out of range is undefined in the source; the model returns the default
      element there and the theorems carry the shape hypotheses under which
      it does not happen.
    - A function that can [throw] or fail an [assert] returns a [result]. *)

From Stdlib Require Import Reals Lra QArith Qreals String Ascii.
From Stdlib Require Import DecimalString DecimalNat.
From stdpp Require Import base list gmap strings.

Set Default Proof Using "Type".

(** ** Scalars *)

(** What the code does with one [float]. [of_size] is the conversion of a
    [size_t] to [float]; [of_lit] is a decimal literal of the source. *)
Class Arith (T : Type) := {
  fzero : T;
  fone : T;
  fadd : T → T → T;
  fsub : T → T → T;
  fmul : T → T → T;
  fdiv : T → T → T;
  fltb : T → T → bool;
  of_size : nat → T;
  of_lit : Q → T
}.

(** The functions of the activations on one [float]:
    [func::sigmoid<float>] of the matrix library, and the exponential
    function of the softmax. *)
Class Activation (T : Type) := { sigmoid : T → T; fexp : T → T }.

(** Exact rational arithmetic, kept in lowest terms so that equal values are
    equal terms. *)
#[export] Instance Q_Arith : Arith Q := {|
  fzero := 0%Q;
  fone := 1%Q;
  fadd a b := Qred (a + b);
  fsub a b := Qred (a - b);
  fmul a b := Qred (a * b);
  fdiv a b := Qred (a / b);
  fltb a b := match (a ?= b)%Q with Lt => true | _ => false end;
  of_size k := inject_Z (Z.of_nat k);
  of_lit q := Qred q
|}.

(** Real arithmetic with the logistic function. *)
#[export] Instance R_Arith : Arith R := {|
  fzero := 0%R;
  fone := 1%R;
  fadd := Rplus;
  fsub := Rminus;
  fmul := Rmult;
  fdiv := Rdiv;
  fltb a b := if Rlt_dec a b then true else false;
  of_size := INR;
  of_lit := Q2R
|}.

#[export] Instance R_Activation : Activation R :=
  {| sigmoid x := (1 / (1 + exp (- x)))%R; fexp := exp |}.

(** ** Outcomes of fallible calls *)

Inductive result (A : Type) : Type :=
| Ok (a : A)
| Throw (msg : string)      (* a C++ exception carrying its message *)
| AssertFail.               (* a failed [assert] *)
Arguments Ok {A} a.
Arguments Throw {A} msg.
Arguments AssertFail {A}.

(** [std::to_string] of a [size_t] and the conversion %lu of [printf]; the
    conversion %d of an [int]. *)
Definition to_string (n : nat) : string := NilEmpty.string_of_uint (Nat.to_uint n).
Definition to_string_int (z : Z) : string := NilEmpty.string_of_int (Z.to_int z).

(** [for (size_t i = 0; i < n; ++i) body] over a state. *)
Definition for_ {S : Type} (n : nat) (body : nat → S → S) (s : S) : S :=
  foldl (λ s i, body i s) s (seq 0 n).

(** ** The matrix substrate ([device_matrix<T>])

    Column-major storage: element (r, c) of a matrix with [getRows] rows is
    at offset [c * getRows + r] of [getData]. *)

Record mat (T : Type) : Type :=
  Mat { getRows : nat; getCols : nat; getData : list T }.
Arguments Mat {T} _ _ _.
Arguments getRows {T} _.
Arguments getCols {T} _.
Arguments getData {T} _.

#[export] Instance mat_inhabited {T} : Inhabited (mat T) := populate (Mat 0 0 []).
#[export] Instance scalar_inhabited {T} `{Arith T} : Inhabited T := populate fzero.

(** [SIZE]: the spatial extent of one feature map; the fields are [m] (rows)
    and [n] (columns) in the source. *)
Record SIZE : Type := mkSIZE { size_m : nat; size_n : nat }.

Section Matrix.
Context {T : Type} `{Arith T}.

(** [A.size()] *)
Definition mat_size (A : mat T) : nat := getRows A * getCols A.

(** The storage invariant of a matrix. *)
Definition wf (A : mat T) : Prop := length (getData A) = mat_size A.

Definition get (A : mat T) (r c : nat) : T :=
  getData A !!! (c * getRows A + r).

(** The matrix with entry [f r c] at row [r], column [c]. *)
Definition build (m n : nat) (f : nat → nat → T) : mat T :=
  Mat m n (c ← seq 0 n; (λ r, f r c) <$> seq 0 m).

(** [A.resize(m, n, 0)] *)
Definition zeros (m n : nat) : mat T := Mat m n (replicate (m * n) fzero).

(** [thrust::transform] with a unary, resp. binary, functor. *)
Definition transform (f : T → T) (A : mat T) : mat T :=
  Mat (getRows A) (getCols A) (f <$> getData A).

Definition transform2 (f : T → T → T) (A B : mat T) : mat T :=
  Mat (getRows A) (getCols A) (zip_with f (getData A) (getData B)).

(** The element-wise product of two matrices of one shape
    ([thrust::transform] with [thrust::multiplies]). *)
Definition mat_and (A B : mat T) : mat T := transform2 fmul A B.

(** [operator &] with its [assert] on the shapes. *)
Definition operator_and (A B : mat T) : result (mat T) :=
  if negb ((getRows A =? getRows B) && (getCols A =? getCols B)) then AssertFail
  else Ok (mat_and A B).

(** [A + B], [A - B], [A + s], [s - A], [A * s], [A / s]. *)
Definition madd (A B : mat T) : mat T := transform2 fadd A B.
Definition msub (A B : mat T) : mat T := transform2 fsub A B.
Definition madd_scalar (A : mat T) (s : T) : mat T := transform (λ x, fadd x s) A.
Definition scalar_msub (s : T) (A : mat T) : mat T := transform (λ x, fsub s x) A.
Definition mmul_scalar (A : mat T) (s : T) : mat T := transform (λ x, fmul x s) A.
Definition mdiv_scalar (A : mat T) (s : T) : mat T := transform (λ x, fdiv x s) A.

(** Left-to-right sum of a list of scalars. *)
Definition fsum (l : list T) : T := foldl fadd fzero l.

(** [A * B]: the matrix product. *)
Definition mmul (A B : mat T) : mat T :=
  build (getRows A) (getCols B)
    (λ r c, fsum ((λ k, fmul (get A r k) (get B k c)) <$> seq 0 (getCols A))).

(** [A.resize(rows, cols)] within the reserved storage: the dimensions
    change and the column-major buffer stays, so that dropping the last
    column keeps the leading columns. (Cells a grown matrix gains are
    unspecified in the source and zero here; the code at hand only
    shrinks.) *)
Definition mat_resize (rows cols : nat) (A : mat T) : mat T :=
  Mat rows cols (resize (rows * cols) fzero (getData A)).

(** [fillLastColumnWith(A, value)] ([thrust::fill] on the last
    [A.getRows()] cells). *)
Definition fillLastColumnWith (A : mat T) (value : T) : mat T :=
  Mat (getRows A) (getCols A)
    (take (mat_size A - getRows A) (getData A) ++ replicate (getRows A) value).
End Matrix.

(** ** [namespace ext] of [feature-transform.h] *)

Section Ext.
Context {T : Type} `{Arith T} `{Activation T}.

(** [ext::sigmoid] *)
Definition ext_sigmoid (x : mat T) : mat T := transform sigmoid x.

(** [ext::softmax]: as the source has it, the element-wise
    [func::sigmoid] under a [TODO] to "do the softmax". Nothing in the
    sources at hand calls it. *)
Definition ext_softmax (x : mat T) : mat T := transform sigmoid x.
End Ext.

(** ** Image utilities of the CNN ([cnn-utility], not part of the sources
    at hand) *)

(** The [mode] argument of [convn]: the strings "valid", "valid_shm" (the
    same result computed through shared memory) and "full". *)
Inductive conv_mode : Type := VALID | VALID_SHM | FULL.

Section CnnUtility.
Context {T : Type} `{Arith T}.

(** Modelled from the spec: [rot180], the 180-degree rotation of a kernel
    or an image. *)
Definition rot180 (x : mat T) : mat T :=
  build (getRows x) (getCols x)
    (λ r c, get x (getRows x - 1 - r) (getCols x - 1 - c)).

(** Modelled from the spec: the valid-mode cross-correlation of the image
    [x] with the kernel [h]. The kernel slides, without being flipped, over
    the positions at which it lies inside the image, so the output shrinks
    by the kernel size minus one: entry (r, c) is the sum over the kernel
    entries (a, b) of x(r + a, c + b) h(a, b). *)
Definition xcorr2_valid (x h : mat T) : mat T :=
  let '(H, W, kH, kW) := (getRows x, getCols x, getRows h, getCols h) in
  build (H - (kH - 1)) (W - (kW - 1))
    (λ r c, fsum (b ← seq 0 kW; (λ a,
               fmul (get x (r + a) (c + b)) (get h a b)) <$> seq 0 kH)).

(** Modelled from the spec: the full-mode convolution of [x] with [h]. The
    output grows by the kernel size minus one (zero padding at the
    boundary): entry (r, c) is the sum over the kernel entries (a, b) of
    x(r - a, c - b) h(a, b), where x is 0 outside the image. *)
Definition conv2_full (x h : mat T) : mat T :=
  let '(H, W, kH, kW) := (getRows x, getCols x, getRows h, getCols h) in
  build (H + kH - 1) (W + kW - 1)
    (λ r c, fsum (b ← seq 0 kW; (λ a,
               if bool_decide (a ≤ r ∧ r - a < H ∧ b ≤ c ∧ c - b < W)
               then fmul (get x (r - a) (c - b)) (get h a b)
               else fzero)
             <$> seq 0 kH)).

(** Modelled from the spec: [convn(x, h, mode)]. The spec gives the three
    calls of the convolutional layer by their mode: the calls in valid mode
    (of the forward pass, and of the weight gradient on the rotated input
    image) are the valid-mode cross-correlation of the first argument with
    the second, the call in full mode (of the error propagation, on the
    rotated kernel) is the full-mode convolution. *)
Definition convn (x h : mat T) (mode : conv_mode) : mat T :=
  match mode with
  | VALID | VALID_SHM => xcorr2_valid x h
  | FULL => conv2_full x h
  end.

(** Modelled from the spec: [sum_all], the sum of all entries. *)
Definition sum_all (x : mat T) : T := fsum (getData x).

(** Modelled from the spec: [reshapeVectors2Images]. Column [k] of [data]
    is the flattened (column-major) image of sample [k]. *)
Definition reshapeVectors2Images (data : mat T) (s : SIZE) : list (mat T) :=
  (λ k, Mat (size_m s) (size_n s)
          (take (size_m s * size_n s) (drop (k * getRows data) (getData data))))
  <$> seq 0 (getCols data).

(** Modelled from the spec: [reshapeImages2Vectors], the inverse of
    [reshapeVectors2Images]: one column per image, of the size of the
    first image. *)
Definition reshapeImages2Vectors (images : list (mat T)) : mat T :=
  let rows := mat_size (images !!! 0) in
  Mat rows (length images) (img ← images; take rows (getData img)).

(** Modelled from the spec: [upsample] to the size [s], each entry of [x]
    replicated over the block of the larger image that was pooled into
    it. *)
Definition upsample (x : mat T) (s : SIZE) : mat T :=
  build (size_m s) (size_n s)
    (λ r c, get x (r / (size_m s / getRows x)) (c / (size_n s / getCols x))).
End CnnUtility.

(** ** MIMOFeatureTransform: the two kinds of CNN layer *)

Section Layers.
Context {T : Type} `{Arith T} `{Activation T}.

(** The base class holds the numbers of input and output maps and the
    size of an input image. *)
Record ConvolutionalLayer : Type := mkConv {
  conv_n : nat;                        (* getNumInputMaps *)
  conv_m : nat;                        (* getNumOutputMaps *)
  conv_input_img_size : SIZE;
  _kernels : list (list (mat T));      (* _kernels[i][j], i input, j output *)
  _bias : list T
}.

Record SubSamplingLayer : Type := mkSubSampling {
  ss_n : nat;
  ss_m : nat;
  ss_input_img_size : SIZE;
  _scale : nat
}.

Inductive MIMOFeatureTransform : Type :=
| Conv (l : ConvolutionalLayer)
| SubSamp (l : SubSamplingLayer).

Definition getNumInputMaps (t : MIMOFeatureTransform) : nat :=
  match t with Conv l => conv_n l | SubSamp l => ss_n l end.

Definition getNumOutputMaps (t : MIMOFeatureTransform) : nat :=
  match t with Conv l => conv_m l | SubSamp l => ss_m l end.

Definition get_input_img_size (t : MIMOFeatureTransform) : SIZE :=
  match t with Conv l => conv_input_img_size l | SubSamp l => ss_input_img_size l end.

Definition set_input_img_size (s : SIZE) (t : MIMOFeatureTransform)
  : MIMOFeatureTransform :=
  match t with
  | Conv l => Conv (mkConv (conv_n l) (conv_m l) s (_kernels l) (_bias l))
  | SubSamp l => SubSamp (mkSubSampling (ss_n l) (ss_m l) s (_scale l))
  end.

(** [ConvolutionalLayer::getKernelHeight], [getKernelWidth] *)
Definition getKernelHeight (l : ConvolutionalLayer) : nat :=
  getRows ((_kernels l !!! 0) !!! 0).
Definition getKernelWidth (l : ConvolutionalLayer) : nat :=
  getCols ((_kernels l !!! 0) !!! 0).

(** Modelled from the spec: [get_output_img_size]. A convolution shrinks
    the image by the kernel size minus one (valid mode), and no position is
    valid for a kernel larger than the image; sub-sampling divides the
    image size by the scale. *)
Definition conv_output_img_size (l : ConvolutionalLayer) : SIZE :=
  mkSIZE (size_m (conv_input_img_size l) - (getKernelHeight l - 1))
         (size_n (conv_input_img_size l) - (getKernelWidth l - 1)).

Definition ss_output_img_size (l : SubSamplingLayer) : SIZE :=
  mkSIZE (size_m (ss_input_img_size l) / _scale l)
         (size_n (ss_input_img_size l) / _scale l).

Definition get_output_img_size (t : MIMOFeatureTransform) : SIZE :=
  match t with
  | Conv l => conv_output_img_size l
  | SubSamp l => ss_output_img_size l
  end.

(** [RED_ERROR]: the prefix of the error messages (the escape sequences
    are those of the literal in [CNN::init]). *)
Definition RED_ERROR : string :=
  String "027" "[31m[Error]" +:+ String "027" "[0m ".

(** [ConvolutionalLayer::feedForward(fouts, fins)] *)
Definition ConvolutionalLayer_feedForward (l : ConvolutionalLayer)
    (fouts fins : list (mat T)) : result (list (mat T)) :=
  let nInputs := conv_n l in
  let nOutputs := conv_m l in
  if negb (length fins =? nInputs) then
    Throw (RED_ERROR +:+ "Number of inputs maps ( = " +:+ to_string (length fins)
           +:+ ") does not match number of kernels ( = " +:+ to_string nInputs
           +:+ ").")
  else
    let batch_size := getCols (fins !!! 0) in
    let s := conv_output_img_size l in
    let iImgs : list (list (mat T)) :=
      for_ nInputs
        (λ i iImgs, <[i := reshapeVectors2Images (fins !!! i) (conv_input_img_size l)]> iImgs)
        (replicate nInputs []) in
    (* Allocate memory and initialize with value 0 *)
    let oImgs : list (list (mat T)) :=
      for_ nOutputs
        (λ j oImgs,
           for_ batch_size
             (λ k oImgs, alter (alter (λ _, zeros (size_m s) (size_n s)) k) j oImgs)
             (alter (resize batch_size inhabitant) j oImgs))
        (replicate nOutputs []) in
    let oImgs :=
      for_ batch_size (λ k,
        for_ nOutputs (λ j oImgs,
          let oImgs :=
            for_ nInputs (λ i,
              alter (alter (λ o, madd o
                (convn ((iImgs !!! i) !!! k) ((_kernels l !!! i) !!! j) VALID_SHM)) k) j)
              oImgs in
          alter (alter (λ o, ext_sigmoid (madd_scalar o (_bias l !!! j))) k) j oImgs))
        oImgs in
    let fouts :=
      if negb (length fouts =? nOutputs) then resize nOutputs inhabitant fouts
      else fouts in
    Ok (for_ nOutputs
          (λ j fouts, <[j := reshapeImages2Vectors (oImgs !!! j)]> fouts) fouts).

(** [ConvolutionalLayer::feedBackward(errors, deltas)] *)
Definition ConvolutionalLayer_feedBackward (l : ConvolutionalLayer)
    (errors deltas : list (mat T)) : list (mat T) :=
  let nInputs := conv_n l in
  let nOutputs := conv_m l in
  let s := conv_input_img_size l in
  let batch_size := getCols (deltas !!! 0) in
  let oImgs : list (list (mat T)) :=
    for_ nOutputs
      (λ j oImgs, <[j := reshapeVectors2Images (deltas !!! j) (conv_output_img_size l)]> oImgs)
      (replicate nOutputs []) in
  let iImgs : list (list (mat T)) :=
    for_ nInputs (λ i, alter (resize batch_size inhabitant) i)
      (replicate nInputs []) in
  let iImgs :=
    for_ batch_size (λ k,
      for_ nInputs (λ i iImgs,
        let iImgs := alter (alter (λ _, zeros (size_m s) (size_n s)) k) i iImgs in
        for_ nOutputs (λ j,
          alter (alter (λ e, madd e
            (convn ((oImgs !!! j) !!! k) (rot180 ((_kernels l !!! i) !!! j)) FULL)) k) i)
          iImgs))
      iImgs in
  let errors :=
    if negb (length errors =? nInputs) then resize nInputs inhabitant errors
    else errors in
  for_ nInputs (λ i errors, <[i := reshapeImages2Vectors (iImgs !!! i)]> errors) errors.

(** [fouts[j] & ( 1.0f - fouts[j] ) & errors[j]]: two applications of
    [operator &], each with its [assert]. *)
Definition local_delta_checked (fout error : mat T) : result (mat T) :=
  match operator_and fout (scalar_msub fone fout) with
  | Ok d => operator_and d error
  | Throw msg => Throw msg
  | AssertFail => AssertFail
  end.

(** [ConvolutionalLayer::backPropagate(errors, fins, fouts, learning_rate)]:
    the layer with its updated kernels and biases, and the new [errors].
    A failed [assert], of [operator &] while the deltas are formed or on
    the learning rate, ends the call. The [matlog] print-outs of
    [_kernels[0][0]] and the closing [PAUSE] touch neither. *)
Definition ConvolutionalLayer_backPropagate (l : ConvolutionalLayer)
    (errors fins fouts : list (mat T)) (learning_rate : T)
    : result (ConvolutionalLayer * list (mat T)) :=
  let nInputs := conv_n l in
  let nOutputs := conv_m l in
  let batch_size := getCols (fins !!! 0) in
  let deltas : result (list (mat T)) :=
    for_ nOutputs
      (λ j deltas,
         match deltas with
         | Ok deltas =>
             match local_delta_checked (fouts !!! j) (errors !!! j) with
             | Ok d => Ok (<[j := d]> deltas)
             | Throw msg => Throw msg
             | AssertFail => AssertFail
             end
         | failed => failed
         end)
      (Ok (replicate nOutputs inhabitant)) in
  match deltas with
  | Throw msg => Throw msg
  | AssertFail => AssertFail
  | Ok deltas =>
  let errors := ConvolutionalLayer_feedBackward l errors deltas in
  let iImgs : list (list (mat T)) :=
    for_ nInputs
      (λ i iImgs, <[i := reshapeVectors2Images (fins !!! i) (conv_input_img_size l)]> iImgs)
      (replicate nInputs []) in
  let oImgs : list (list (mat T)) :=
    for_ nOutputs
      (λ j oImgs, <[j := reshapeVectors2Images (deltas !!! j) (conv_output_img_size l)]> oImgs)
      (replicate nOutputs []) in
  if negb (fltb fzero learning_rate) then AssertFail
  else
    let lr := fdiv learning_rate (of_size batch_size) in
    (* Update kernels with learning rate *)
    let '(kernels, bias) :=
      for_ batch_size (λ k,
        for_ nOutputs (λ j '(kernels, bias),
          let kernels :=
            for_ nInputs (λ i,
              alter (alter (λ K, msub K
                (mmul_scalar (convn (rot180 ((iImgs !!! i) !!! k)) ((oImgs !!! j) !!! k) VALID)
                             lr)) j) i)
              kernels in
          (kernels,
           alter (λ b, fsub b (fmul (sum_all ((oImgs !!! j) !!! k)) lr)) j bias)))
        (_kernels l, _bias l) in
    Ok (mkConv nInputs nOutputs (conv_input_img_size l) kernels bias, errors)
  end.

(** [SubSamplingLayer::feedBackward(errors, deltas)] *)
Definition SubSamplingLayer_feedBackward (l : SubSamplingLayer)
    (errors deltas : list (mat T)) : list (mat T) :=
  let N := length deltas in
  let batch_size := getCols (deltas !!! 0) in
  let oImgs : list (list (mat T)) :=
    for_ N
      (λ i oImgs, <[i := reshapeVectors2Images (deltas !!! i) (ss_output_img_size l)]> oImgs)
      (replicate N []) in
  let iImgs : list (list (mat T)) :=
    for_ N (λ i iImgs,
      for_ batch_size
        (λ k, alter (alter (λ _,
           mdiv_scalar (upsample ((oImgs !!! i) !!! k) (ss_input_img_size l))
                       (of_size (_scale l * _scale l))) k) i)
        (alter (resize batch_size inhabitant) i iImgs))
      (replicate N []) in
  let errors :=
    if negb (length errors =? N) then resize N inhabitant errors else errors in
  for_ N (λ j errors, <[j := reshapeImages2Vectors (iImgs !!! j)]> errors) errors.

(** [SubSamplingLayer::backPropagate(errors, fins, fouts, learning_rate)] *)
Definition SubSamplingLayer_backPropagate (l : SubSamplingLayer)
    (errors fins fouts : list (mat T)) (learning_rate : T)
    : SubSamplingLayer * list (mat T) :=
  (* Copy errors element by element to deltas *)
  let deltas := errors in
  (l, SubSamplingLayer_feedBackward l errors deltas).
End Layers.

Arguments ConvolutionalLayer T : clear implicits.
Arguments SubSamplingLayer : clear implicits.
Arguments MIMOFeatureTransform T : clear implicits.

(** ** Strings of the layer descriptor ([utility], not part of the sources
    at hand) *)

Definition is_digit (c : ascii) : bool :=
  (48 <=? nat_of_ascii c) && (nat_of_ascii c <=? 57).

(** [s.find(c) != string::npos] for a one-character needle. *)
Fixpoint contains (c : ascii) (s : string) : bool :=
  match s with
  | EmptyString => false
  | String c' s' => Ascii.eqb c' c || contains c s'
  end.

(** Modelled from the spec: [str2int], the value of a decimal numeral.
    Reading stops at the first character that is not a digit, as [atoi]
    does; the theorems use it on digit strings only. *)
Fixpoint str2int_from (acc : nat) (s : string) : nat :=
  match s with
  | EmptyString => acc
  | String c s' =>
      if is_digit c then str2int_from (10 * acc + (nat_of_ascii c - 48)) s' else acc
  end.

Definition str2int (s : string) : nat := str2int_from 0 s.

(** Modelled from the spec: [split(s, delim)], the fields of [s] between
    the occurrences of [delim] (read with [getline]: a field closed by a
    delimiter is kept even when empty, an empty field at the very end is
    not). *)
Fixpoint split_from (cur : string) (s : string) (delim : ascii) : list string :=
  match s with
  | EmptyString => if String.eqb cur "" then [] else [cur]
  | String c s' =>
      if Ascii.eqb c delim then cur :: split_from "" s' delim
      else split_from (cur +:+ String c "") s' delim
  end.

Definition split (s : string) (delim : ascii) : list string := split_from "" s delim.

(** The two token forms of the descriptor language, [\d+s] and
    [\d+x\d+x\d+], as the spec gives them. *)
Fixpoint all_digits (s : string) : bool :=
  match s with
  | EmptyString => true
  | String c s' => is_digit c && all_digits s'
  end.

Definition is_number (s : string) : bool :=
  negb (String.eqb s "") && all_digits s.

Definition matches_subsampling (tok : string) : bool :=
  match String.length tok with
  | 0 => false
  | S k => is_number (substring 0 k tok) && String.eqb (substring k 1 tok) "s"
  end.

Definition matches_convolutional (tok : string) : bool :=
  match split_from "" tok "x" with
  | [a; b; c] =>
      is_number a && is_number b && is_number c
      && negb (String.eqb (substring (String.length tok - 1) 1 tok) "x")
  | _ => false
  end.

(** The tokens on which [CNN::init] stays within its vectors: a token
    that is taken as a convolutional one has the three fields that are
    read. *)
Definition token_fields_ok (tok : string) : bool :=
  contains "s" tok || negb (contains "x" tok) || (3 <=? length (split tok "x")).

(** ** CNN *)

Section CNN.
Context {T : Type} `{Arith T}.

(** [mat(filename)]: the matrix stored in a file, as the matrix library
    loads it. *)
Variable load : string → mat T.

Record CNN : Type := mkCNN {
  cnn_transforms : list (MIMOFeatureTransform T);   (* _transforms *)
  _houts : list (list (mat T))
}.

(** [CNN::feedBackward(error, delta)]: an empty body, marked TODO. *)
Definition CNN_feedBackward (cnn : CNN) (error delta : mat T)
  : result (CNN * mat T) := Ok (cnn, error).

(** [CNN::read(fn)]: an empty body, marked TODO. *)
Definition CNN_read (cnn : CNN) (fn : string) : result CNN := Ok cnn.

(** [CNN::save(fn) const]: an empty body, marked TODO. *)
Definition CNN_save (cnn : CNN) (fn : string) : result () := Ok ().

(** [ConvolutionalLayer::ConvolutionalLayer(n, m, h, w)]. The kernels are
    read from the files k1.mat, k2.mat, ... numbered by the function-local
    static [counter], which is threaded through; [h] and [w] only enter
    the [assert] and the line printed, which is returned with the layer.
    The base-class constructor leaves the image size to
    [set_input_img_size]. *)
Definition ConvolutionalLayer_new (counter : nat) (n m : nat) (h w : Z)
  : result (ConvolutionalLayer T * nat * string) :=
  let w := if (w =? -1)%Z then h else w in
  if negb ((0 <? n) && (0 <? m) && (0 <? h)%Z && (0 <? w)%Z) then AssertFail
  else
    let printed :=
      "Initializing " +:+ to_string n +:+ " x " +:+ to_string m
      +:+ " kernels of size " +:+ to_string_int h +:+ " x " +:+ to_string_int w
      +:+ String "010" "" in
    let '(kernels, counter) :=
      for_ n (λ i '(kernels, counter),
        for_ m (λ j '(kernels, counter),
          let counter := S counter in
          (alter (λ row, <[j := load ("k" +:+ to_string counter +:+ ".mat")]> row) i kernels,
           counter))
          (alter (resize m inhabitant) i kernels, counter))
        (replicate n [], counter) in
    let bias := for_ m (λ j bias, <[j := fzero]> bias) (replicate m inhabitant) in
    Ok (mkConv n m (mkSIZE 0 0) kernels bias, counter, printed).

(** [SubSamplingLayer::SubSamplingLayer(m, n, scale)] *)
Definition SubSamplingLayer_new (m n scale : nat) : SubSamplingLayer :=
  mkSubSampling m n (mkSIZE 0 0) scale.

(** The state of the loop of [CNN::init]: the layers built so far, the
    running image size and number of input maps, the kernel-file counter,
    and what has been printed. *)
Record init_state : Type := mkInit {
  init_transforms : list (MIMOFeatureTransform T);
  init_img_size : SIZE;
  init_nInputMaps : nat;
  init_counter : nat;
  init_stdout : string
}.

(** The conversion of a [size_t] to [int]: the low 32 bits, read as a
    signed number. ([CNN::init] holds the kernel sizes in [size_t]
    variables, the constructor takes them as [int].) *)
Definition size_to_int (n : nat) : Z :=
  let z := (Z.of_nat n mod 2 ^ 32)%Z in
  if (z <? 2 ^ 31)%Z then z else (z - 2 ^ 32)%Z.

Definition no_such_layer (tok : string) : string :=
  String "027" "[31m[Error]" +:+ String "027" "[0m No such type of layer. "
  +:+ String "034" tok
  +:+ String "034" ". Only convolutional/sub-sampling layer are allowed".

(** One iteration of the loop of [CNN::init], on the token [layers[i]].
    (A token with an x and fewer than three fields makes the source read
    [dims] out of range; see the conventions at the head of the file.) *)
Definition CNN_init_layer (tok : string) (st : init_state) : result init_state :=
  let '(mkInit transforms img_size nInputMaps counter out) := st in
  if contains "s" tok then
    let scale := str2int (substring 0 (String.length tok - 1) tok) in
    let nOutputMaps := nInputMaps in
    let t := set_input_img_size img_size
               (SubSamp (SubSamplingLayer_new nInputMaps nOutputMaps scale)) in
    Ok (mkInit (transforms ++ [t]) (get_output_img_size t) nInputMaps counter out)
  else if contains "x" tok then
    let dims := split tok "x" in
    let nOutputMaps := str2int (dims !!! 0) in
    let kernel_width := str2int (dims !!! 1) in
    let kernel_height := str2int (dims !!! 2) in
    match ConvolutionalLayer_new counter nInputMaps nOutputMaps
            (size_to_int kernel_height) (size_to_int kernel_width) with
    | Ok (l, counter, printed) =>
        let t := set_input_img_size img_size (Conv l) in
        Ok (mkInit (transforms ++ [t]) (get_output_img_size t) nOutputMaps counter
              (out +:+ printed))
    | Throw msg => Throw msg
    | AssertFail => AssertFail
    end
  else Throw (no_such_layer tok).

(** The loop over the tokens. A [throw] leaves the layers built so far in
    place. *)
Fixpoint CNN_init_loop (layers : list string) (st : init_state)
  : init_state * result () :=
  match layers with
  | [] => (st, Ok ())
  | tok :: layers =>
      match CNN_init_layer tok st with
      | Ok st => CNN_init_loop layers st
      | Throw msg => (st, Throw msg)
      | AssertFail => (st, AssertFail)
      end
  end.

(** [CNN::init(structure, img_size)] *)
Definition CNN_init (cnn : CNN) (counter : nat) (structure : string) (img_size : SIZE)
  : CNN * nat * string * result () :=
  let layers := split structure "-" in
  let nInputMaps := 1 in
  let '(st, r) :=
    CNN_init_loop layers (mkInit (cnn_transforms cnn) img_size nInputMaps counter "") in
  (mkCNN (init_transforms st) (_houts cnn), init_counter st, init_stdout st, r).

(** What [CNN::init] makes of a token: a sub-sampling layer, with as many
    output as input maps and the scale read from the token without its last
    character, if the token contains an s; else, if it contains an x, a
    convolutional layer with as many output maps as the first field says,
    kernels read from consecutive kernel files and biases 0. *)
Definition built_from (tok : string) (t : MIMOFeatureTransform T) : Prop :=
  if contains "s" tok then
    ∃ l, t = SubSamp l ∧ ss_m l = ss_n l
         ∧ _scale l = str2int (substring 0 (String.length tok - 1) tok)
  else
    contains "x" tok = true
    ∧ ∃ l counter,
        t = Conv l ∧ conv_m l = str2int (split tok "x" !!! 0)
        ∧ 0 < conv_n l ∧ 0 < conv_m l
        ∧ _kernels l
          = ((λ i, (λ j, load ("k" +:+ to_string (S (counter + i * conv_m l + j)) +:+ ".mat"))
                   <$> seq 0 (conv_m l)) <$> seq 0 (conv_n l))
        ∧ _bias l = replicate (conv_m l) fzero.

(** The tokens on which the [assert] of the constructor fails: no output
    map, or a height (third field) or width (second field) that is not
    positive as an [int], where the width -1 stands for the height. *)
Definition conv_token_refused (tok : string) : Prop :=
  let dims := split tok "x" in
  let h := size_to_int (str2int (dims !!! 2)) in
  let w := size_to_int (str2int (dims !!! 1)) in
  let w := if (w =? -1)%Z then h else w in
  str2int (dims !!! 0) = 0 ∨ (h ≤ 0)%Z ∨ (w ≤ 0)%Z.

(** The claim on a token of three numbers, the second read as the kernel
    height and the third as the width: the layer built has [N] output maps
    and kernels of height [kH] and width [kW], and the next image has
    rows - kH + 1 rows and cols - kW + 1 columns. *)
Definition claimed_conv_token (tok : string) (N kH kW : nat) (st : init_state) : Prop :=
  ∃ l st',
    CNN_init_layer tok st = Ok st'
    ∧ init_transforms st' = init_transforms st ++ [Conv l]
    ∧ conv_m l = N ∧ getKernelHeight l = kH ∧ getKernelWidth l = kW
    ∧ init_img_size st'
      = mkSIZE (size_m (init_img_size st) - kH + 1) (size_n (init_img_size st) - kW + 1).

(** Consecutive layers fit: each takes the image size and the number of
    maps that the one before it produces. *)
Fixpoint chained (img_size : SIZE) (nInputMaps : nat)
    (ts : list (MIMOFeatureTransform T)) : Prop :=
  match ts with
  | [] => True
  | t :: ts =>
      get_input_img_size t = img_size ∧ getNumInputMaps t = nInputMaps
      ∧ chained (get_output_img_size t) (getNumOutputMaps t) ts
  end.
End CNN.

Arguments CNN T : clear implicits.
Arguments init_state T : clear implicits.

(** ** FeatureTransform: the layers of a DNN *)

(** The two concrete layer classes that [dnn.cpp] instantiates; [toString]
    gives the tag of the model file. *)
Inductive TransformType : Type := Sigmoid | Softmax.

Definition toString (t : TransformType) : string :=
  match t with Sigmoid => "sigmoid" | Softmax => "softmax" end.

Record FeatureTransform (T : Type) : Type :=
  mkFT { ft_type : TransformType; _w : mat T; _dw : mat T }.
Arguments mkFT {T} _ _ _.
Arguments ft_type {T} _.
Arguments _w {T} _.
Arguments _dw {T} _.

#[export] Instance FeatureTransform_inhabited {T} : Inhabited (FeatureTransform T) :=
  populate (mkFT Sigmoid inhabitant inhabitant).

(** Modelled from the spec: [Config], the hyperparameters (learning rate,
    weight-init variance). *)
Record Config (T : Type) : Type := mkConfig { learningRate : T; variance : T }.
Arguments mkConfig {T} _ _.
Arguments learningRate {T} _.
Arguments variance {T} _.

Section FeedForward.
Context {T : Type} `{Arith T} `{Activation T}.

(** Modelled from the spec: the softmax nonlinearity per sample. A sample
    is a row; its outputs are the columns before the reserved last one, and
    each becomes its exponential divided by the sum of the exponentials of
    the outputs of the sample. *)
Definition softmax_rows (z : mat T) : mat T :=
  build (getRows z) (getCols z)
    (λ r c, fdiv (fexp (get z r c))
                 (fsum ((λ c', fexp (get z r c')) <$> seq 0 (getCols z - 1)))).

(** Modelled from the spec: [feedForward] of one layer, out =
    activation(in W), where [in] has one row per sample and as many columns
    as [W] has rows, and the result is bias-augmented: its last column is
    set to the bias input 1 of the next layer. Sigmoid applies the sigmoid
    to every entry, Softmax the softmax nonlinearity per sample. *)
Definition FeatureTransform_feedForward (t : FeatureTransform T) (fin : mat T)
  : mat T :=
  match ft_type t with
  | Sigmoid => fillLastColumnWith (ext_sigmoid (mmul fin (_w t))) fone
  | Softmax => fillLastColumnWith (softmax_rows (mmul fin (_w t))) fone
  end.

(** The shapes fit: the input of every layer has as many columns as the
    weight matrix of the layer has rows. *)
Fixpoint DNN_shapes_ok (cols : nat) (transforms : list (FeatureTransform T)) : Prop :=
  match transforms with
  | [] => True
  | t :: transforms =>
      getRows (_w t) = cols ∧ DNN_shapes_ok (getCols (_w t)) transforms
  end.

(** [DNN::feedForward(fin, O)], on the layers [_transforms] points to. *)
Definition DNN_feedForward (transforms : list (FeatureTransform T))
    (fin : mat T) (O : list (mat T)) : list (mat T) :=
  let O := <[0 := fin]> O in
  let O :=
    for_ (length transforms)
      (λ i O, <[i + 1 := FeatureTransform_feedForward (transforms !!! i) (O !!! i)]> O)
      O in
  alter (λ o, mat_resize (getRows o) (getCols o - 1) o) (length O - 1) O.

(** [DNN::predict]: the last of the [getNLayer()] outputs. *)
Definition DNN_predict (transforms : list (FeatureTransform T)) (X : mat T) : mat T :=
  let O := replicate (length transforms + 1) inhabitant in
  let O := DNN_feedForward transforms X O in
  O !!! (length O - 1).

(** The sum of the entries of row [r], resp. column [c]. *)
Definition row_sum (A : mat T) (r : nat) : T :=
  fsum ((λ c, get A r c) <$> seq 0 (getCols A)).
Definition col_sum (A : mat T) (c : nat) : T :=
  fsum ((λ r, get A r c) <$> seq 0 (getRows A)).

(** The input pushed through the first [i] layers. *)
Definition activation (transforms : list (FeatureTransform T)) (fin : mat T) (i : nat)
  : mat T :=
  foldl (λ x t, FeatureTransform_feedForward t x) fin (take i transforms).

(** A matrix without its last column, [A.resize(A.getRows(), A.getCols() - 1)]. *)
Definition drop_last_column (A : mat T) : mat T :=
  mat_resize (getRows A) (getCols A - 1) A.
End FeedForward.

(** ** DNN: the learning-rate schedule *)

Section Schedule.
Context {T : Type} `{Arith T}.

(** [DNN::adjustLearningRate(trainAcc)]. The function-local
    [static size_t phase] is one counter for the whole process; it is
    passed in and out next to the [_config] of the DNN the call is made
    on. *)
Definition adjustLearningRate (trainAcc : T) (st : nat * Config T)
  : nat * Config T :=
  let '(phase, config) := st in
  if (fltb (of_lit 0.80) trainAcc && (phase =? 0))
     || (fltb (of_lit 0.85) trainAcc && (phase =? 1))
     || (fltb (of_lit 0.90) trainAcc && (phase =? 2))
     || (fltb (of_lit 0.92) trainAcc && (phase =? 3))
     || (fltb (of_lit 0.95) trainAcc && (phase =? 4))
     || (fltb (of_lit 0.97) trainAcc && (phase =? 5))
  then
    let ratio := of_lit 0.9 in
    (phase + 1, mkConfig (fmul (learningRate config) ratio) (variance config))
  else (phase, config).

(** A sequence of calls. *)
Definition adjustLearningRate_calls (accs : list T) (st : nat * Config T)
  : nat * Config T :=
  foldl (λ st acc, adjustLearningRate acc st) st accs.

Definition thresholds : list Q := [0.80; 0.85; 0.90; 0.92; 0.95; 0.97]%Q.

(** [k] successive multiplications by the ratio 0.9. *)
Definition decayed (k : nat) (lr : T) : T :=
  Nat.iter k (λ x, fmul x (of_lit 0.9)) lr.

(** The schedule in the words of the spec: one multiplication by 0.9 for
    each threshold that some accuracy of the sequence has crossed. *)
Definition crossed (accs : list T) : list Q :=
  filter (λ t, existsb (λ acc, fltb (of_lit t) acc) accs = true) thresholds.

Definition claimed_learningRate (accs : list T) (lr : T) : T :=
  decayed (length (crossed accs)) lr.
End Schedule.

(** ** DNN: construction by copy *)

(** The free store: the layer objects by address. A [FeatureTransform*] is
    an address or null. *)
Abbreviation heap T := (gmap nat (FeatureTransform T)).
Abbreviation ptr := (option nat).

Section Copy.
Context {T : Type}.

Record DNN : Type := mkDNN { dnn_transforms : list ptr; _config : Config T }.

(** [Config()]: the default configuration (its values are set in
    [dnn.h]). *)
Variable Config_default : Config T.

(** [new X(obj)] *)
Definition new_ (obj : FeatureTransform T) (h : heap T) : ptr * heap T :=
  let p := fresh (dom h) in (Some p, <[p := obj]> h).

(** Modelled from the spec: [clone], a new object that copies the layer
    (its type, [_w] and [_dw]). Cloning through a null or dangling pointer
    is undefined in the source; the model copies the default object. *)
Definition clone (p : ptr) (h : heap T) : ptr * heap T :=
  new_ (default inhabitant (p ≫= (h !!.))) h.

(** [DNN::DNN(const DNN& source)]: [_transforms] is sized like the
    source's, [_config] is default-constructed, and every layer is
    cloned. *)
Definition DNN_copy (source : DNN) (h : heap T) : DNN * heap T :=
  let n := length (dnn_transforms source) in
  let '(transforms, h) :=
    for_ n
      (λ i '(transforms, h),
         let '(q, h) := clone (dnn_transforms source !!! i) h in
         (<[i := q]> transforms, h))
      (replicate n None, h) in
  (mkDNN transforms Config_default, h).

(** [DNN::setConfig] *)
Definition DNN_setConfig (config : Config T) (d : DNN) : DNN :=
  mkDNN (dnn_transforms d) config.
End Copy.

Arguments DNN T : clear implicits.

(** ** The convolutional layer in closed form *)

Section ConvForwardDefs.
Context {T : Type} `{Arith T} `{Activation T}.

(** The image of sample [k] in the batch [data] of flattened images. *)
Definition image_of (data : mat T) (s : SIZE) (k : nat) : mat T :=
  reshapeVectors2Images data s !!! k.

(** The image of output map [j] for sample [k]: the sigmoid of the sum
    over the input maps [i] of the valid-mode cross-correlation of input
    image [i] with kernel (i, j), plus the bias of the output map. The sum
    starts from the zero image and adds the input maps in order. *)
Definition forward_image (l : ConvolutionalLayer T) (fins : list (mat T)) (j k : nat)
  : mat T :=
  let s := conv_output_img_size l in
  ext_sigmoid
    (madd_scalar
       (for_ (conv_n l)
          (λ i acc, madd acc
             (xcorr2_valid (image_of (fins !!! i) (conv_input_img_size l) k)
                           ((_kernels l !!! i) !!! j)))
          (zeros (size_m s) (size_n s)))
       (_bias l !!! j)).

(** The result of the forward pass: one flattened batch per output map. *)
Definition forward_maps (l : ConvolutionalLayer T) (fins : list (mat T))
  : list (mat T) :=
  (λ j, reshapeImages2Vectors (forward_image l fins j <$> seq 0 (getCols (fins !!! 0))))
  <$> seq 0 (conv_m l).
End ConvForwardDefs.

Section ConvBackwardDefs.
Context {T : Type} `{Arith T} `{Activation T}.

(** The local delta of one output map: fout (1 - fout) error,
    element-wise. *)
Definition local_delta (fout error : mat T) : mat T :=
  mat_and (mat_and fout (scalar_msub fone fout)) error.

Definition deltas_of (fouts errors : list (mat T)) (nOutputs : nat)
  : list (mat T) :=
  (λ j, local_delta (fouts !!! j) (errors !!! j)) <$> seq 0 nOutputs.

(** The shapes under which [operator &] forms the local deltas: every
    incoming error has the shape of the output it belongs to. *)
Definition delta_shapes_ok (fouts errors : list (mat T)) (nOutputs : nat) : bool :=
  forallb (λ j, (getRows (fouts !!! j) =? getRows (errors !!! j))
                && (getCols (fouts !!! j) =? getCols (errors !!! j)))
    (seq 0 nOutputs).

(** The error propagated to input map [i] for sample [k]: the sum over the
    output maps [j] of the full-mode convolution of the delta image with
    the rotated kernel (i, j). *)
Definition backward_image (l : ConvolutionalLayer T) (deltas : list (mat T))
    (i k : nat) : mat T :=
  let s := conv_input_img_size l in
  for_ (conv_m l)
    (λ j e, madd e
       (conv2_full (image_of (deltas !!! j) (conv_output_img_size l) k)
                   (rot180 ((_kernels l !!! i) !!! j))))
    (zeros (size_m s) (size_n s)).

Definition backward_maps (l : ConvolutionalLayer T) (deltas : list (mat T))
  : list (mat T) :=
  (λ i, reshapeImages2Vectors
          (backward_image l deltas i <$> seq 0 (getCols (deltas !!! 0))))
  <$> seq 0 (conv_n l).

(** Kernel (i, j) after the samples of the batch have been gone through:
    for every sample the valid-mode correlation of the rotated input image
    with the delta image, times [lr], is subtracted; bias [j] likewise with
    the sum of the delta image. *)
Definition updated_kernel (l : ConvolutionalLayer T) (fins deltas : list (mat T))
    (lr : T) (batch_size i j : nat) (K : mat T) : mat T :=
  for_ batch_size
    (λ k K, msub K
       (mmul_scalar
          (xcorr2_valid (rot180 (image_of (fins !!! i) (conv_input_img_size l) k))
                        (image_of (deltas !!! j) (conv_output_img_size l) k))
          lr))
    K.

Definition updated_bias (l : ConvolutionalLayer T) (deltas : list (mat T))
    (lr : T) (batch_size j : nat) (b : T) : T :=
  for_ batch_size
    (λ k b, fsub b
       (fmul (sum_all (image_of (deltas !!! j) (conv_output_img_size l) k)) lr))
    b.
(** The kernel and bias updates of [backPropagate], one sample at a time. *)
Definition kernel_step (l : ConvolutionalLayer T) (iImgs oImgs : list (list (mat T)))
    (lr : T) (k : nat) (kernels : list (list (mat T))) : list (list (mat T)) :=
  for_ (conv_m l) (λ j,
    for_ (conv_n l) (λ i,
      alter (alter (λ K, msub K
        (mmul_scalar (convn (rot180 ((iImgs !!! i) !!! k)) ((oImgs !!! j) !!! k) VALID)
                     lr)) j) i))
    kernels.

Definition bias_step (l : ConvolutionalLayer T) (oImgs : list (list (mat T)))
    (lr : T) (k : nat) (bias : list T) : list T :=
  for_ (conv_m l)
    (λ j, alter (λ b, fsub b (fmul (sum_all ((oImgs !!! j) !!! k)) lr)) j) bias.
End ConvBackwardDefs.

(** A layer with one input map of 1 x 2 images, one output map and a 1 x 2
    kernel; one sample. *)
Definition conv12 : ConvolutionalLayer R :=
  mkConv 1 1 (mkSIZE 1 2) [[Mat 1 2 [1; 0]%R]] [0%R].
Definition fins12 : list (mat R) := [Mat 2 1 [1; 0]%R].

(** A layer with one input map of 1 x 2 images, one output map and a 1 x 1
    kernel; one sample, its output 1/2 and the incoming error 4 at the
    first pixel. *)
Definition conv11 : ConvolutionalLayer Q :=
  mkConv 1 1 (mkSIZE 1 2) [[Mat 1 1 [0%Q]]] [0%Q].
Definition fins11 : list (mat Q) := [Mat 2 1 [1; 0]%Q].
Definition fouts11 : list (mat Q) := [Mat 2 1 [1#2; 1#2]%Q].
Definition errors11 : list (mat Q) := [Mat 2 1 [4; 0]%Q].

(** A sub-sampling layer of scale 2 on 2 x 2 images; one map, one sample
    with delta 8. *)
Definition ss2 : SubSamplingLayer := mkSubSampling 1 1 (mkSIZE 2 2) 2.
Definition errors_ss2 : list (mat Q) := [Mat 1 1 [8%Q]].

(** ** The schedule: what a sequence of calls triggers *)

Section ScheduleDefs.
Context {T : Type} `{Arith T}.

(** The phases at which the calls of a sequence multiplied the learning
    rate, in the order of the calls. *)
Fixpoint triggers (accs : list T) (st : nat * Config T) : list nat :=
  match accs with
  | [] => []
  | acc :: accs =>
      let st' := adjustLearningRate acc st in
      (if st'.1 =? st.1 then [] else [st.1]) ++ triggers accs st'
  end.
End ScheduleDefs.

(** A configuration with learning rate 1. *)
Definition config1 : Config Q := mkConfig 1%Q 1%Q.

(** ** Unsupported operations *)

(** What the spec asks of an operation that is not yet supported: the call
    ends in an error. *)
Definition signals_unsupported {A} (r : result A) : Prop :=
  match r with Ok _ => False | _ => True end.

(** ** The copy loop *)

Section CopyLoop.
Context {T : Type}.

(** The state of the copy loop after [k] iterations. *)
Definition copy_loop (source : DNN T) (k : nat) h0 : list ptr * heap T :=
  for_ k
    (λ i '(transforms, h),
       let '(q, h) := clone (dnn_transforms source !!! i) h in
       (<[i := q]> transforms, h))
    (replicate (length (dnn_transforms source)) None, h0).
End CopyLoop.

(** A store with two layers and a DNN on them, learning rate 5. *)
Definition W0 : mat Q := Mat 2 2 [1; 2; 3; 4]%Q.
Definition h_src : heap Q :=
  <[0 := mkFT Sigmoid W0 W0]> (<[1 := mkFT Softmax W0 W0]> ∅).
Definition dnn_src : DNN Q := mkDNN [Some 0; Some 1] (mkConfig 5%Q 7%Q).

(** ** Example networks *)

(** The scenario of the spec: dims [3,4,2], sigmoid then softmax, all
    weights 0, and a batch of 5 samples of dimension 3, each a row with the
    bias input 1 in its last column. *)
Definition dnn342 : list (FeatureTransform R) :=
  [mkFT Sigmoid (zeros 4 5) (zeros 4 5); mkFT Softmax (zeros 5 3) (zeros 5 3)].
Definition batch5 : mat R :=
  Mat 5 4 (replicate 15 0%R ++ replicate 5 1%R).

(** ** Kernel files and the line the constructor prints *)

(** The kernel file read for kernel (i, j) of a layer with [m] output
    maps, when the counter stood at [counter] before. *)
Definition kernel_file (counter m i j : nat) : string :=
  "k" +:+ to_string (S (counter + i * m + j)) +:+ ".mat".

(** The line the constructor prints. *)
Definition printed_line (n m : nat) (h w : Z) : string :=
  "Initializing " +:+ to_string n +:+ " x " +:+ to_string m
  +:+ " kernels of size " +:+ to_string_int h +:+ " x " +:+ to_string_int w
  +:+ String "010" "".

(** A kernel store in which every file holds a 5 x 3 matrix. *)
Definition load53 : string → mat Q := λ _, zeros 5 3.
Definition st0 : init_state Q := mkInit [] (mkSIZE 10 10) 1 0 "".

(** ** DNN: the model file

    The file is the string of its characters. [fprintf] appends to it;
    [fscanf] consumes a prefix of what is left, directive by directive: a
    white-space character in the format skips any amount of white space, an
    ordinary character must be next in the input, and the conversions %s,
    %lu and %f skip white space and then read a word, a decimal number and a
    floating-point number. At the first directive that does not find what
    it asks for the call returns: the input stays where it is, the
    variables of that directive and of those after it keep what they held,
    and the code, which does not look at what [fscanf] returns, carries on.
    What %g prints for a float and what %f reads is up to the C library:
    the class [FloatText]. *)

Class FloatText (T : Type) := {
  fmt_g : T → string;                       (* printf with %g *)
  scan_f : string → option (T * string)     (* the number at the head of the input *)
}.

Definition nl : string := String "010" "".

Definition is_space (c : ascii) : bool :=
  let k := nat_of_ascii c in (k =? 32) || ((9 <=? k) && (k <=? 13)).

Fixpoint skip_ws (s : string) : string :=
  match s with
  | String c s' => if is_space c then skip_ws s' else s
  | EmptyString => s
  end.

(** A format without conversions: white space skips the white space of
    the input, any other character must be the next character of the
    input; what is left of the input when the format is used up, or from
    the first character that does not match. *)
Fixpoint scan_format (fmt : string) (s : string) : string :=
  match fmt with
  | EmptyString => s
  | String c fmt =>
      if is_space c then scan_format fmt (skip_ws s)
      else match s with
           | String c' s' => if Ascii.eqb c' c then scan_format fmt s' else s
           | EmptyString => s
           end
  end.

(** %s: the characters up to the next white space. *)
Fixpoint scan_word (s : string) : string * string :=
  match s with
  | String c s' =>
      if is_space c then ("", s)
      else let '(w, r) := scan_word s' in (String c w, r)
  | EmptyString => ("", s)
  end.

(** %lu *)
Fixpoint scan_digits (acc : nat) (s : string) : nat * string :=
  match s with
  | String c s' =>
      if is_digit c then scan_digits (10 * acc + (nat_of_ascii c - 48)) s'
      else (acc, s)
  | EmptyString => (acc, s)
  end.

Definition scan_lu (s : string) : option (nat * string) :=
  match skip_ws s with
  | String c s' => if is_digit c then Some (scan_digits 0 (String c s')) else None
  | EmptyString => None
  end.

Section ModelFile.
Context {T : Type} `{FloatText T} `{Inhabited T}.

(** The value read back from the text that %g prints for [x]. *)
Definition reread (x : T) : T :=
  match scan_f (fmt_g x +:+ " ") with
  | Some (v, _) => v
  | None => x
  end.

(** [DNN::save(fn)]: the text written for layer [t], appended to [out].
    (The line "nn_structure ..." goes to the standard output, not to the
    file.) *)
Definition DNN_save_layer (t : FeatureTransform T) (out : string) : string :=
  let w := _w t in
  let rows := getRows w in
  let cols := getCols w - 1 in
  let out := out +:+ "<" +:+ toString (ft_type t) +:+ "> "
                 +:+ to_string (rows - 1) +:+ " " +:+ to_string cols +:+ " " +:+ nl in
  let out := out +:+ " [" in
  let data := getData w in
  let out :=
    for_ (rows - 1) (λ j out,
      let out := out +:+ nl +:+ "  " in
      for_ cols (λ k out, out +:+ fmt_g (data !!! (k * rows + j)) +:+ " ") out)
      out in
  let out := out +:+ "]" +:+ nl in
  let out := out +:+ "<bias> " +:+ nl +:+ " [" in
  let out :=
    for_ cols (λ j out, out +:+ fmt_g (data !!! (j * rows + rows - 1)) +:+ " ") out in
  out +:+ " ]" +:+ nl.

Definition DNN_save (transforms : list (FeatureTransform T)) : string :=
  for_ (length transforms) (λ i out, DNN_save_layer (transforms !!! i) out) "".

(** [fscanf(fid, "%f ", &w[idx])]: without a number at the head of the
    input nothing is stored. *)
Definition scan_weight (idx : nat) (st : string * list T) : string * list T :=
  match scan_f (skip_ws st.1) with
  | Some (v, s) => (skip_ws s, <[idx := v]> st.2)
  | None => (skip_ws st.1, st.2)
  end.

(** [readweight(fid, w, rows, cols)] *)
Definition readweight (st : string * list T) (rows cols : nat) : string * list T :=
  let st :=
    for_ (rows - 1) (λ i st, for_ cols (λ j st, scan_weight (j * rows + i) st) st) st in
  let s := scan_format ("]" +:+ nl +:+ "<bias>" +:+ nl +:+ " [") st.1 in
  let st := for_ cols (λ j st, scan_weight (j * rows + rows - 1) st) (s, st.2) in
  (scan_format ("]" +:+ nl) st.1, st.2).

(** What [new float[n]] holds before it is written: [junk] by offset. *)
Variable junk : nat → T.

(** Modelled from the spec: the constructors [Sigmoid(w)] and
    [Softmax(w)]: the layer owns [w] and a gradient matrix of the same
    shape. *)
Definition FeatureTransform_of (type : TransformType) (w : mat T)
  : FeatureTransform T :=
  mkFT type w (Mat (getRows w) (getCols w) (junk <$> seq 0 (mat_size w))).

(** [fscanf(fid, "%lu %lu\n [\n", &rows, &cols)]. The variables [rows]
    and [cols] are declared before the loop and not initialised: [None]
    until a number has been read into them. *)
Definition scan_dims (s : string) (rows cols : option nat)
  : string * option nat * option nat :=
  match scan_lu s with
  | None => (skip_ws s, rows, cols)
  | Some (r, s) =>
      match scan_lu s with
      | None => (skip_ws s, Some r, cols)
      | Some (c, s) => (scan_format (nl +:+ " [" +:+ nl) s, Some r, Some c)
      end
  end.

(** One iteration of the loop of [DNN::read], after the type tag has been
    read. [None]: the iteration reads [rows] or [cols] before any number
    was stored in it, which the source leaves undefined. *)
Definition DNN_read_layer (type : string)
    (st : string * option nat * option nat * list (FeatureTransform T))
  : option (string * option nat * option nat * list (FeatureTransform T)) :=
  let '(s, rows, cols, transforms) := st in
  let '(s, rows, cols) := scan_dims s rows cols in
  match rows, cols with
  | Some r, Some c =>
      let hw := junk <$> seq 0 ((r + 1) * (c + 1)) in
      let '(s, hw) := readweight (s, hw) (r + 1) c in
      (* Reserve one more column for bias *)
      let w := Mat (r + 1) (c + 1) hw in
      let transforms :=
        if String.eqb type "<sigmoid>" then transforms ++ [FeatureTransform_of Sigmoid w]
        else if String.eqb type "<softmax>"
             then transforms ++ [FeatureTransform_of Softmax w]
             else transforms in
      Some (s, rows, cols, transforms)
  | _, _ => None
  end.

(** The loop [while (fscanf(fid, "%s", type) != EOF)]. Every iteration
    consumes input, so the length of the file bounds their number:
    [fuel]. A word that does not fit into [char type[80]] is undefined in
    the source, [None] here. *)
Fixpoint DNN_read_loop (fuel : nat) (s : string) (rows cols : option nat)
    (transforms : list (FeatureTransform T))
  : option (list (FeatureTransform T)) :=
  match fuel with
  | 0 => None
  | S fuel =>
      match skip_ws s with
      | EmptyString => Some transforms                (* EOF *)
      | s =>
          let '(type, s) := scan_word s in
          if 80 <=? String.length type then None
          else
            match DNN_read_layer type (s, rows, cols, transforms) with
            | Some (s, rows, cols, transforms) => DNN_read_loop fuel s rows cols transforms
            | None => None
            end
      end
  end.

(** [DNN::read(fn)] on the contents of the file: [_transforms.clear()],
    then the loop. *)
Definition DNN_read (file : string) : option (list (FeatureTransform T)) :=
  DNN_read_loop (S (String.length file)) file None None [].

(** What [read] makes of a saved weight matrix: the columns that are
    saved come back as re-read from their text, the reserved last column
    is whatever the fresh storage held. *)
Definition restored_w (w : mat T) : mat T :=
  Mat (getRows w) (getCols w)
    ((λ idx, if idx <? getRows w * (getCols w - 1)
             then reread (getData w !!! idx) else junk idx)
     <$> seq 0 (getRows w * getCols w)).

Definition restored (t : FeatureTransform T) : FeatureTransform T :=
  FeatureTransform_of (ft_type t) (restored_w (_w t)).

(** The numbers of the file of a DNN: the saved columns of its weight
    matrices. *)
Definition saved_weights (t : FeatureTransform T) : list T :=
  take (getRows (_w t) * (getCols (_w t) - 1)) (getData (_w t)).

(** [x] is printed as a word that %f reads back in full. *)
Definition text_ok (x : T) : Prop :=
  (∃ c s, fmt_g x = String c s ∧ is_space c = false)
  ∧ ∀ r, scan_f (fmt_g x +:+ String " " r) = Some (reread x, String " " r).
End ModelFile.

(** ** The text of a model file *)

Section FileText.
Context {T : Type} `{FloatText T} `{Inhabited T}.

(** The numbers [v 0 .. v (n-1)], each followed by a space. *)
Definition nums (n : nat) (v : nat → T) : string :=
  for_ n (λ k out, out +:+ fmt_g (v k) +:+ " ") "".

(** [R] rows of [C] numbers, each row after a line break and two
    spaces. *)
Definition rows_text (R C : nat) (v : nat → nat → T) : string :=
  for_ R (λ j out, out +:+ nl +:+ "  " +:+ nums C (v j)) "".

(** The text that [save] writes for one layer. *)
Definition layer_text (t : FeatureTransform T) : string :=
  let w := _w t in
  let rows := getRows w in
  let cols := getCols w - 1 in
  "<" +:+ toString (ft_type t) +:+ "> "
  +:+ to_string (rows - 1) +:+ " " +:+ to_string cols +:+ " " +:+ nl
  +:+ " ["
  +:+ rows_text (rows - 1) cols (λ j k, getData w !!! (k * rows + j))
  +:+ "]" +:+ nl
  +:+ "<bias> " +:+ nl +:+ " ["
  +:+ nums cols (λ j, getData w !!! (j * rows + rows - 1))
  +:+ " ]" +:+ nl.

(** A layer whose file can be read back: at least the bias row, at least
    one output next to the reserved column, and weights that %f reads
    back from what %g prints. *)
Definition layer_ok (t : FeatureTransform T) : Prop :=
  1 ≤ getRows (_w t) ∧ 2 ≤ getCols (_w t)
  ∧ length (getData (_w t)) = getRows (_w t) * getCols (_w t)
  ∧ Forall text_ok (saved_weights t).

(** A layer as [save] expects it: a weight matrix with its bias row and
    its reserved column, stored in full, whose saved numbers %g prints as
    words that %f reads back. *)
Definition layer_saved (t : FeatureTransform T) : Prop :=
  1 ≤ getRows (_w t) ∧ 1 ≤ getCols (_w t)
  ∧ length (getData (_w t)) = getRows (_w t) * getCols (_w t)
  ∧ Forall text_ok (saved_weights t).

(** The file of a list of layers. *)
Definition file_text (ts : list (FeatureTransform T)) : string :=
  foldr (λ t s, layer_text t +:+ s) "" ts.

(** What is left of the input after the block of a layer: the closing
    bracket of the bias row is printed after a blank, which the last
    number read skips; when no number is saved, the blank is still there
    and the bracket is not matched. *)
Definition after_layer (t : FeatureTransform T) (rest : string) : string :=
  if getCols (_w t) - 1 =? 0 then " ]" +:+ nl +:+ rest else skip_ws rest.
End FileText.

Section Writes.
Context {T : Type}.
Variable f : nat → T.

(** Writing [f k] at every offset [k] of a list of offsets. *)
Definition writes (ks : list nat) (l : list T) : list T :=
  foldl (λ l k, <[k := f k]> l) l ks.
End Writes.

(** ** %g and %f on floats with whole non-negative values

    A [float] holds every whole number below 2^24 exactly. For such a value
    %g prints the decimal digits when there are at most six of them and
    otherwise the six most significant digits, rounded to nearest (ties to
    even), in the form d.ddddde+XX with trailing zeros dropped; %f reads
    either form. *)

Fixpoint strip_zeros_rev (ds : list ascii) : list ascii :=
  match ds with
  | "0"%char :: ds' => strip_zeros_rev ds'
  | _ => ds
  end.

Definition to_string_N (n : N) : string := NilEmpty.string_of_uint (N.to_uint n).

Definition fmt_g_N (n : N) : string :=
  if (n <? 1000000)%N then to_string_N n
  else
    let e := N.of_nat (String.length (to_string_N n) - 1) in
    let p := (10 ^ (e - 5))%N in
    let m0 := (n / p)%N in
    let r := (n mod p)%N in
    let m := if (p <? 2 * r)%N || ((2 * r =? p)%N && N.odd m0)
             then (m0 + 1)%N else m0 in
    let '(m, e) := if (m =? 1000000)%N then (100000%N, (e + 1)%N) else (m, e) in
    match list_ascii_of_string (to_string_N m) with
    | d :: ds =>
        let frac := rev (strip_zeros_rev (rev ds)) in
        String d (match frac with
                  | [] => ""
                  | _ => String "." (string_of_list_ascii frac)
                  end)
        +:+ "e+" +:+ (if (e <? 10)%N then "0" else "") +:+ to_string_N e
    | [] => ""
    end.

(** The digits at the head of the input, continuing the number [acc], and
    how many they are. *)
Fixpoint scan_digits_N (acc : N) (k : N) (s : string) : N * N * string :=
  match s with
  | String c s' =>
      if is_digit c
      then scan_digits_N (10 * acc + N.of_nat (nat_of_ascii c - 48)) (k + 1) s'
      else (acc, k, s)
  | EmptyString => (acc, k, s)
  end.

Definition scan_f_N (s : string) : option (N * string) :=
  match s with
  | String c _ =>
      if is_digit c then
        let '(ip, _, s1) := scan_digits_N 0 0 s in
        let '(m, k, s2) :=
          match s1 with
          | String "." s' => scan_digits_N ip 0 s'
          | _ => (ip, 0%N, s1)
          end in
        let '(e, _, s3) :=
          match s2 with
          | String "e" (String "+" s') => scan_digits_N 0 0 s'
          | _ => (0%N, 0%N, s2)
          end in
        Some (if (k <=? e)%N then (m * 10 ^ (e - k))%N else (m / 10 ^ (k - e))%N, s3)
      else None
  | EmptyString => None
  end.

#[export] Instance N_FloatText : FloatText N :=
  {| fmt_g := fmt_g_N; scan_f := scan_f_N |}.

(** One sigmoid layer, one input and one output: a weight, a bias, and the
    reserved column. *)
Definition layer_a : FeatureTransform N :=
  mkFT Sigmoid (Mat 2 2 [1234567; 1; 0; 0]%N) (Mat 2 2 [0; 0; 0; 0]%N).
Definition layer_b : FeatureTransform N :=
  mkFT Softmax (Mat 2 2 [3; 1; 7; 7]%N) (Mat 2 2 [0; 0; 0; 0]%N).

(** One sigmoid layer with one input and no output: the reserved column
    alone. *)
Definition layer_c : FeatureTransform N :=
  mkFT Sigmoid (Mat 2 1 [5; 6]%N) (Mat 2 1 [0; 0]%N).

(** ** DNN: the lifetime of the layers *)

Section Lifetime.
Context {T : Type}.
Implicit Types (h : heap T).

(** [delete p]; on the null pointer it does nothing. *)
Definition delete_ (p : ptr) h : heap T :=
  match p with Some a => delete a h | None => h end.

(** [DNN::~DNN()] *)
Definition DNN_destroy (d : DNN T) h : heap T :=
  for_ (length (dnn_transforms d)) (λ i h, delete_ (dnn_transforms d !!! i) h) h.

(** [swap(DNN& lhs, DNN& rhs)] *)
Definition DNN_swap (lhs rhs : DNN T) : DNN T * DNN T :=
  (mkDNN (dnn_transforms rhs) (_config rhs), mkDNN (dnn_transforms lhs) (_config lhs)).

(** [DNN::getNLayer] *)
Definition DNN_getNLayer (d : DNN T) : nat := length (dnn_transforms d) + 1.

(** [DNN::getConfig] *)
Definition DNN_getConfig (d : DNN T) : Config T := _config d.

Variable Config_default : Config T.

(** [DNN& DNN::operator = (DNN rhs)]. The parameter is passed by value:
    [rhs] is copy-constructed from the right-hand side of the assignment,
    swapped with [*this], and destroyed when the call returns. *)
Definition DNN_assign (this source : DNN T) h : DNN T * heap T :=
  let '(rhs, h) := DNN_copy Config_default source h in
  let '(this, rhs) := DNN_swap this rhs in
  (this, DNN_destroy rhs h).

Variable junk : nat → T.

(** [DNN::init(const std::vector<mat>& weights)]: a [Sigmoid] for every
    weight matrix, then the last pointer is overwritten with a
    [Softmax]. *)
Definition DNN_init_weights (weights : list (mat T)) (d : DNN T) h : DNN T * heap T :=
  let transforms := resize (length weights) None (dnn_transforms d) in
  let '(transforms, h) :=
    for_ (length transforms)
      (λ i '(transforms, h),
         let '(q, h) := new_ (FeatureTransform_of junk Sigmoid (weights !!! i)) h in
         (<[i := q]> transforms, h))
      (transforms, h) in
  let '(q, h) :=
    new_ (FeatureTransform_of junk Softmax (weights !!! (length weights - 1))) h in
  (mkDNN (<[length transforms - 1 := q]> transforms) (_config d), h).

(** The constructors [Sigmoid(rows, cols, variance)] and
    [Softmax(rows, cols, variance)] draw the weights at random;
    [random_layer i] is the layer the [i]-th constructor call of an [init]
    returns. *)
Variable random_layer : nat → TransformType → nat → nat → T → FeatureTransform T.

(** [DNN::init(const std::vector<size_t>& dims)] *)
Definition DNN_init_dims (dims : list nat) (d : DNN T) h : result (DNN T * heap T) :=
  if negb (0 <? length dims) then AssertFail
  else
    let L := length dims - 1 in
    let transforms := resize L None (dnn_transforms d) in
    let '(transforms, h) :=
      for_ L
        (λ i '(transforms, h),
           let M := dims !!! i + 1 in
           let N := dims !!! (i + 1) + 1 in
           let '(q, h) :=
             if i =? L - 1
             then new_ (random_layer i Softmax M N (variance (_config d))) h
             else new_ (random_layer i Sigmoid M N (variance (_config d))) h in
           (<[i := q]> transforms, h))
        (transforms, h) in
    Ok (mkDNN transforms (_config d), h).
End Lifetime.

(** A pointer that is null or points to a live object. *)
Definition null_or_live {T} (h : heap T) (pt : ptr) : Prop :=
  match pt with Some p => is_Some (h !! p) | None => True end.

(** A store with the layers of [dnn_src] and, at address 2, the one layer
    of a second DNN. *)
Definition h_two : heap Q := <[2 := mkFT Sigmoid W0 W0]> h_src.
Definition dnn_other : DNN Q := mkDNN [Some 2] (mkConfig 3%Q 3%Q).

(** ** DNN: one phase counter for all objects *)

Section SharedPhase.
Context {T : Type} `{Arith T}.

(** The call [d.adjustLearningRate(trainAcc)] on the [i]-th of the DNN
    objects of a process. The [static size_t phase] of the function is
    one variable for all of them; every object has its own [_config]. *)
Definition adjustLearningRate_on (i : nat) (trainAcc : T)
    (st : nat * list (Config T)) : nat * list (Config T) :=
  match st.2 !! i with
  | Some config =>
      let '(phase, config) := adjustLearningRate trainAcc (st.1, config) in
      (phase, <[i := config]> st.2)
  | None => st
  end.

(** A sequence of calls, each on the object named with it. *)
Definition adjustLearningRate_process (calls : list (nat * T))
    (st : nat * list (Config T)) : nat * list (Config T) :=
  foldl (λ st call, adjustLearningRate_on call.1 call.2 st) st calls.
End SharedPhase.

(** ** [feature-transform.h]: the helpers on matrices *)

Section FeatureTransformH.
Context {T : Type} `{Arith T} `{Activation T}.

(** [device_matrix<T> s(rows, cols)]: a new matrix. What its storage holds
    is up to the matrix library: [fresh], by offset. *)
Definition device_matrix (fresh : nat → T) (rows cols : nat) : mat T :=
  Mat rows cols (fresh <$> seq 0 (rows * cols)).

(** [thrust::transform(first, first + n, result, op)]: the leading [n]
    cells of [dst] are overwritten. *)
Definition thrust_transform (op : T → T) (n : nat) (src dst : list T) : list T :=
  (op <$> take n src) ++ drop n dst.

(** [ext::b_sigmoid(x)]: one column more than [x]; the sigmoid in the
    cells of [x], 1.0 in the last column. *)
Definition b_sigmoid (fresh : nat → T) (x : mat T) : mat T :=
  let s := device_matrix fresh (getRows x) (getCols x + 1) in
  (* Leave last column in s untouched *)
  let s := Mat (getRows s) (getCols s)
             (thrust_transform sigmoid (mat_size x) (getData x) (getData s)) in
  (* Fill last column in s with 1.0 *)
  fillLastColumnWith s fone.

(** [cublas_geam(N, N, m, n, alpha, A, lda, beta, B, ldb, C, ldc)] with
    [beta] = 0, in which case [B] is not read: C(i, j) = alpha * A(i, j) for
    i < m and j < n, both column-major with leading dimensions [lda] and
    [ldc]. [a0] and [c0] are the offsets of [A] and [C] in their
    buffers. *)
Definition cublas_geam (m n : nat) (alpha : T) (A : list T) (a0 lda : nat)
    (C : list T) (c0 ldc : nat) : list T :=
  for_ n (λ j,
    for_ m (λ i C, <[c0 + (j * ldc + i) := fmul alpha (A !!! (a0 + (j * lda + i)))]> C)) C.

(** [memcpy2D(dest, src, r0, c0, h, w, r1, c1)]: the [h] x [w] block of
    [src] at (r0, c0) goes to (r1, c1) of [dest]. *)
Definition memcpy2D (dest src : mat T) (r0 c0 h w r1 c1 : nat) : mat T :=
  Mat (getRows dest) (getCols dest)
    (cublas_geam h w fone (getData src) (c0 * getRows src + r0) (getRows src)
       (getData dest) (c1 * getRows dest + r1) (getRows dest)).

(** [add_bias(A)] *)
Definition add_bias (fresh : nat → T) (A : mat T) : mat T :=
  let B := device_matrix fresh (getRows A) (getCols A + 1) in
  let B := madd_scalar B fone in
  Mat (getRows B) (getCols B)
    (cublas_geam (getRows A) (getCols A) fone (getData A) 0 (getRows A)
       (getData B) 0 (getRows B)).
End FeatureTransformH.

(** Two 2 x 2 matrices and a 3 x 3 matrix. *)
Definition A22 : mat Q := Mat 2 2 [1; 2; 3; 4]%Q.
Definition B22 : mat Q := Mat 2 2 [5; 6; 7; 8]%Q.
Definition A33 : mat Q := Mat 3 3 [1; 2; 3; 4; 5; 6; 7; 8; 9]%Q.

(** ** CNN: the passes through the layers *)

#[export] Instance MIMOFeatureTransform_inhabited {T} : Inhabited (MIMOFeatureTransform T) :=
  populate (SubSamp (mkSubSampling 0 0 (mkSIZE 0 0) 0)).

(** Sequencing of calls that may fail. *)
Definition result_bind {A B} (r : result A) (f : A → result B) : result B :=
  match r with Ok a => f a | Throw msg => Throw msg | AssertFail => AssertFail end.

(** [for (size_t i = a; i < b; ++i) body] over a state. *)
Definition for_from {S : Type} (a b : nat) (body : nat → S → S) (s : S) : S :=
  foldl (λ s i, body i s) s (seq a (b - a)).

Section CNNPasses.
Context {T : Type} `{Arith T} `{Activation T}.

(** Modelled from the spec: [~A], the transpose of the matrix library. *)
Definition transpose (A : mat T) : mat T :=
  build (getCols A) (getRows A) (λ r c, get A c r).

(** [concat], [de_concat] and [downsample] of [cnn-utility] are not part
    of the sources at hand: they are parameters. *)
Variable concat : list (mat T) → mat T.
Variable de_concat : mat T → nat → list (mat T).
Variable downsample : mat T → nat → mat T.

(** [SubSamplingLayer::feedForward(fouts, fins)] *)
Definition SubSamplingLayer_feedForward (l : SubSamplingLayer)
    (fouts fins : list (mat T)) : list (mat T) :=
  (* Since nInputs == nOutputs for subsampling layer, I just use N. *)
  let N := length fins in
  let batch_size := getCols (fins !!! 0) in
  let iImgs : list (list (mat T)) :=
    for_ N
      (λ i iImgs, <[i := reshapeVectors2Images (fins !!! i) (ss_input_img_size l)]> iImgs)
      (replicate N []) in
  let oImgs : list (list (mat T)) :=
    for_ N (λ i oImgs,
      for_ batch_size
        (λ k, alter (alter (λ _, downsample ((iImgs !!! i) !!! k) (_scale l)) k) i)
        (alter (resize batch_size inhabitant) i oImgs))
      (replicate N []) in
  let fouts :=
    if negb (length fouts =? N) then resize N inhabitant fouts else fouts in
  for_ N (λ j fouts, <[j := reshapeImages2Vectors (oImgs !!! j)]> fouts) fouts.

(** The virtual calls [t->feedForward(fouts, fins)] and
    [t->backPropagate(errors, fins, fouts, learning_rate)]. *)
Definition MIMO_feedForward (t : MIMOFeatureTransform T) (fouts fins : list (mat T))
  : result (list (mat T)) :=
  match t with
  | Conv l => ConvolutionalLayer_feedForward l fouts fins
  | SubSamp l => Ok (SubSamplingLayer_feedForward l fouts fins)
  end.

Definition MIMO_backPropagate (t : MIMOFeatureTransform T)
    (errors fins fouts : list (mat T)) (learning_rate : T)
  : result (MIMOFeatureTransform T * list (mat T)) :=
  match t with
  | Conv l =>
      result_bind (ConvolutionalLayer_backPropagate l errors fins fouts learning_rate)
        (λ '(l, errors), Ok (Conv l, errors))
  | SubSamp l =>
      let '(l, errors) := SubSamplingLayer_backPropagate l errors fins fouts learning_rate in
      Ok (SubSamp l, errors)
  end.

(** [CNN::feedForward(fout, fin)]. A layer that throws leaves [_houts] as
    far as it was filled. *)
Definition CNN_feedForward (cnn : CNN T) (fout fin : mat T) : CNN T * result (mat T) :=
  let transforms := cnn_transforms cnn in
  (* First 1st layer of CNN MUST have only 1 input feature map *)
  let fins := [transpose fin] in
  let houts := resize (length transforms) [] (_houts cnn) in
  let '(houts, r) :=
    match MIMO_feedForward (transforms !!! 0) (houts !!! 0) fins with
    | Ok o => (<[0 := o]> houts, Ok ())
    | Throw msg => (houts, Throw msg)
    | AssertFail => (houts, AssertFail)
    end in
  let '(houts, r) :=
    for_from 1 (length transforms)
      (λ i '(houts, r),
         match r with
         | Ok _ =>
             match MIMO_feedForward (transforms !!! i) (houts !!! i) (houts !!! (i - 1)) with
             | Ok o => (<[i := o]> houts, Ok ())
             | Throw msg => (houts, Throw msg)
             | AssertFail => (houts, AssertFail)
             end
         | _ => (houts, r)
         end)
      (houts, r) in
  (mkCNN transforms houts,
   result_bind r (λ _,
     (* Concatenate *)
     let fout := transpose (concat (houts !!! (length houts - 1))) in
     (* Reserve one more column for bias *)
     let fout := mat_resize (getRows fout) (getCols fout + 1) fout in
     Ok (fillLastColumnWith fout fone))).

(** [CNN::backPropagate(error, fin, fout, learning_rate)]: the CNN with
    its updated layers, and the new [error]. *)
Definition CNN_backPropagate (cnn : CNN T) (error fin fout : mat T) (learning_rate : T)
  : result (CNN T * mat T) :=
  let transforms := cnn_transforms cnn in
  let houts := _houts cnn in
  let n := length transforms in
  (* Remove last column, which is bias in DNN. *)
  let _fout := mat_resize (getRows fout) (getCols fout - 1) fout in
  let _error := mat_resize (getRows error) (getCols error - 1) error in
  let N := getNumOutputMaps (transforms !!! (n - 1)) in
  let fouts := de_concat (transpose _fout) N in
  let errors := de_concat (transpose _error) N in
  let fins := [transpose fin] in
  let call (i : nat) (fins fouts : list (mat T))
      (st : list (MIMOFeatureTransform T) * list (mat T)) :=
    result_bind (MIMO_backPropagate (st.1 !!! i) st.2 fins fouts learning_rate)
      (λ '(t, errors), Ok (<[i := t]> st.1, errors)) in
  result_bind (call (n - 1) (houts !!! (length houts - 1)) fouts (transforms, errors))
    (λ st,
  result_bind
    (for_ (n - 2)
       (λ k r, result_bind r (λ st,
          let i := n - 2 - k in call i (houts !!! (i - 1)) (houts !!! i) st))
       (Ok st))
    (λ st,
  result_bind (call 0 fins (houts !!! 0) st)
    (λ st,
  (* Concatenate *)
  Ok (mkCNN st.1 houts, transpose (concat st.2))))).

(** [CNN::getInputDimension], [CNN::getOutputDimension] *)
Definition CNN_getInputDimension (cnn : CNN T) : result nat :=
  let transforms := cnn_transforms cnn in
  if length transforms =? 0 then
    Throw (RED_ERROR +:+ "CNN not initialized. Don't know input dimension yet.")
  else
    let s := get_input_img_size (transforms !!! 0) in
    let nInputs := getNumInputMaps (transforms !!! 0) in
    Ok (nInputs * size_m s * size_n s).

Definition CNN_getOutputDimension (cnn : CNN T) : result nat :=
  let transforms := cnn_transforms cnn in
  if length transforms =? 0 then
    Throw (RED_ERROR +:+ "CNN not initialized. Don't know output dimension yet.")
  else
    let s := get_output_img_size (transforms !!! (length transforms - 1)) in
    let nOutputs := getNumOutputMaps (transforms !!! (length transforms - 1)) in
    Ok (nOutputs * size_m s * size_n s).

(** A sub-sampling layer with as many output maps as input maps, as
    [CNN::init] builds them. *)
Definition balanced (t : MIMOFeatureTransform T) : Prop :=
  match t with SubSamp l => ss_n l = ss_m l | Conv _ => True end.
End CNNPasses.

(** A CNN of one sub-sampling layer of scale 2 on 4 x 4 images, and
    stand-ins for the utilities: the first map for [concat], one map for
    [de_concat], the image itself for [downsample]. *)
Definition cnn_2s : CNN R :=
  mkCNN [SubSamp (mkSubSampling 1 1 (mkSIZE 4 4) 2)] [].
Definition concat_head (l : list (mat R)) : mat R := l !!! 0.
Definition de_concat_one (A : mat R) (N : nat) : list (mat R) := [A].
Definition downsample_id (A : mat R) (scale : nat) : mat R := A.

(** A convolutional layer built for two input maps, at the head of a
    CNN. *)
Definition cnn_conv2 : CNN R :=
  mkCNN [Conv (mkConv 2 1 (mkSIZE 4 4) [[zeros 1 1]; [zeros 1 1]] [0%R])] [].

(** A layer of one input and one output, and a batch of one sample. *)
Definition layer11 : FeatureTransform R := mkFT Sigmoid (zeros 2 2) (zeros 2 2).
Definition sample11 : mat R := Mat 1 2 [0; 1]%R.

(** ** DataSet ([dataset.cpp])

    A data set holds the features [_hx], one column per sample with a last
    row of ones for the bias, and the labels [_hy], one row; both are
    host matrices with the column-major layout of [device_matrix]. *)

(** [Batches::Batch]: the first sample of a batch and the number of its
    samples. *)
Record Batch : Type := mkBatch { offset : nat; nData : nat }.

Record DataSet (T : Type) : Type :=
  mkDataSet { _dim : nat; _hx : mat T; _hy : mat T }.
Arguments mkDataSet {T} _ _ _.
Arguments _dim {T} _.
Arguments _hx {T} _.
Arguments _hy {T} _.

Section DataSet.
Context {T : Type} `{Arith T}.

(** [mat(ptr, rows, cols)]: the matrix of the [rows * cols] floats at
    [ptr]. *)
Definition mat_of_buffer (buf : list T) (rows cols : nat) : mat T :=
  Mat rows cols (take (rows * cols) buf).

(** [getBatchData(data, b)] *)
Definition getBatchData (data : mat T) (b : Batch) : mat T :=
  transpose
    (mat_of_buffer (drop (offset b * getRows data) (getData data)) (getRows data) (nData b)).

(** [DataSet::getFeatureDimension], [DataSet::size] *)
Definition getFeatureDimension (ds : DataSet T) : nat := _dim ds.
Definition DataSet_size (ds : DataSet T) : nat := mat_size (_hy ds).

(** [DataSet::getX(b)], [DataSet::getY(b)] *)
Definition DataSet_getX (ds : DataSet T) (b : Batch) : mat T := getBatchData (_hx ds) b.
Definition DataSet_getY (ds : DataSet T) (b : Batch) : mat T := getBatchData (_hy ds) b.

(** [A(i, j) = v] on a host matrix. *)
Definition hset (A : mat T) (i j : nat) (v : T) : mat T :=
  Mat (getRows A) (getCols A) (<[j * getRows A + i := v]> (getData A)).

(** [memcpy(dst, src, n * sizeof(float))] *)
Definition memcpy (dst src : list T) (n : nat) : list T := take n src ++ drop n dst.

(** [DataSet::splitIntoTrainAndValidSet(train, valid, ratio)]. The [int]
    [ratio] is converted to [size_t] for the division, which is undefined
    for 0: [None]. The two lines printed are left out. *)
Definition splitIntoTrainAndValidSet (this train valid : DataSet T) (ratio : Z)
  : option (DataSet T * DataSet T) :=
  let inputDim := getRows (_hx this) in
  let ratio := (ratio mod 2 ^ 64)%Z in
  if (ratio =? 0)%Z then None
  else
    let nValid := Z.to_nat (Z.of_nat (DataSet_size this) / ratio) in
    let nTrain := DataSet_size this - nValid in
    (* Copy data to training set *)
    let thx := mat_resize inputDim nTrain (_hx train) in
    let thy := mat_resize 1 nTrain (_hy train) in
    let thx := Mat (getRows thx) (getCols thx)
                 (memcpy (getData thx) (getData (_hx this)) (mat_size thx)) in
    let thy := Mat (getRows thy) (getCols thy)
                 (memcpy (getData thy) (getData (_hy this)) (mat_size thy)) in
    (* Copy data to validation set *)
    let vhx := mat_resize inputDim nValid (_hx valid) in
    let vhy := mat_resize 1 nValid (_hy valid) in
    let vhx := Mat (getRows vhx) (getCols vhx)
                 (memcpy (getData vhx) (drop (mat_size thx) (getData (_hx this)))
                    (mat_size vhx)) in
    let vhy := Mat (getRows vhy) (getCols vhy)
                 (memcpy (getData vhy) (drop (mat_size thy) (getData (_hy this)))
                    (mat_size vhy)) in
    Some (mkDataSet (_dim train) thx thy, mkDataSet (_dim valid) vhx vhy).

(** [DataSet::shuffle()], with [perm] for what [randperm(size())]
    returns. *)
Definition shuffle (perm : list nat) (ds : DataSet T) : DataSet T :=
  let x := _hx ds in
  let y := _hy ds in
  let '(hx, hy) :=
    for_ (DataSet_size ds)
      (λ i '(hx, hy),
         let hx := for_ (_dim ds + 1) (λ j hx, hset hx j (perm !!! i) (get x j i)) hx in
         (hx, Mat (getRows hy) (getCols hy)
                (<[perm !!! i := getData y !!! i]> (getData hy))))
      (x, y) in
  mkDataSet (_dim ds) hx hy.
End DataSet.

(** Three samples of two features (and the bias row) with their labels,
    and two data sets built by [DataSet()]. *)
Definition ds3 : DataSet Q :=
  mkDataSet 2 (Mat 3 3 [1; 2; 1; 3; 4; 1; 5; 6; 1]%Q) (Mat 1 3 [7; 8; 9]%Q).
Definition ds_empty : DataSet Q := mkDataSet 0 (Mat 0 0 []) (Mat 0 0 []).

(** ** DataSet: normalisation *)

(** The comparison [==] of two floats, and the two functions of [<cmath>]
    the data set uses: [sqrt(x)] and [pow(x, 2.0f)]. *)
Class FloatEq (T : Type) := { feqb : T → T → bool }.
Class CMath (T : Type) := { fsqrt : T → T; fpow2 : T → T }.

#[export] Instance Q_FloatEq : FloatEq Q := {| feqb := Qeq_bool |}.
#[export] Instance R_FloatEq : FloatEq R :=
  {| feqb a b := if Req_dec_T a b then true else false |}.
#[export] Instance R_CMath : CMath R := {| fsqrt := sqrt; fpow2 := Rsqr |}.

Section Scaling.
Context {T : Type} `{Arith T} `{FloatEq T}.

(** [DataSet::linearScaling(lower, upper)]. As the FIXME in the source
    says, the loop runs over the samples and rescales each sample over its
    features, not each feature over the samples. *)
Definition linearScaling (lower upper : T) (ds : DataSet T) : DataSet T :=
  let hx :=
    for_ (DataSet_size ds)
      (λ i hx,
         let '(min, max) :=
           for_ (_dim ds)
             (λ j '(min, max),
                let x := get hx j i in
                let max := if fltb max x then x else max in
                let min := if fltb x min then x else min in
                (min, max))
             (get hx 0 i, get hx 0 i) in
         if feqb max min then for_ (_dim ds) (λ j hx, hset hx j i upper) hx
         else
           let ratio := fdiv (fsub upper lower) (fsub max min) in
           for_ (_dim ds)
             (λ j hx, hset hx j i (fadd (fmul (fsub (get hx j i) min) ratio) lower)) hx)
      (_hx ds) in
  mkDataSet (_dim ds) hx (_hy ds).

(** The body of the loop of [linearScaling] over the samples. *)
Definition scale_sample (lower upper : T) (dim i : nat) (hx : mat T) : mat T :=
  let '(min, max) :=
    for_ dim
      (λ j '(min, max),
         let x := get hx j i in
         let max := if fltb max x then x else max in
         let min := if fltb x min then x else min in
         (min, max))
      (get hx 0 i, get hx 0 i) in
  if feqb max min then for_ dim (λ j hx, hset hx j i upper) hx
  else
    let ratio := fdiv (fsub upper lower) (fsub max min) in
    for_ dim
      (λ j hx, hset hx j i (fadd (fmul (fsub (get hx j i) min) ratio) lower)) hx.
End Scaling.

Section StandardScore.
Context {T : Type} `{Arith T} `{FloatEq T} `{CMath T}.

(** [DataSet::normalizeToStandardScore()] *)
Definition normalizeToStandardScore (ds : DataSet T) : DataSet T :=
  let nData := getCols (_hx ds) in
  let data :=
    for_ (_dim ds)
      (λ i data,
         let mean := for_ nData (λ j mean, fadd mean (get data i j)) fzero in
         let mean := fdiv mean (of_size nData) in
         let data := for_ nData (λ j data, hset data i j (fsub (get data i j) mean)) data in
         if nData <=? 1 then data
         else
           let deviation :=
             for_ nData (λ j deviation, fadd deviation (fpow2 (get data i j))) fzero in
           let deviation := fsqrt (fdiv deviation (of_size (nData - 1))) in
           if feqb deviation fzero then data
           else for_ nData (λ j data, hset data i j (fdiv (get data i j) deviation)) data)
      (_hx ds) in
  mkDataSet (_dim ds) data (_hy ds).

(** The body of the loop of [normalizeToStandardScore] over the
    features. *)
Definition standardize_row (nData i : nat) (data : mat T) : mat T :=
  let mean := for_ nData (λ j mean, fadd mean (get data i j)) fzero in
  let mean := fdiv mean (of_size nData) in
  let data := for_ nData (λ j data, hset data i j (fsub (get data i j) mean)) data in
  if nData <=? 1 then data
  else
    let deviation :=
      for_ nData (λ j deviation, fadd deviation (fpow2 (get data i j))) fzero in
    let deviation := fsqrt (fdiv deviation (of_size (nData - 1))) in
    if feqb deviation fzero then data
    else for_ nData (λ j data, hset data i j (fdiv (get data i j) deviation)) data.

(** [DataSet::normalize(type)] *)
Definition DataSet_normalize (type : Z) (ds : DataSet T) : DataSet T :=
  match type with
  | 0%Z => ds                                  (* Do not normalize *)
  | 1%Z => linearScaling fzero fone ds         (* Rescale to [0, 1] *)
  | 2%Z => normalizeToStandardScore ds         (* Normalize to standard score *)
  | _ => ds
  end.
End StandardScore.

(** The entries of row [i] of a matrix, left to right. *)
Definition row_of {T} `{Arith T} (A : mat T) (i : nat) : list T :=
  (λ j, get A i j) <$> seq 0 (getCols A).

(** Two samples of two features over the reals: (1, 3) and (5, 5). *)
Definition dsR : DataSet R :=
  mkDataSet 2 (Mat 3 2 [1; 3; 1; 5; 5; 1]%R) (Mat 1 2 [0; 1]%R).

(** ** DataSet: reading a file

    A stream is the text that is left to read. [std::getline] takes the
    characters up to the next line break, which it drops, and fails when
    nothing is left; [stream >> token] skips white space and takes the
    characters up to the next white space, and fails, leaving [token] as it
    is, when only white space is left. The functions that scan a file ahead
    put the stream back to where it was. *)

(** The lines that [std::getline] reads one after the other. *)
Definition getlines (s : string) : list string := split_from "" s "010".

(** The tokens that [stream >> token] reads one after the other. *)
Fixpoint words_from (cur : string) (s : string) : list string :=
  match s with
  | EmptyString => if String.eqb cur "" then [] else [cur]
  | String c s' =>
      if is_space c
      then (if String.eqb cur "" then words_from "" s' else cur :: words_from "" s')
      else words_from (cur +:+ String c "") s'
  end.

Definition words (s : string) : list string := words_from "" s.

(** [s.find(c)] *)
Fixpoint find_char (c : ascii) (s : string) : option nat :=
  match s with
  | EmptyString => None
  | String c' s' => if Ascii.eqb c' c then Some 0 else S <$> find_char c s'
  end.

(** [atoi]: white space, a sign, digits; then the conversion of the [int]
    to [size_t]. *)
Definition atoi (s : string) : Z :=
  match skip_ws s with
  | String "-" s' => - Z.of_nat (scan_digits 0 s').1
  | String "+" s' => Z.of_nat (scan_digits 0 s').1
  | s' => Z.of_nat (scan_digits 0 s').1
  end.

Definition int_to_size (z : Z) : nat := Z.to_nat (z mod 2 ^ 64).

(** [isFileSparse(fn)], on the contents of the file: the first line has a
    colon. *)
Definition isFileSparse (file : string) : bool :=
  contains ":" (default "" (head (getlines file))).

(** [getLineNumber(fin)] *)
Definition getLineNumber (s : string) : nat := length (getlines s).

(** [findMaxDimension(fin)] *)
Definition findMaxDimension (s : string) : nat :=
  foldl (λ maxDimension token,
           match find_char ":" token with
           | None => maxDimension
           | Some pos =>
               let dim := int_to_size (atoi (substring 0 pos token)) in
               if maxDimension <? dim then dim else maxDimension
           end)
    0 (words s).

(** [findDimension(fin)]: the tokens of the first line after the first
    one, which is the class label. *)
Definition findDimension (s : string) : nat :=
  let line := default "" (head (getlines s)) in
  length (tail (words line)).

Section Read.
Context {T : Type} `{Arith T}.

(** [str2float] of the utilities, the conversion of a [float] to
    [size_t], and what the storage of [_hx] and of [_hy] holds after
    [resize]: parameters. *)
Variable str2float : string → T.
Variable float_to_size : T → nat.
Variable fresh_x fresh_y : nat → T.

(** [A[i] = v] on a host matrix. *)
Definition hset_linear (A : mat T) (i : nat) (v : T) : mat T :=
  Mat (getRows A) (getCols A) (<[i := v]> (getData A)).

(** The label of a line: [ss >> token; _hy[i] = str2float(token)]. On a
    line without a token the extraction fails and [token] still holds what
    it held before. *)
Definition read_label (toks : list string) (token : string) : string :=
  default token (head toks).

(** [DataSet::readDenseFeature(fin)]; the state is [_hx], [_hy] and the
    variable [token], which lives across the lines. *)
Definition readDenseFeature (s : string) (st : mat T * mat T * string)
  : mat T * mat T * string :=
  let lines := getlines s in
  for_ (length lines)
    (λ i '(hx, hy, token),
       let toks := words (lines !!! i) in
       let token := read_label toks token in
       let hy := hset_linear hy i (str2float token) in
       let feats := tail toks in
       let hx := for_ (length feats) (λ j hx, hset hx j i (str2float (feats !!! j))) hx in
       (hx, hy, default token (last toks)))
    st.

(** [DataSet::readSparseFeature(fin)] *)
Definition readSparseFeature (s : string) (st : mat T * mat T * string)
  : mat T * mat T * string :=
  let lines := getlines s in
  for_ (length lines)
    (λ i '(hx, hy, token),
       let toks := words (lines !!! i) in
       let token := read_label toks token in
       let hy := hset_linear hy i (str2float token) in
       let feats := tail toks in
       let hx :=
         for_ (length feats)
           (λ k hx,
              let token := feats !!! k in
              match find_char ":" token with
              | None => hx
              | Some pos =>
                  let j := float_to_size (fsub (str2float (substring 0 pos token)) fone) in
                  let value :=
                    str2float (substring (pos + 1) (String.length token - (pos + 1)) token) in
                  hset hx j i value
              end)
           hx in
       (hx, hy, default token (last toks)))
    st.

(** [DataSet::read(fn)], with [fs] for the files that can be opened. *)
Definition DataSet_read (fs : string → option string) (fn : string) (ds : DataSet T)
  : result (DataSet T) :=
  match fs fn with
  | None => Throw (RED_ERROR +:+ "Cannot load file: " +:+ fn)
  | Some file =>
      let isSparse := isFileSparse file in
      let dim :=
        if _dim ds =? 0
        then (if isSparse then findMaxDimension file else findDimension file)
        else _dim ds in
      let N := getLineNumber file in
      let hx := Mat (dim + 1) N (fresh_x <$> seq 0 ((dim + 1) * N)) in
      let hy := Mat 1 N (fresh_y <$> seq 0 (1 * N)) in
      let '(hx, hy, _) :=
        if isSparse then readSparseFeature file (hx, hy, "")
        else readDenseFeature file (hx, hy, "") in
      let hx := for_ N (λ i hx, hset hx dim i fone) hx in
      Ok (mkDataSet dim hx hy)
  end.
End Read.

(** A token: not empty, and free of white space. *)
Fixpoint no_space (s : string) : bool :=
  match s with
  | EmptyString => true
  | String c s' => negb (is_space c) && no_space s'
  end.

Definition is_token (s : string) : bool := negb (String.eqb s "") && no_space s.

(** The tokens of a line with one blank between them, and a file of the
    lines, each ended by a line break. *)
Fixpoint unwords (toks : list string) : string :=
  match toks with
  | [] => ""
  | [t] => t
  | t :: ts => t +:+ " " +:+ unwords ts
  end.

Definition unlines (lines : list string) : string :=
  foldr (λ l s, l +:+ String "010" s) "" lines.

(** A dense sample: its label and its features, as written in the
    file. *)
Definition dense_line (row : string * list string) : string :=
  unwords (row.1 :: row.2).

Definition dense_file (rows : list (string * list string)) : string :=
  unlines (dense_line <$> rows).

(** The files of an example: one dense file of two samples. *)
Definition fs_example (fn : string) : option string :=
  if String.eqb fn "train.dat" then Some (dense_file [("1", ["3"; "4"]); ("2", ["5"; "6"])])
  else None.

(** A stand-in for [str2float] on numerals without a fraction. *)
Definition str2float_Q (s : string) : Q := inject_Z (Z.of_nat (str2int s)).

(** Outputs and errors of one map that do not fit: one sample of two
    pixels against an error of one pixel. *)
Definition errors_short : list (mat Q) := [Mat 1 1 [4%Q]].

(** * Properties *)

(** ** Loops *)

Section Loops.
Context {A : Type}.

Lemma for_0 {S} (body : nat → S → S) s : for_ 0 body s = s.
Proof. reflexivity. Qed.

Lemma for_S {S} n (body : nat → S → S) s :
  for_ (Datatypes.S n) body s = body n (for_ n body s).
Proof. unfold for_. rewrite seq_S, foldl_snoc. reflexivity. Qed.

Lemma for_ext {S} n (body body' : nat → S → S) s :
  (∀ i s, i < n → body i s = body' i s) → for_ n body s = for_ n body' s.
Proof.
  induction n as [|n IH]; intros Hb; [done|].
  rewrite !for_S, IH by (intros; apply Hb; lia). apply Hb; lia.
Qed.

(** A loop that only ever touches cell [i] of a vector is one update of
    that cell by the loop on its content. *)
Lemma for_alter_cell n (h : nat → A → A) i (l : list A) :
  for_ n (λ k, alter (h k) i) l = alter (for_ n h) i l.
Proof.
  induction n as [|n IH].
  - rewrite for_0. symmetry. apply list_alter_id. done.
  - rewrite for_S, IH, list_alter_alter_eq.
    apply list_alter_ext; [|done]. intros x _. simpl. by rewrite for_S.
Qed.

Lemma length_for_alter n (g : nat → A → A) (l : list A) :
  length (for_ n (λ k, alter (g k) k) l) = length l.
Proof.
  induction n as [|n IH]; [done|]. by rewrite for_S, length_alter.
Qed.

(** A loop whose iteration [k] updates cell [k]. *)
Lemma lookup_for_alter n (g : nat → A → A) (l : list A) i :
  for_ n (λ k, alter (g k) k) l !! i
  = if decide (i < n) then g i <$> l !! i else l !! i.
Proof.
  induction n as [|n IH].
  - rewrite for_0. by case_decide; [lia|].
  - rewrite for_S, list_lookup_alter. destruct (decide (n = i)) as [->|Hne].
    + rewrite IH. rewrite decide_False by lia. by rewrite decide_True by lia.
    + rewrite IH. repeat case_decide; try lia; done.
Qed.

Lemma for_alter_replicate n (g : nat → A → A) x :
  for_ n (λ k, alter (g k) k) (replicate n x) = (λ k, g k x) <$> seq 0 n.
Proof.
  apply list_eq; intros i. rewrite lookup_for_alter, list_lookup_fmap.
  destruct (decide (i < n)).
  - rewrite lookup_replicate_2 by done. by rewrite lookup_seq_lt.
  - rewrite (proj1 (lookup_replicate_None _ _ _)) by lia.
    by rewrite lookup_seq_ge by lia.
Qed.

(** A loop whose iteration [k] assigns cell [k]. *)
Lemma for_insert_seq n (f : nat → A) (l : list A) :
  length l = n → for_ n (λ k l, <[k := f k]> l) l = f <$> seq 0 n.
Proof.
  intros Hl.
  rewrite (for_ext _ _ (λ k, alter (λ _, f k) k)).
  2:{ intros i s _. apply list_insert_alter. }
  apply list_eq; intros i. rewrite lookup_for_alter, list_lookup_fmap.
  destruct (decide (i < n)).
  - destruct (lookup_lt_is_Some_2 l i) as [y ->]; [lia|].
    by rewrite lookup_seq_lt.
  - rewrite lookup_ge_None_2 by lia. by rewrite lookup_seq_ge by lia.
Qed.
End Loops.

Lemma lookup_total_fmap_seq {A} `{Inhabited A} (f : nat → A) n i :
  i < n → (f <$> seq 0 n) !!! i = f i.
Proof.
  intros Hi. apply list_lookup_total_correct.
  by rewrite list_lookup_fmap, lookup_seq_lt.
Qed.

Section Loops2.
Context {A : Type}.

(** Two nested loops over the cells of a vector of vectors, the outer one
    over the rows: row [r] ends as the inner loop leaves it. *)
Lemma lookup_for_rows_cols R C (F : nat → nat → A → A) (L : list (list A)) r :
  for_ R (λ r, for_ C (λ c, alter (alter (F r c) c) r)) L !! r
  = if decide (r < R) then for_ C (λ c, alter (F r c) c) <$> L !! r else L !! r.
Proof.
  erewrite for_ext; [|intros i s _; apply for_alter_cell].
  apply (lookup_for_alter R (λ r, for_ C (λ c, alter (F r c) c))).
Qed.

(** The same with the outer loop over the columns. *)
Lemma lookup_for_cols_rows R C (F : nat → nat → A → A) (L : list (list A)) r :
  for_ C (λ c, for_ R (λ r, alter (alter (F r c) c) r)) L !! r
  = if decide (r < R) then for_ C (λ c, alter (F r c) c) <$> L !! r else L !! r.
Proof.
  induction C as [|C IH].
  - rewrite for_0. case_decide; [|done]. by destruct (L !! r).
  - rewrite for_S, (lookup_for_alter R (λ r, alter (F r C) C)), IH.
    case_decide; [|done]. destruct (L !! r); [|done]. simpl. by rewrite for_S.
Qed.

(** An outer loop around a loop whose iteration [j] updates cell [j]: cell
    [j] goes through the outer loop alone. *)
Lemma lookup_for_for_alter K J (V : nat → nat → A → A) (l : list A) j :
  for_ K (λ k, for_ J (λ j, alter (V j k) j)) l !! j
  = if decide (j < J) then for_ K (λ k, V j k) <$> l !! j else l !! j.
Proof.
  induction K as [|K IH].
  - rewrite for_0. case_decide; [|done]. by destruct (l !! j).
  - rewrite for_S, (lookup_for_alter J (λ j, V j K)), IH.
    case_decide; [|done]. destruct (l !! j); [|done]. simpl. by rewrite for_S.
Qed.

Lemma length_for_for_alter K J (V : nat → nat → A → A) (l : list A) :
  length (for_ K (λ k, for_ J (λ j, alter (V j k) j)) l) = length l.
Proof.
  induction K as [|K IH]; [done|]. by rewrite for_S, length_for_alter.
Qed.
End Loops2.

(** A loop over a pair of independent states. *)
Lemma for_pair {S1 S2} n (f : nat → S1 → S1) (g : nat → S2 → S2) s1 s2 :
  for_ n (λ i '(a, b), (f i a, g i b)) (s1, s2) = (for_ n f s1, for_ n g s2).
Proof.
  induction n as [|n IH]; [done|]. by rewrite !for_S, IH.
Qed.

(** A loop of steps that each act on cell [i] by a function of the cell
    acts on cell [i] by the loop of these functions. *)
Lemma lookup_for_steps {A} n (step : nat → list A → list A) (g : nat → A → A)
    (l : list A) i :
  (∀ k l, step k l !! i = g k <$> l !! i) →
  for_ n step l !! i = for_ n g <$> l !! i.
Proof.
  intros Hstep. induction n as [|n IH].
  - rewrite for_0. by destruct (l !! i).
  - rewrite for_S, Hstep, IH. destruct (l !! i); [|done]. simpl. by rewrite for_S.
Qed.

Lemma length_for_steps {A} n (step : nat → list A → list A) (l : list A) :
  (∀ k l, length (step k l) = length l) → length (for_ n step l) = length l.
Proof.
  intros Hstep. induction n as [|n IH]; [done|]. by rewrite for_S, Hstep.
Qed.

(** ** Matrices and batches of images *)

Section Blocks.
Context {A B : Type}.

Lemma length_bind_blocks (l : list A) (g : A → list B) m :
  Forall (λ y, length (g y) = m) l → length (l ≫= g) = length l * m.
Proof.
  induction 1 as [|y l Hy _ IH]; [done|].
  rewrite bind_cons, length_app, IH, Hy. simpl. lia.
Qed.

(** In a concatenation of blocks of one length [m], cell [p] of block [k]
    is at offset [k * m + p]. *)
Lemma lookup_bind_blocks (l : list A) (g : A → list B) m k p x :
  Forall (λ y, length (g y) = m) l →
  l !! k = Some x → p < m →
  (l ≫= g) !! (k * m + p) = g x !! p.
Proof.
  intros Hl. revert k. induction Hl as [|y l Hy _ IH]; intros k Hk Hp; [done|].
  rewrite bind_cons. destruct k as [|k]; simpl in Hk.
  - injection Hk as ->. rewrite lookup_app_l by (simpl; lia). done.
  - rewrite lookup_app_r by (simpl; lia).
    replace (S k * m + p - length (g y)) with (k * m + p) by (simpl; lia).
    by apply IH.
Qed.
End Blocks.

Section MatrixFacts.
Context {T : Type} `{Arith T}.

Lemma wf_build m n (f : nat → nat → T) : wf (build m n f).
Proof.
  unfold wf, build, mat_size; simpl.
  rewrite (length_bind_blocks _ _ m).
  - rewrite length_seq. lia.
  - apply Forall_forall. intros c _. by rewrite length_fmap, length_seq.
Qed.

Lemma get_build m n (f : nat → nat → T) r c :
  r < m → c < n → get (build m n f) r c = f r c.
Proof.
  intros Hr Hc. unfold get, build; simpl.
  apply list_lookup_total_correct.
  rewrite (lookup_bind_blocks _ _ m c r c).
  - rewrite list_lookup_fmap, lookup_seq_lt by done. done.
  - apply Forall_forall. intros c' _. by rewrite length_fmap, length_seq.
  - by rewrite lookup_seq_lt.
  - done.
Qed.

Lemma wf_transform (f : T → T) A : wf A → wf (transform f A).
Proof. unfold wf, transform, mat_size; simpl. by rewrite length_fmap. Qed.

Lemma get_transform (f : T → T) A r c :
  wf A → r < getRows A → c < getCols A →
  get (transform f A) r c = f (get A r c).
Proof.
  intros Hwf Hr Hc. unfold get, transform; simpl.
  apply list_lookup_total_fmap. rewrite Hwf. unfold mat_size. nia.
Qed.

(** Sample [k] of a batch, as an image. *)
Lemma lookup_reshapeVectors2Images (data : mat T) s k :
  k < getCols data →
  reshapeVectors2Images data s !! k
  = Some (Mat (size_m s) (size_n s)
            (take (size_m s * size_n s) (drop (k * getRows data) (getData data)))).
Proof.
  intros Hk. unfold reshapeVectors2Images.
  by rewrite list_lookup_fmap, lookup_seq_lt.
Qed.

Lemma lookup_total_reshapeVectors2Images (data : mat T) s k :
  k < getCols data →
  reshapeVectors2Images data s !!! k
  = Mat (size_m s) (size_n s)
      (take (size_m s * size_n s) (drop (k * getRows data) (getData data))).
Proof.
  intros Hk. apply list_lookup_total_correct.
  by apply lookup_reshapeVectors2Images.
Qed.

Lemma length_reshapeVectors2Images (data : mat T) s :
  length (reshapeVectors2Images data s) = getCols data.
Proof. unfold reshapeVectors2Images. by rewrite length_fmap, length_seq. Qed.

Lemma get_reshapeVectors2Images (data : mat T) s k r c :
  k < getCols data → r < size_m s → c < size_n s →
  get (reshapeVectors2Images data s !!! k) r c
  = get data (c * size_m s + r) k.
Proof.
  intros Hk Hr Hc.
  rewrite lookup_total_reshapeVectors2Images by done.
  unfold get; simpl.
  rewrite lookup_total_take_lt by nia. by rewrite lookup_total_drop.
Qed.

(** A batch of images of one size, flattened: entry [p] of column [k] is
    cell [p] of image [k]. *)
Lemma get_reshapeImages2Vectors (images : list (mat T)) sz k img p :
  Forall (λ img, mat_size img = sz ∧ wf img) images →
  images !! k = Some img → p < sz →
  get (reshapeImages2Vectors images) p k = getData img !!! p.
Proof.
  intros Himgs Hk Hp.
  assert (mat_size (images !!! 0) = sz) as H0.
  { destruct images as [|i0 images]; [done|]. simpl.
    by apply Forall_cons_1 in Himgs as [[? _] _]. }
  unfold get, reshapeImages2Vectors. cbn [getData getRows]. rewrite H0.
  apply list_lookup_total_correct.
  rewrite (lookup_bind_blocks _ _ sz k p img); [| |done|done].
  - rewrite lookup_take_lt by done. apply list_lookup_lookup_total_lt.
    rewrite Forall_forall in Himgs. destruct (Himgs img) as [<- ->]; [|done].
    by eapply list_elem_of_lookup_2.
  - eapply Forall_impl; [exact Himgs|]. intros y [Hy Hwf]; simpl.
    rewrite length_take_le; [done|]. rewrite Hwf, Hy. done.
Qed.

Lemma wf_reshapeImages2Vectors (images : list (mat T)) sz :
  Forall (λ img, mat_size img = sz ∧ wf img) images →
  0 < length images →
  getRows (reshapeImages2Vectors images) = sz
  ∧ getCols (reshapeImages2Vectors images) = length images
  ∧ wf (reshapeImages2Vectors images).
Proof.
  intros Himgs Hlen.
  assert (mat_size (images !!! 0) = sz) as H0.
  { destruct images as [|i0 images]; [simpl in Hlen; lia|]. simpl.
    by apply Forall_cons_1 in Himgs as [[? _] _]. }
  unfold wf, reshapeImages2Vectors, mat_size at 2. cbn [getData getRows getCols].
  rewrite H0. split_and!; [done..|].
  rewrite (length_bind_blocks _ _ sz); [unfold mat_size; simpl; lia|].
  eapply Forall_impl; [exact Himgs|]. intros y [Hy Hwf]; simpl.
  rewrite length_take_le; [done|]. rewrite Hwf, Hy. done.
Qed.
End MatrixFacts.

(** ** Sums of reals *)

Lemma foldl_Rplus (a : R) (l : list R) :
  foldl Rplus a l = (a + foldl Rplus 0 l)%R.
Proof.
  revert a. induction l as [|x l IH]; intros a; simpl.
  - lra.
  - rewrite IH, (IH (0 + x)%R). lra.
Qed.

(** ** The forward pass of a DNN *)

Section ActivationsFacts.
Context {T : Type} `{Arith T} `{Activation T}.

Lemma activation_S (transforms : list (FeatureTransform T)) fin i t :
  transforms !! i = Some t →
  activation transforms fin (S i)
  = FeatureTransform_feedForward t (activation transforms fin i).
Proof.
  intros Ht. unfold activation. by rewrite (take_S_r _ _ _ Ht), foldl_snoc.
Qed.

(** The loop of [DNN::feedForward]. *)
Lemma DNN_feedForward_loop (transforms : list (FeatureTransform T)) fin O k :
  k ≤ length transforms → length O = length transforms + 1 →
  ∃ O',
    for_ k
      (λ i O, <[i + 1 := FeatureTransform_feedForward (transforms !!! i) (O !!! i)]> O)
      (<[0 := fin]> O)
    = O'
    ∧ length O' = length O
    ∧ ∀ i, i ≤ k → O' !! i = Some (activation transforms fin i).
Proof.
  intros Hk Hlen. induction k as [|k IH].
  - exists (<[0 := fin]> O). split; [reflexivity|]. split; [by rewrite length_insert|].
    intros i Hi. assert (i = 0) as -> by lia.
    rewrite list_lookup_insert_eq by lia. done.
  - destruct IH as (O1 & Hloop & Hlen1 & Hact); [lia|].
    rewrite for_S, Hloop. eexists. split; [reflexivity|].
    split; [by rewrite length_insert|].
    intros i Hi. destruct (decide (i = k + 1)) as [->|Hne].
    + rewrite list_lookup_insert_eq by lia. f_equal.
      destruct (lookup_lt_is_Some_2 transforms k) as [t Ht]; [lia|].
      rewrite (list_lookup_total_correct transforms k _ Ht).
      rewrite (list_lookup_total_correct O1 k _ (Hact k ltac:(lia))).
      replace (k + 1) with (S k) by lia. by rewrite (activation_S _ _ _ _ Ht).
    + rewrite list_lookup_insert_ne by lia. apply Hact. lia.
Qed.

(** [DNN::predict]: the input pushed through all layers, without the last
    column. *)
Lemma DNN_predict_eq (transforms : list (FeatureTransform T)) (fin : mat T) :
  DNN_predict transforms fin
  = drop_last_column (foldl (λ x t, FeatureTransform_feedForward t x) fin transforms).
Proof.
  unfold DNN_predict, DNN_feedForward.
  destruct (DNN_feedForward_loop transforms fin
              (replicate (length transforms + 1) inhabitant) (length transforms))
    as (O' & Hloop & Hlen' & Hact); [done|by rewrite length_replicate|].
  rewrite Hloop. rewrite length_replicate in Hlen'.
  rewrite length_alter, Hlen'.
  replace (length transforms + 1 - 1) with (length transforms) by lia.
  apply list_lookup_total_correct.
  rewrite list_lookup_alter_eq, Hact by done. simpl.
  unfold activation. by rewrite firstn_all.
Qed.

(** A layer gives one row per sample. *)
Lemma getRows_feedForward (t : FeatureTransform T) (x : mat T) :
  getRows (FeatureTransform_feedForward t x) = getRows x.
Proof. unfold FeatureTransform_feedForward. by destruct (ft_type t). Qed.

Lemma getRows_foldl_feedForward (ts : list (FeatureTransform T)) (x : mat T) :
  getRows (foldl (λ x t, FeatureTransform_feedForward t x) x ts) = getRows x.
Proof.
  revert x. induction ts as [|t ts IH]; intros x; [done|].
  simpl. by rewrite IH, getRows_feedForward.
Qed.

(** The leading columns of a matrix given entry by entry. *)
Lemma take_build m n n' (f : nat → nat → T) :
  n' ≤ n → take (m * n') (getData (build m n f)) = getData (build m n' f).
Proof.
  intros Hn. unfold build. cbn [getData].
  replace n with (n' + (n - n')) by lia.
  rewrite seq_app, bind_app. apply take_app_length'.
  rewrite (length_bind_blocks _ _ m).
  - rewrite length_seq. lia.
  - apply Forall_forall. intros c _. by rewrite length_fmap, length_seq.
Qed.

(** The output of a last layer, once its last column is dropped: the
    entries of the leading columns. *)
Lemma drop_last_column_fill m n (f : nat → nat → T) (v : T) :
  1 ≤ n →
  drop_last_column (fillLastColumnWith (build m n f) v) = build m (n - 1) f.
Proof.
  intros Hn. unfold drop_last_column, fillLastColumnWith, mat_resize, mat_size.
  change (getRows (build m n f)) with m. change (getCols (build m n f)) with n.
  cbn [getRows getCols getData].
  transitivity (Mat m (n - 1) (getData (build m (n - 1) f))); [|reflexivity].
  f_equal.
  replace (m * n - m) with (m * (n - 1)) by nia.
  rewrite take_build by lia.
  rewrite resize_app_le.
  - pose proof (wf_build m (n - 1) f) as Hwf. unfold wf, mat_size in Hwf.
    cbn [getRows getCols] in Hwf. rewrite <- Hwf at 1. by rewrite resize_all.
  - pose proof (wf_build m (n - 1) f) as Hwf. unfold wf, mat_size in Hwf.
    cbn [getRows getCols] in Hwf. by rewrite Hwf.
Qed.
End ActivationsFacts.

(** ** The Softmax layer *)

Section SoftmaxFacts.
Local Open Scope R_scope.

Lemma fsum_cons (x : R) (l : list R) : fsum (x :: l) = x + fsum l.
Proof. unfold fsum. cbn [foldl fadd fzero R_Arith]. rewrite foldl_Rplus. lra. Qed.

Lemma fsum_div (d : R) (l : list R) : fsum ((λ x, x / d) <$> l) = fsum l / d.
Proof.
  induction l as [|x l IH].
  - unfold fsum. cbn. lra.
  - cbn [fmap list_fmap]. change (list_fmap _ _ ?f ?l) with (f <$> l).
    rewrite !fsum_cons, IH. lra.
Qed.

Lemma fsum_pos (l : list R) : l ≠ [] → Forall (λ x, 0 < x) l → 0 < fsum l.
Proof.
  intros Hne Hpos. destruct l as [|x l]; [done|]. clear Hne.
  apply Forall_cons_1 in Hpos as [Hx Hl]. rewrite fsum_cons.
  assert (0 <= fsum l); [|lra].
  induction Hl as [|y l Hy _ IH]; [unfold fsum; cbn; lra|].
  rewrite fsum_cons. lra.
Qed.

(** The outputs of a Softmax layer at the end of a DNN: positive, and
    those of one sample sum to 1. *)
Lemma softmax_rows_normalised (z : mat R) (r : nat) :
  (2 ≤ getCols z)%nat → (r < getRows z)%nat →
  let out := drop_last_column (fillLastColumnWith (softmax_rows z) 1) in
  getRows out = getRows z ∧ getCols out = (getCols z - 1)%nat
  ∧ (∀ c, (c < getCols out)%nat → 0 < get out r c)
  ∧ row_sum out r = 1.
Proof.
  intros Hc Hr out.
  set (S := fsum ((λ c', exp (get z r c')) <$> seq 0 (getCols z - 1))).
  assert (0 < S) as HS.
  { apply fsum_pos.
    - destruct (getCols z - 1)%nat eqn:E; [lia|done].
    - apply Forall_fmap, Forall_forall. intros c _. apply exp_pos. }
  assert (out = build (getRows z) (getCols z - 1)
                  (λ r c, exp (get z r c)
                          / fsum ((λ c', exp (get z r c')) <$> seq 0 (getCols z - 1))))
    as ->.
  { unfold out, softmax_rows. by rewrite drop_last_column_fill by lia. }
  split; [done|]. split; [done|]. split.
  - intros c Hc'. cbn [getCols build] in Hc'. rewrite get_build by done.
    fold S. apply Rdiv_lt_0_compat; [apply exp_pos|done].
  - unfold row_sum. cbn [getCols build].
    rewrite (list_fmap_ext _ (λ c, exp (get z r c) / S) (seq 0 (getCols z - 1))).
    2:{ intros i c Hi%lookup_seq. rewrite get_build by lia. reflexivity. }
    change (λ c, exp (get z r c) / S) with ((λ x, x / S) ∘ (λ c, exp (get z r c))).
    rewrite (list_fmap_compose (λ c, exp (get z r c)) (λ x, x / S)), fsum_div.
    fold S. field. lra.
Qed.
End SoftmaxFacts.


(** The network of the scenario gives 1/2 for both outputs of each of the
    five samples. *)
Lemma DNN_342_output :
  DNN_predict dnn342 batch5 = Mat 5 2 (replicate 10 (1 / 2)%R).
Proof.
  assert (∀ x y : R, x = 0%R → y = 0%R → (exp x / (0 + exp x + exp y) = 1 / 2)%R) as Hhalf.
  { intros x y -> ->. rewrite exp_0. lra. }
  cbv -[Rplus Rmult Rminus Rdiv Rinv Ropp exp IZR INR Rlt_dec].
  f_equal. repeat (apply (f_equal2 cons); [apply Hhalf; ring|]). reflexivity.
Qed.



(** ** The sub-sampling layer *)

Section SubSampling.
Context {T : Type} `{Arith T}.

(** The loops of [SubSamplingLayer::feedBackward] in closed form. *)
Lemma SubSamplingLayer_feedBackward_eq (l : SubSamplingLayer) errors deltas :
  length errors = length deltas →
  SubSamplingLayer_feedBackward l errors deltas
  = (λ j, reshapeImages2Vectors
            ((λ k, mdiv_scalar
                     (upsample (reshapeVectors2Images (deltas !!! j) (ss_output_img_size l) !!! k)
                               (ss_input_img_size l))
                     (of_size (_scale l * _scale l)))
             <$> seq 0 (getCols (deltas !!! 0))))
    <$> seq 0 (length deltas).
Proof.
  intros Hlen. unfold SubSamplingLayer_feedBackward.
  rewrite Hlen, Nat.eqb_refl. simpl negb. cbv iota.
  rewrite for_insert_seq by done.
  apply list_fmap_ext. intros i j Hj. apply lookup_seq in Hj as [-> Hj]. simpl.
  f_equal.
  rewrite (for_insert_seq (length deltas)) by apply length_replicate.
  erewrite for_ext.
  2:{ intros a s _. rewrite for_alter_cell, list_alter_alter_eq. reflexivity. }
  rewrite for_alter_replicate, lookup_total_fmap_seq by done. simpl.
  rewrite resize_nil, for_alter_replicate.
  apply list_fmap_ext. intros i' k Hk. apply lookup_seq in Hk as [-> Hk]. simpl.
  by rewrite lookup_total_fmap_seq.
Qed.
End SubSampling.

Section SubSamplingSpec.
Context {T : Type} `{Arith T}.

(** C3: for every sub-sampling layer with scale s > 0 on images of s h rows
    and s w columns, and error maps that are batches of h x w deltas,
    backPropagate returns the layer unchanged and replaces every error map
    by a batch of s h x s w images in which pixel (r, c) holds the delta of
    the pooled block it lies in, (r / s, c / s), divided by s * s. *)
Theorem SubSamplingLayer_backPropagate_spec
    (l : SubSamplingLayer) (errors fins fouts : list (mat T)) (lr : T)
    (h w batch : nat) :
  0 < _scale l → 0 < batch →
  ss_input_img_size l = mkSIZE (_scale l * h) (_scale l * w) →
  Forall (λ e, getRows e = h * w ∧ getCols e = batch ∧ wf e) errors →
  ∃ errors',
    SubSamplingLayer_backPropagate l errors fins fouts lr = (l, errors')
    ∧ length errors' = length errors
    ∧ ∀ i e, errors !! i = Some e →
        ∃ e', errors' !! i = Some e'
          ∧ getRows e' = (_scale l * h) * (_scale l * w)
          ∧ getCols e' = batch
          ∧ wf e'
          ∧ ∀ r c k, r < _scale l * h → c < _scale l * w → k < batch →
              get e' (c * (_scale l * h) + r) k
              = fdiv (get e ((c / _scale l) * h + r / _scale l) k)
                     (of_size (_scale l * _scale l)).
Proof.
  intros Hs Hb Hin Herr. unfold SubSamplingLayer_backPropagate.
  rewrite SubSamplingLayer_feedBackward_eq by done.
  eexists; split; [reflexivity|]. split; [by rewrite length_fmap, length_seq|].
  intros i e Hi.
  assert (i < length errors) as Hilt by (by eapply lookup_lt_Some).
  rewrite list_lookup_fmap, lookup_seq_lt by done. simpl.
  rewrite (list_lookup_total_correct _ _ _ Hi).
  assert (getCols (errors !!! 0) = batch) as ->.
  { destruct errors as [|e0 errors]; [done|]. simpl.
    by apply Forall_cons_1 in Herr as [(_ & ? & _) _]. }
  rewrite Forall_forall in Herr.
  destruct (Herr e) as (Hrows & Hcols & Hwf); [by eapply list_elem_of_lookup_2|].
  set (s := _scale l) in *.
  set (out := ss_output_img_size l).
  assert (out = mkSIZE h w) as Hout.
  { unfold out, ss_output_img_size. rewrite Hin; simpl. fold s.
    by rewrite !(Nat.mul_comm s), !Nat.div_mul by lia. }
  set (imgs := (λ k, mdiv_scalar (upsample (reshapeVectors2Images e out !!! k)
                                    (ss_input_img_size l)) (of_size (s * s)))
               <$> seq 0 batch).
  assert (Forall (λ img, mat_size img = (s * h) * (s * w) ∧ wf img) imgs) as Himgs.
  { apply Forall_fmap, Forall_forall. intros k _. simpl. split.
    - unfold mat_size; simpl. by rewrite Hin.
    - apply wf_transform, wf_build. }
  destruct (wf_reshapeImages2Vectors imgs _ Himgs) as (Hr' & Hc' & Hwf').
  { unfold imgs. rewrite length_fmap, length_seq. done. }
  eexists; split; [reflexivity|]. split_and!; [done| |done|].
  { rewrite Hc'. unfold imgs. by rewrite length_fmap, length_seq. }
  intros r c k Hr Hc Hk.
  assert (0 < h ∧ 0 < w) as [Hh Hw] by (split; nia).
  set (IMG := mdiv_scalar (upsample (reshapeVectors2Images e out !!! k)
                             (ss_input_img_size l)) (of_size (s * s))).
  rewrite (get_reshapeImages2Vectors imgs ((s * h) * (s * w)) k IMG); [|done| |nia].
  2:{ unfold imgs. by rewrite list_lookup_fmap, lookup_seq_lt. }
  assert ((getData IMG : list T) !!! (c * (s * h) + r) = get IMG r c) as ->.
  { unfold get, IMG. simpl. by rewrite Hin. }
  unfold IMG.
  unfold mdiv_scalar. rewrite get_transform.
  2:{ apply wf_build. }
  2,3: simpl; rewrite Hin; simpl; done.
  f_equal. unfold upsample. rewrite Hin. cbn [size_m size_n].
  rewrite get_build by done.
  assert (getRows (reshapeVectors2Images e out !!! k) = h
          ∧ getCols (reshapeVectors2Images e out !!! k) = w) as [-> ->].
  { rewrite lookup_total_reshapeVectors2Images by lia. by rewrite Hout. }
  rewrite !Nat.div_mul by lia.
  rewrite get_reshapeVectors2Images.
  - by rewrite Hout.
  - lia.
  - rewrite Hout; simpl. apply Nat.Div0.div_lt_upper_bound. lia.
  - rewrite Hout; simpl. apply Nat.Div0.div_lt_upper_bound. lia.
Qed.
End SubSamplingSpec.

(** ** The convolutional layer: forward *)

Section ConvForward.
Context {T : Type} `{Arith T} `{Activation T}.

Lemma for_reshape_inputs n (fins : list (mat T)) s :
  for_ n (λ i (iImgs : list (list (mat T))),
            <[i := reshapeVectors2Images (fins !!! i) s]> iImgs)
    (replicate n [])
  = (λ i, reshapeVectors2Images (fins !!! i) s) <$> seq 0 n.
Proof. apply for_insert_seq, length_replicate. Qed.

(** The allocation loops: [rows] vectors of [cols] copies of [z]. *)
Lemma for_alloc rows cols (z : mat T) :
  for_ rows
    (λ j (oImgs : list (list (mat T))),
       for_ cols (λ k, alter (alter (λ _, z) k) j)
         (alter (resize cols inhabitant) j oImgs))
    (replicate rows [])
  = replicate rows (replicate cols z).
Proof.
  erewrite for_ext.
  2:{ intros j s _. rewrite for_alter_cell, list_alter_alter_eq. reflexivity. }
  rewrite for_alter_replicate. apply list_eq. intros j.
  rewrite list_lookup_fmap.
  destruct (decide (j < rows)) as [Hj|Hj].
  - rewrite lookup_seq_lt, lookup_replicate_2 by done. simpl.
    rewrite resize_nil, for_alter_replicate. f_equal.
    apply list_eq. intros k. rewrite list_lookup_fmap.
    destruct (decide (k < cols)).
    + by rewrite lookup_seq_lt, lookup_replicate_2.
    + rewrite lookup_seq_ge by lia. symmetry. apply lookup_replicate_None. lia.
  - rewrite lookup_seq_ge by lia. symmetry. apply lookup_replicate_None. lia.
Qed.

(** [ConvolutionalLayer::feedForward], its loops resolved. *)
Lemma ConvolutionalLayer_feedForward_eq (l : ConvolutionalLayer T) fouts fins :
  length fins = conv_n l →
  ConvolutionalLayer_feedForward l fouts fins = Ok (forward_maps l fins).
Proof.
  intros Hlen. unfold ConvolutionalLayer_feedForward.
  change (λ x h : mat T, convn x h VALID_SHM) with (@xcorr2_valid T _).
  cbv beta iota delta [convn].
  rewrite Hlen, Nat.eqb_refl. simpl negb. cbv iota. f_equal.
  rewrite for_insert_seq.
  2:{ destruct (length fouts =? conv_m l) eqn:E; simpl.
      - by apply Nat.eqb_eq. - apply length_resize. }
  unfold forward_maps. apply list_fmap_ext. intros ? j Hj.
  apply lookup_seq in Hj as [-> Hj]. simpl. f_equal.
  rewrite for_alloc, for_reshape_inputs.
  set (s := conv_output_img_size l).
  set (batch := getCols (fins !!! 0)).
  erewrite (for_ext batch).
  2:{ intros k s' _. erewrite for_ext.
      2:{ intros j' s'' _.
          erewrite (for_ext (conv_n l)).
          2:{ intros i0 s3 Hi. rewrite lookup_total_fmap_seq by done. reflexivity. }
          rewrite for_alter_cell, list_alter_alter_eq.
          erewrite list_alter_ext; [reflexivity| |reflexivity].
          intros row _. simpl. rewrite for_alter_cell, list_alter_alter_eq.
          reflexivity. }
      reflexivity. }
  apply list_lookup_total_correct.
  etrans.
  { apply (lookup_for_cols_rows (conv_m l) batch
             (λ j k o, ext_sigmoid (madd_scalar
                (for_ (conv_n l) (λ i acc, madd acc
                   (xcorr2_valid (reshapeVectors2Images (fins !!! i)
                                    (conv_input_img_size l) !!! k)
                                 ((_kernels l !!! i) !!! j))) o)
                (_bias l !!! j)))). }
  rewrite decide_True by done. rewrite lookup_replicate_2 by done. simpl.
  f_equal. apply for_alter_replicate.
Qed.
End ConvForward.

(** ** The convolutional layer: backward *)

Section ConvBackward.
Context {T : Type} `{Arith T} `{Activation T}.

Lemma for_deltas n (fouts errors : list (mat T)) :
  for_ n
    (λ j deltas,
       <[j := mat_and (mat_and (fouts !!! j) (scalar_msub fone (fouts !!! j)))
                      (errors !!! j)]> deltas)
    (replicate n inhabitant)
  = deltas_of fouts errors n.
Proof. apply for_insert_seq, length_replicate. Qed.

(** The two [assert]s of [operator &] pass exactly when the error has the
    shape of the output. *)
Lemma local_delta_checked_eq (fout error : mat T) :
  local_delta_checked fout error
  = if (getRows fout =? getRows error) && (getCols fout =? getCols error)
    then Ok (local_delta fout error) else AssertFail.
Proof.
  unfold local_delta_checked, operator_and. cbn [scalar_msub transform getRows getCols].
  rewrite !Nat.eqb_refl. cbn [andb negb mat_and transform2 getRows getCols].
  by destruct (_ && _).
Qed.

(** The loop that forms the deltas stops at the first failed [assert]. *)
Lemma for_deltas_checked n (fouts errors init : list (mat T)) :
  for_ n
    (λ j (deltas : result (list (mat T))),
       match deltas with
       | Ok deltas =>
           match local_delta_checked (fouts !!! j) (errors !!! j) with
           | Ok d => Ok (<[j := d]> deltas)
           | Throw msg => Throw msg
           | AssertFail => AssertFail
           end
       | failed => failed
       end)
    (Ok init)
  = if delta_shapes_ok fouts errors n
    then Ok (for_ n (λ j deltas,
                       <[j := local_delta (fouts !!! j) (errors !!! j)]> deltas) init)
    else AssertFail.
Proof.
  induction n as [|n IH]; [done|].
  rewrite !for_S, IH. unfold delta_shapes_ok.
  rewrite seq_S, forallb_app. cbn [forallb plus]. rewrite andb_true_r.
  fold (delta_shapes_ok fouts errors n).
  destruct (delta_shapes_ok fouts errors n); [|done].
  rewrite local_delta_checked_eq. cbn [andb]. by destruct (_ && _).
Qed.

(** [ConvolutionalLayer::feedBackward], its loops resolved. *)
Lemma ConvolutionalLayer_feedBackward_eq (l : ConvolutionalLayer T) errors deltas :
  ConvolutionalLayer_feedBackward l errors deltas = backward_maps l deltas.
Proof.
  unfold ConvolutionalLayer_feedBackward. cbv beta iota delta [convn].
  rewrite for_insert_seq.
  2:{ destruct (length errors =? conv_n l) eqn:E; simpl.
      - by apply Nat.eqb_eq. - apply length_resize. }
  unfold backward_maps. apply list_fmap_ext. intros ? i Hi.
  apply lookup_seq in Hi as [-> Hi]. simpl. f_equal.
  rewrite for_reshape_inputs.
  set (batch := getCols (deltas !!! 0)).
  assert (for_ (conv_n l) (λ i, alter (resize batch (Mat 0 0 [] : mat T)) i)
            (replicate (conv_n l) [])
          = (λ _, resize batch (Mat 0 0 []) []) <$> seq 0 (conv_n l)) as ->
    by apply (for_alter_replicate (conv_n l) (λ _, resize batch (Mat 0 0 []))).
  erewrite (for_ext batch).
  2:{ intros k s' _. erewrite for_ext.
      2:{ intros i' s'' _.
          erewrite (for_ext (conv_m l)).
          2:{ intros j s3 Hj. rewrite lookup_total_fmap_seq by done. reflexivity. }
          rewrite for_alter_cell, list_alter_alter_eq.
          erewrite list_alter_ext; [reflexivity| |reflexivity].
          intros row _. simpl. rewrite for_alter_cell, list_alter_alter_eq.
          reflexivity. }
      reflexivity. }
  apply list_lookup_total_correct.
  etrans.
  { apply (lookup_for_cols_rows (conv_n l) batch
             (λ i k _, backward_image l deltas i k)). }
  rewrite decide_True by done.
  rewrite list_lookup_fmap, lookup_seq_lt by done. simpl. f_equal.
  rewrite resize_nil. apply for_alter_replicate.
Qed.
End ConvBackward.

Section ConvBackwardSpec.
Context {T : Type} `{Arith T} `{Activation T}.

Lemma for_update_pair (l : ConvolutionalLayer T) iImgs oImgs lr batch K b :
  for_ batch (λ k,
    for_ (conv_m l) (λ j '(kernels, bias),
      let kernels :=
        for_ (conv_n l) (λ i,
          alter (alter (λ K, msub K
            (mmul_scalar (convn (rot180 ((iImgs !!! i) !!! k)) ((oImgs !!! j) !!! k) VALID)
                         lr)) j) i)
          kernels in
      (kernels,
       alter (λ b, fsub b (fmul (sum_all ((oImgs !!! j) !!! k)) lr)) j bias)))
    (K, b)
  = (for_ batch (kernel_step l iImgs oImgs lr) K,
     for_ batch (bias_step l oImgs lr) b).
Proof.
  rewrite <- for_pair. apply for_ext. intros k [K' b'] _.
  unfold kernel_step, bias_step. rewrite <- for_pair.
  apply for_ext. intros j [K'' b''] _. reflexivity.
Qed.

Lemma lookup_kernel_step (l : ConvolutionalLayer T) iImgs oImgs lr k kernels i :
  i < conv_n l →
  kernel_step l iImgs oImgs lr k kernels !! i
  = for_ (conv_m l) (λ j, alter (λ K, msub K
      (mmul_scalar (convn (rot180 ((iImgs !!! i) !!! k)) ((oImgs !!! j) !!! k) VALID)
                   lr)) j)
    <$> kernels !! i.
Proof.
  intros Hi. unfold kernel_step.
  etrans.
  { apply (lookup_for_cols_rows (conv_n l) (conv_m l)
             (λ i j K, msub K (mmul_scalar
                (convn (rot180 ((iImgs !!! i) !!! k)) ((oImgs !!! j) !!! k) VALID) lr))). }
  by rewrite decide_True.
Qed.
End ConvBackwardSpec.

Section ConvBackwardThm.
Context {T : Type} `{Arith T} `{Activation T}.

(** [ConvolutionalLayer::backPropagate] once the [assert]s have passed. *)
Lemma ConvolutionalLayer_backPropagate_eq
    (l : ConvolutionalLayer T) (errors fins fouts : list (mat T)) (learning_rate : T) :
  ConvolutionalLayer_backPropagate l errors fins fouts learning_rate
  = if delta_shapes_ok fouts errors (conv_m l) && fltb fzero learning_rate
    then
      let deltas := deltas_of fouts errors (conv_m l) in
      let batch_size := getCols (fins !!! 0) in
      let lr := fdiv learning_rate (of_size batch_size) in
      let iImgs := (λ i, reshapeVectors2Images (fins !!! i) (conv_input_img_size l))
                   <$> seq 0 (conv_n l) in
      let oImgs := (λ i, reshapeVectors2Images (deltas !!! i) (conv_output_img_size l))
                   <$> seq 0 (conv_m l) in
      Ok (mkConv (conv_n l) (conv_m l) (conv_input_img_size l)
            (for_ batch_size (kernel_step l iImgs oImgs lr) (_kernels l))
            (for_ batch_size (bias_step l oImgs lr) (_bias l)),
          backward_maps l deltas)
    else AssertFail.
Proof.
  unfold ConvolutionalLayer_backPropagate. rewrite for_deltas_checked.
  destruct (delta_shapes_ok fouts errors (conv_m l)); [|done]. cbn [andb].
  destruct (fltb fzero learning_rate); [|done]. cbn [negb]. cbv zeta.
  unfold local_delta. rewrite (for_deltas (conv_m l) fouts errors).
  rewrite ConvolutionalLayer_feedBackward_eq, !for_reshape_inputs.
  by rewrite for_update_pair.
Qed.

End ConvBackwardThm.

(** ** The layer descriptor *)

(** ** Strings *)

Lemma append_cons x (a b : string) : String x a +:+ b = String x (a +:+ b).
Proof. reflexivity. Qed.

Lemma append_nil_l (a : string) : "" +:+ a = a.
Proof. reflexivity. Qed.

Lemma append_char c (a : string) : String c "" +:+ a = String c a.
Proof. reflexivity. Qed.

Lemma append_assoc (a b c : string) : (a +:+ b) +:+ c = a +:+ (b +:+ c).
Proof.
  induction a as [|x a IH]; [done|]. by rewrite !append_cons, IH.
Qed.

Lemma append_nil_r (a : string) : a +:+ "" = a.
Proof. induction a as [|x a IH]; [done|]. by rewrite append_cons, IH. Qed.

Lemma contains_app c (a b : string) :
  contains c (a +:+ b) = contains c a || contains c b.
Proof.
  induction a as [|x a IH]; [done|]. rewrite append_cons. simpl.
  rewrite IH. by rewrite orb_assoc.
Qed.

Lemma contains_digits c (d : string) :
  is_digit c = false → all_digits d = true → contains c d = false.
Proof.
  intros Hc. induction d as [|x d IH]; simpl; [done|].
  intros [Hx Hd]%andb_true_iff. rewrite IH by done.
  destruct (Ascii.eqb_spec x c) as [->|]; [congruence|done].
Qed.

(** Splitting at a delimiter that the first field does not contain. *)
Lemma split_from_field cur (d rest : string) delim :
  contains delim d = false →
  split_from cur (d +:+ String delim rest) delim
  = (cur +:+ d) :: split_from "" rest delim.
Proof.
  revert cur. induction d as [|x d IH]; intros cur.
  - intros _. rewrite append_nil_l, append_nil_r. simpl.
    by rewrite Ascii.eqb_refl.
  - rewrite append_cons. simpl. intros [Hx Hd]%orb_false_iff.
    rewrite Hx, IH by done. by rewrite append_assoc.
Qed.

Lemma split_from_last cur (d : string) delim :
  contains delim d = false → cur +:+ d ≠ "" →
  split_from cur d delim = [cur +:+ d].
Proof.
  revert cur. induction d as [|x d IH]; intros cur; simpl.
  - intros _ Hne. rewrite append_nil_r in *.
    by rewrite (proj2 (String.eqb_neq _ _)).
  - intros [Hx Hd]%orb_false_iff Hne. rewrite Hx, IH; [|done|].
    + by rewrite append_assoc.
    + by rewrite append_assoc.
Qed.

Lemma is_number_inv (d : string) :
  is_number d = true → d ≠ "" ∧ all_digits d = true.
Proof.
  unfold is_number. intros [Hne Hd]%andb_true_iff. split; [|done].
  intros ->. done.
Qed.

(** The fields of a token [a x b x c] of three numbers. *)
Lemma split_conv_token (a b c : string) :
  is_number a = true → is_number b = true → is_number c = true →
  split (a +:+ "x" +:+ b +:+ "x" +:+ c) "x" = [a; b; c].
Proof.
  intros [_ Ha]%is_number_inv [_ Hb]%is_number_inv [Hc0 Hc]%is_number_inv.
  unfold split. rewrite !append_char.
  rewrite split_from_field by (by apply contains_digits).
  rewrite split_from_field by (by apply contains_digits).
  rewrite split_from_last; [done|by apply contains_digits|done].
Qed.

Lemma contains_conv_token (a b c : string) :
  is_number a = true → is_number b = true → is_number c = true →
  contains "s" (a +:+ "x" +:+ b +:+ "x" +:+ c) = false
  ∧ contains "x" (a +:+ "x" +:+ b +:+ "x" +:+ c) = true.
Proof.
  intros [_ Ha]%is_number_inv [_ Hb]%is_number_inv [_ Hc]%is_number_inv.
  rewrite !contains_app. simpl.
  rewrite !(contains_digits "s") by done.
  split; [done|]. by rewrite !orb_true_r.
Qed.

(** ** The constructor of a convolutional layer *)

(** A loop that threads a counter advanced by [step] in every iteration. *)
Lemma for_counter {S} n step (f : nat → nat → S → S) (s0 : S) (c0 : nat) :
  for_ n (λ i '(s, c), (f i c s, c + step)) (s0, c0)
  = (for_ n (λ i, f i (c0 + i * step)) s0, c0 + n * step).
Proof.
  induction n as [|n IH].
  - rewrite !for_0. f_equal. lia.
  - rewrite !for_S, IH. f_equal. lia.
Qed.

Section ConvNew.
Context {T : Type} `{Arith T}.
Variable load : string → mat T.

Lemma ConvolutionalLayer_new_eq counter n m (h w : nat) :
  0 < n → 0 < m → 0 < h → 0 < w →
  ConvolutionalLayer_new load counter n m (Z.of_nat h) (Z.of_nat w)
  = Ok (mkConv n m (mkSIZE 0 0)
          ((λ i, (λ j, load (kernel_file counter m i j)) <$> seq 0 m) <$> seq 0 n)
          (replicate m fzero),
        counter + n * m,
        printed_line n m (Z.of_nat h) (Z.of_nat w)).
Proof.
  intros Hn Hm Hh Hw. unfold ConvolutionalLayer_new.
  replace (Z.of_nat w =? -1)%Z with false by (symmetry; apply Z.eqb_neq; lia).
  replace ((0 <? n) && (0 <? m) && (0 <? Z.of_nat h)%Z && (0 <? Z.of_nat w)%Z)
    with true.
  2:{ symmetry. rewrite !andb_true_iff, !Nat.ltb_lt, !Z.ltb_lt. lia. }
  simpl negb. cbv iota.
  rewrite (for_ext n _
    (λ i '(kernels, counter),
       (alter (λ _, (λ j, load ("k" +:+ to_string (S (counter + j)) +:+ ".mat"))
                     <$> seq 0 m) i kernels,
        counter + m))).
  2:{ intros i [kernels c] _.
      rewrite (for_ext m _
        (λ j '(kernels, counter),
           (alter (λ row, <[j := load ("k" +:+ to_string (S counter) +:+ ".mat")]> row)
              i kernels, counter + 1))).
      2:{ intros j [k' c'] _. by rewrite Nat.add_1_r. }
      rewrite (for_counter m 1
        (λ j c (kernels : list (list (mat T))),
           alter (λ row, <[j := load ("k" +:+ to_string (S c) +:+ ".mat")]> row) i kernels)).
      f_equal; [|lia].
      rewrite for_alter_cell, list_alter_alter_eq.
      apply list_alter_ext; [|done]. intros row _. simpl.
      rewrite for_insert_seq by apply length_resize.
      apply list_fmap_ext. intros ? j _. by rewrite Nat.mul_1_r. }
  rewrite (for_counter n m
    (λ i c (kernels : list (list (mat T))),
       alter (λ _, (λ j, load ("k" +:+ to_string (S (c + j)) +:+ ".mat")) <$> seq 0 m)
         i kernels)).
  rewrite for_alter_replicate, for_insert_seq by apply length_replicate.
  unfold printed_line. do 3 f_equal. f_equal.
  apply list_eq. intros j. rewrite list_lookup_fmap.
  destruct (decide (j < m)).
  - by rewrite lookup_seq_lt, lookup_replicate_2.
  - rewrite lookup_seq_ge by lia. symmetry. apply lookup_replicate_None. lia.
Qed.
End ConvNew.

Lemma size_to_int_small n : (Z.of_nat n < 2 ^ 31)%Z → size_to_int n = Z.of_nat n.
Proof.
  intros Hn. unfold size_to_int.
  change (2 ^ 31)%Z with 2147483648%Z in *. change (2 ^ 32)%Z with 4294967296%Z.
  rewrite Z.mod_small by lia.
  by rewrite (proj2 (Z.ltb_lt _ _)).
Qed.

Section InitThm.
Context {T : Type} `{Arith T}.
Variable load : string → mat T.

(** The constructor either fails its [assert] or builds the layer. *)
Lemma ConvolutionalLayer_new_cases counter n m (h w : Z) :
  let w' := if (w =? -1)%Z then h else w in
  ConvolutionalLayer_new load counter n m h w
  = if (0 <? n) && (0 <? m) && (0 <? h)%Z && (0 <? w')%Z
    then Ok (mkConv n m (mkSIZE 0 0)
               ((λ i, (λ j, load (kernel_file counter m i j)) <$> seq 0 m) <$> seq 0 n)
               (replicate m fzero),
             counter + n * m,
             printed_line n m h w')
    else AssertFail.
Proof.
  assert (ConvolutionalLayer_new load counter n m h w
          = ConvolutionalLayer_new load counter n m h (if (w =? -1)%Z then h else w)
          ∨ (h ≤ 0)%Z) as Hsq.
  { destruct (Z.eqb_spec w (-1)) as [Hw|Hne]; [|by left].
    destruct (Z.le_gt_cases h 0) as [Hle|Hgt]; [by right|left]. rewrite Hw.
    unfold ConvolutionalLayer_new. change (-1 =? -1)%Z with true. cbv iota.
    by replace (h =? -1)%Z with false by (symmetry; apply Z.eqb_neq; lia). }
  intros w'. fold w' in Hsq.
  destruct ((0 <? n) && (0 <? m) && (0 <? h)%Z && (0 <? w')%Z) eqn:E.
  - apply andb_true_iff in E as [[[Hn Hm]%andb_true_iff Hh]%andb_true_iff Hw].
    apply Nat.ltb_lt in Hn, Hm. apply Z.ltb_lt in Hh, Hw.
    destruct Hsq as [->|?]; [|lia].
    rewrite <- (Z2Nat.id h), <- (Z2Nat.id w') by lia.
    apply ConvolutionalLayer_new_eq; lia.
  - unfold ConvolutionalLayer_new. fold w'. by rewrite E.
Qed.

(** One iteration of the loop of [CNN::init] on a token of three
    numbers. *)
Lemma CNN_init_layer_conv (a b c : string) (st : init_state T) :
  is_number a = true → is_number b = true → is_number c = true →
  CNN_init_layer load (a +:+ "x" +:+ b +:+ "x" +:+ c) st
  = match ConvolutionalLayer_new load (init_counter st) (init_nInputMaps st) (str2int a)
            (size_to_int (str2int c)) (size_to_int (str2int b)) with
    | Ok (l, counter, printed) =>
        let t := set_input_img_size (init_img_size st) (Conv l) in
        Ok (mkInit (init_transforms st ++ [t]) (get_output_img_size t) (str2int a)
              counter (init_stdout st +:+ printed))
    | Throw msg => Throw msg
    | AssertFail => AssertFail
    end.
Proof.
  intros Ha Hb Hc. unfold CNN_init_layer.
  destruct (contains_conv_token a b c Ha Hb Hc) as [-> ->].
  rewrite split_conv_token by done. by destruct st.
Qed.

(** C7 (as amended): for a token a x b x c of three positive numbers
    below 2^31, CNN::init calls the constructor of the convolutional layer
    with a output maps, height c and width b (the second number of the
    token is the kernel width, the third the height, as the line printed
    shows) and appends the layer, on the running number of input maps and
    image size. The kernels are those read from the kernel files. The next
    image size is the output size of the layer: (rows - kh + 1) x
    (cols - kw + 1) for the size kh x kw of its kernels, when they are not
    larger than the image; this is (rows - c + 1) x (cols - b + 1) when the
    kernel read has c rows and b columns. *)
Theorem CNN_init_convolutional_token (a b c : string) (st : init_state T) :
  is_number a = true → is_number b = true → is_number c = true →
  (0 < Z.of_nat (str2int a) < 2 ^ 31)%Z → (0 < Z.of_nat (str2int b) < 2 ^ 31)%Z →
  (0 < Z.of_nat (str2int c) < 2 ^ 31)%Z →
  0 < init_nInputMaps st →
  let tok := a +:+ "x" +:+ b +:+ "x" +:+ c in
  let nIn := init_nInputMaps st in
  let N := str2int a in
  let counter := init_counter st in
  let img := init_img_size st in
  let kernels :=
    (λ i, (λ j, load (kernel_file counter N i j)) <$> seq 0 N) <$> seq 0 nIn in
  let l := mkConv nIn N img kernels (replicate N fzero) in
  let printed :=
    printed_line nIn N (Z.of_nat (str2int c)) (Z.of_nat (str2int b)) in
  let kh := getRows (load (kernel_file counter N 0 0)) in
  let kw := getCols (load (kernel_file counter N 0 0)) in
  (* the constructor is called with height [c] and width [b] *)
  CNN_init_layer load tok st
  = match ConvolutionalLayer_new load counter nIn N
            (Z.of_nat (str2int c)) (Z.of_nat (str2int b)) with
    | Ok (l0, counter', printed) =>
        Ok (mkInit (init_transforms st ++ [set_input_img_size img (Conv l0)])
              (get_output_img_size (set_input_img_size img (Conv l0))) N
              counter' (init_stdout st +:+ printed))
    | Throw msg => Throw msg
    | AssertFail => AssertFail
    end
  ∧ CNN_init_layer load tok st
    = Ok (mkInit (init_transforms st ++ [Conv l]) (conv_output_img_size l)
            N (counter + nIn * N) (init_stdout st +:+ printed))
  ∧ getKernelHeight l = kh ∧ getKernelWidth l = kw
  ∧ (1 ≤ kh ≤ size_m img → 1 ≤ kw ≤ size_n img →
     Z.of_nat (size_m (conv_output_img_size l))
     = (Z.of_nat (size_m img) - Z.of_nat kh + 1)%Z
     ∧ Z.of_nat (size_n (conv_output_img_size l))
       = (Z.of_nat (size_n img) - Z.of_nat kw + 1)%Z)
  ∧ (kh = str2int c → kw = str2int b →
     str2int c ≤ size_m img → str2int b ≤ size_n img →
     Z.of_nat (size_m (conv_output_img_size l))
     = (Z.of_nat (size_m img) - Z.of_nat (str2int c) + 1)%Z
     ∧ Z.of_nat (size_n (conv_output_img_size l))
       = (Z.of_nat (size_n img) - Z.of_nat (str2int b) + 1)%Z).
Proof.
  intros Ha Hb Hc Na Nb Nc Hn tok nIn N counter img kernels l printed kh kw.
  assert (CNN_init_layer load tok st
          = match ConvolutionalLayer_new load counter nIn N
                    (Z.of_nat (str2int c)) (Z.of_nat (str2int b)) with
            | Ok (l0, counter', printed) =>
                Ok (mkInit (init_transforms st ++ [set_input_img_size img (Conv l0)])
                      (get_output_img_size (set_input_img_size img (Conv l0))) N
                      counter' (init_stdout st +:+ printed))
            | Throw msg => Throw msg
            | AssertFail => AssertFail
            end) as Hcall.
  { unfold tok. rewrite CNN_init_layer_conv by done.
    by rewrite !size_to_int_small by lia. }
  assert (getKernelHeight l = kh ∧ getKernelWidth l = kw) as [HkH HkW].
  { unfold getKernelHeight, getKernelWidth, l, kernels, kh, kw. cbn [_kernels].
    rewrite !lookup_total_fmap_seq; [done|lia..]. }
  assert (1 ≤ kh ≤ size_m img → 1 ≤ kw ≤ size_n img →
          Z.of_nat (size_m (conv_output_img_size l))
          = (Z.of_nat (size_m img) - Z.of_nat kh + 1)%Z
          ∧ Z.of_nat (size_n (conv_output_img_size l))
            = (Z.of_nat (size_n img) - Z.of_nat kw + 1)%Z) as Hsize.
  { intros Hh Hw. unfold conv_output_img_size. rewrite HkH, HkW.
    cbn [size_m size_n conv_input_img_size l]. lia. }
  split_and!; [exact Hcall| |exact HkH|exact HkW|exact Hsize|].
  - rewrite Hcall. unfold N, nIn.
    rewrite ConvolutionalLayer_new_eq by lia. reflexivity.
  - intros Hkh Hkw Hc' Hb'. rewrite <- Hkh, <- Hkw. apply Hsize; lia.
Qed.

(** A successful iteration appends one layer, which takes the running
    image size and number of maps and leaves its own output size and
    number of maps to the next iteration. *)
Lemma CNN_init_layer_ok tok (st st' : init_state T) :
  CNN_init_layer load tok st = Ok st' →
  ∃ t, init_transforms st' = init_transforms st ++ [t]
       ∧ get_input_img_size t = init_img_size st
       ∧ getNumInputMaps t = init_nInputMaps st
       ∧ init_img_size st' = get_output_img_size t
       ∧ init_nInputMaps st' = getNumOutputMaps t.
Proof.
  destruct st as [ts img nIn ctr out]. unfold CNN_init_layer.
  destruct (contains "s" tok).
  - intros [= <-]. eexists. split; [reflexivity|]. done.
  - destruct (contains "x" tok); [|done].
    unfold ConvolutionalLayer_new.
    destruct (negb _); [done|].
    destruct (for_ nIn _ _) as [kernels ctr'].
    intros [= <-]. eexists. split; [reflexivity|]. done.
Qed.

Lemma CNN_init_layer_throw tok (st : init_state T) msg :
  CNN_init_layer load tok st = Throw msg →
  contains "s" tok = false ∧ contains "x" tok = false ∧ msg = no_such_layer tok.
Proof.
  destruct st as [ts img nIn ctr out]. unfold CNN_init_layer.
  destruct (contains "s" tok); [done|].
  destruct (contains "x" tok); [|by intros [= <-]].
  unfold ConvolutionalLayer_new.
  destruct (negb _); [done|].
  destruct (for_ nIn _ _) as [kernels ctr']. done.
Qed.

(** What one iteration makes of its token. *)
Lemma CNN_init_layer_cases tok (st : init_state T) :
  0 < init_nInputMaps st →
  match CNN_init_layer load tok st with
  | Ok st' =>
      ∃ t, init_transforms st' = init_transforms st ++ [t]
           ∧ built_from load tok t ∧ 0 < init_nInputMaps st'
  | Throw msg =>
      contains "s" tok = false ∧ contains "x" tok = false ∧ msg = no_such_layer tok
  | AssertFail =>
      contains "s" tok = false ∧ contains "x" tok = true ∧ conv_token_refused tok
  end.
Proof.
  destruct st as [ts img nIn ctr out]. cbn [init_nInputMaps]. intros Hn.
  unfold CNN_init_layer, built_from, conv_token_refused.
  destruct (contains "s" tok).
  - eexists. split; [reflexivity|]. split; [|done].
    eexists. split; [reflexivity|]. done.
  - destruct (contains "x" tok); [|done]. cbv zeta.
    rewrite ConvolutionalLayer_new_cases. cbv zeta.
    set (N := str2int (split tok "x" !!! 0)).
    set (h := size_to_int (str2int (split tok "x" !!! 2))).
    set (w := size_to_int (str2int (split tok "x" !!! 1))).
    set (w' := if (w =? -1)%Z then h else w).
    destruct ((0 <? nIn) && (0 <? N) && (0 <? h)%Z && (0 <? w')%Z) eqn:E.
    + apply andb_true_iff in E as [[[_ HN%Nat.ltb_lt]%andb_true_iff _]%andb_true_iff _].
      eexists. split; [reflexivity|]. cbn [init_nInputMaps]. split; [|done].
      split; [done|]. eexists _, ctr. split; [reflexivity|].
      cbn [conv_m conv_n _kernels _bias]. done.
    + split; [done|]. split; [done|].
      rewrite !andb_false_iff, !Nat.ltb_ge, !Z.ltb_ge in E. lia.
Qed.

Lemma chained_snoc img nIn (ts : list (MIMOFeatureTransform T)) t :
  chained img nIn (ts ++ [t])
  ↔ chained img nIn ts
    ∧ get_input_img_size t
      = foldl (λ _ t, get_output_img_size t) img ts
    ∧ getNumInputMaps t = foldl (λ _ t, getNumOutputMaps t) nIn ts.
Proof.
  revert img nIn. induction ts as [|t' ts IH]; intros img nIn; simpl.
  - tauto.
  - rewrite IH. tauto.
Qed.
End InitThm.

Section InitLoop.
Context {T : Type} `{Arith T}.
Variable load : string → mat T.

Lemma no_such_layer_names tok :
  ∃ pre post, no_such_layer tok = pre +:+ tok +:+ post.
Proof.
  exists (String "027" "[31m[Error]" +:+ String "027" "[0m No such type of layer. "
          +:+ String "034" ""),
         (String "034" ". Only convolutional/sub-sampling layer are allowed").
  unfold no_such_layer. by rewrite !append_assoc.
Qed.

Lemma CNN_init_loop_spec (layers : list string) (st : init_state T) :
  ∃ new st' r,
    CNN_init_loop load layers st = (st', r)
    ∧ init_transforms st' = init_transforms st ++ new
    ∧ chained (init_img_size st) (init_nInputMaps st) new
    ∧ match r with
      | Ok _ => length new = length layers
      | Throw msg =>
          ∃ tok, layers !! length new = Some tok
                 ∧ contains "s" tok = false ∧ contains "x" tok = false
                 ∧ msg = no_such_layer tok
      | AssertFail => length new < length layers
      end.
Proof.
  revert st. induction layers as [|tok layers IH]; intros st.
  - exists [], st, (Ok ()). simpl. by rewrite app_nil_r.
  - simpl. destruct (CNN_init_layer load tok st) as [st1|msg|] eqn:Hstep.
    + destruct (CNN_init_layer_ok load tok st st1 Hstep)
        as (t & Hts & Hin & Hmaps & Hout & Hmaps').
      destruct (IH st1) as (new & st' & r & Hloop & Hts' & Hch & Hr).
      exists (t :: new), st', r. rewrite Hloop, Hts', Hts, <- app_assoc.
      split_and!; [done..| |].
      * simpl. by rewrite <- Hout, <- Hmaps'.
      * destruct r; simpl; [lia|done|lia].
    + destruct (CNN_init_layer_throw load tok st msg Hstep) as (Hs & Hx & ->).
      exists [], st, (Throw (no_such_layer tok)). rewrite app_nil_r.
      split_and!; [done..|]. by exists tok.
    + exists [], st, AssertFail. rewrite app_nil_r. split_and!; [done..|].
      simpl. lia.
Qed.

(** The loop token by token: the layers built, each from its token, and
    the token at which the loop ends. *)
Lemma CNN_init_loop_built (layers : list string) (st : init_state T) :
  0 < init_nInputMaps st →
  ∃ new st' r,
    CNN_init_loop load layers st = (st', r)
    ∧ init_transforms st' = init_transforms st ++ new
    ∧ Forall2 (built_from load) (take (length new) layers) new
    ∧ match r with
      | Ok _ => length new = length layers
      | Throw msg =>
          ∃ tok, layers !! length new = Some tok
                 ∧ contains "s" tok = false ∧ contains "x" tok = false
                 ∧ msg = no_such_layer tok
      | AssertFail =>
          ∃ tok, layers !! length new = Some tok
                 ∧ contains "s" tok = false ∧ contains "x" tok = true
                 ∧ conv_token_refused tok
      end.
Proof.
  revert st. induction layers as [|tok layers IH]; intros st Hn.
  - exists [], st, (Ok ()). simpl. rewrite app_nil_r. split_and!; [done..|constructor|done].
  - simpl. pose proof (CNN_init_layer_cases load tok st Hn) as Hstep.
    destruct (CNN_init_layer load tok st) as [st1|msg|].
    + destruct Hstep as (t & Hts & Hbuilt & Hn1).
      destruct (IH st1 Hn1) as (new & st' & r & Hloop & Hts' & Hall & Hr).
      exists (t :: new), st', r. rewrite Hloop, Hts', Hts, <- app_assoc.
      split_and!; [done..| |].
      * simpl. by constructor.
      * destruct r; simpl; [lia|done|done].
    + destruct Hstep as (Hs & Hx & ->).
      exists [], st, (Throw (no_such_layer tok)). rewrite app_nil_r.
      split_and!; [done..|constructor|]. by exists tok.
    + destruct Hstep as (Hs & Hx & Hbad).
      exists [], st, AssertFail. rewrite app_nil_r.
      split_and!; [done..|constructor|]. by exists tok.
Qed.

End InitLoop.


(** One iteration on the tokens 2x3x5 and 2x5x3, whatever the kernel
    files hold. *)
Lemma CNN_init_layer_2x3x5 (load : string → mat Q) :
  CNN_init_layer load "2x3x5" st0
  = Ok (mkInit
          [Conv (mkConv 1 2 (mkSIZE 10 10) [[load "k1.mat"; load "k2.mat"]] [0; 0]%Q)]
          (mkSIZE (10 - (getRows (load "k1.mat") - 1))
                  (10 - (getCols (load "k1.mat") - 1)))
          2 2 ("Initializing 1 x 2 kernels of size 5 x 3" +:+ nl))
  ∧ CNN_init_layer load "2x5x3" st0
    = Ok (mkInit
            [Conv (mkConv 1 2 (mkSIZE 10 10) [[load "k1.mat"; load "k2.mat"]] [0; 0]%Q)]
            (mkSIZE (10 - (getRows (load "k1.mat") - 1))
                    (10 - (getCols (load "k1.mat") - 1)))
            2 2 ("Initializing 1 x 2 kernels of size 3 x 5" +:+ nl)).
Proof. split; reflexivity. Qed.

(** The token 2x3x5 does not give kernels of height 3 and width 5. The
    constructor is asked for kernels of height 5 and width 3, as the line
    it prints says, whatever the kernel files hold; and the kernels it
    reads do not depend on the numbers of the token, so that no kernel
    store makes the claim true of both 2x3x5 and 2x5x3. With kernel files
    of the size asked for, 5 x 3, the next image is 6 x 8 and not 8 x 6. *)
Lemma CNN_init_token_width_before_height :
  (¬ ∃ (load : string → mat Q) st,
       CNN_init_layer load "2x3x5" st0 = Ok st
       ∧ init_stdout st = "Initializing 1 x 2 kernels of size 3 x 5" +:+ nl)
  ∧ (¬ ∃ load : string → mat Q,
         claimed_conv_token load "2x3x5" 2 3 5 st0
         ∧ claimed_conv_token load "2x5x3" 2 5 3 st0)
  ∧ ∃ l st,
      CNN_init_layer load53 "2x3x5" st0 = Ok st
      ∧ init_transforms st = [Conv l]
      ∧ getKernelHeight l = 5 ∧ getKernelWidth l = 3
      ∧ init_stdout st = "Initializing 1 x 2 kernels of size 5 x 3" +:+ nl
      ∧ init_img_size st = mkSIZE 6 8
      ∧ ¬ claimed_conv_token load53 "2x3x5" 2 3 5 st0.
Proof.
  split_and!.
  - intros (load & st & Hst & Hout).
    rewrite (proj1 (CNN_init_layer_2x3x5 load)) in Hst. injection Hst as <-.
    discriminate Hout.
  - intros (load & (l1 & st1 & Hst1 & Hts1 & _ & Hh1 & _) & (l2 & st2 & Hst2 & Hts2 & _ & Hh2 & _)).
    rewrite (proj1 (CNN_init_layer_2x3x5 load)) in Hst1.
    rewrite (proj2 (CNN_init_layer_2x3x5 load)) in Hst2.
    injection Hst1 as <-. injection Hst2 as <-.
    cbn [init_transforms st0 app] in Hts1, Hts2.
    injection Hts1 as <-. injection Hts2 as <-.
    rewrite Hh1 in Hh2. discriminate Hh2.
  - eexists _, _. split; [vm_compute; reflexivity|].
    split_and!; [reflexivity..|].
    intros (l & st & Hst & Hts & _ & Hh & _).
    rewrite (proj1 (CNN_init_layer_2x3x5 load53)) in Hst. injection Hst as <-.
    cbn [init_transforms st0 app] in Hts. injection Hts as <-. discriminate Hh.
Qed.

(** ** The layers on concrete inputs *)

Section C1.
Context {T : Type} `{Arith T} `{Activation T}.

End C1.


(** On the image (1, 0) and the kernel (1, 0) the correlation is 1: the
    layer returns sigmoid(1 + 0) for its one pixel. *)
Example ConvolutionalLayer_feedForward_conv12 :
  ConvolutionalLayer_feedForward conv12 [] fins12
  = Ok [Mat 1 1 [1 / (1 + exp (- (0 + (0 + 1 * 1 + 0 * 0) + 0)))]%R].
Proof.
  rewrite ConvolutionalLayer_feedForward_eq by reflexivity.
  cbv -[Rplus Rmult Rminus Rdiv Rinv Ropp exp IZR INR Rlt_dec]. reflexivity.
Qed.


(** The image (1, 0), the output 1/2 and the error (4, 0): the delta is
    (1, 0), the correlation of the rotated image (0, 1) with it is 0, and
    the kernel stays 0 while the bias goes from 0 to -1. *)
Example ConvolutionalLayer_backPropagate_conv11 :
  ∃ l' errors',
    ConvolutionalLayer_backPropagate conv11 errors11 fins11 fouts11 1%Q = Ok (l', errors')
    ∧ _kernels l' = [[Mat 1 1 [0%Q]]] ∧ _bias l' = [(-1)%Q].
Proof. eexists _, _. split; [vm_compute; reflexivity|]. by split. Qed.

(** A layer of scale 2 on 2 x 2 images. *)
Lemma SubSamplingLayer_backPropagate_spec_witness :
  0 < _scale ss2 ∧ 0 < 1
  ∧ ss_input_img_size ss2 = mkSIZE (_scale ss2 * 1) (_scale ss2 * 1)
  ∧ Forall (λ e, getRows e = 1 * 1 ∧ getCols e = 1 ∧ wf e) errors_ss2
  ∧ ∃ errors',
      SubSamplingLayer_backPropagate ss2 errors_ss2 [] [] 1%Q = (ss2, errors')
      ∧ length errors' = 1.
Proof.
  assert (Forall (λ e : mat Q, getRows e = 1 * 1 ∧ getCols e = 1 ∧ wf e) errors_ss2)
    as Herr by (repeat constructor).
  split_and!; [simpl; lia|lia|reflexivity|exact Herr|].
  destruct (SubSamplingLayer_backPropagate_spec ss2 errors_ss2 [] [] 1%Q 1 1 1)
    as (errors' & Hbp & Hlen & _); [simpl; lia|lia|reflexivity|exact Herr|].
  exists errors'. split; [exact Hbp|exact Hlen].
Defined.

Example SubSamplingLayer_backPropagate_ss2 :
  SubSamplingLayer_backPropagate ss2 errors_ss2 [] [] 1%Q
  = (ss2, [Mat 4 1 [2; 2; 2; 2]%Q]).
Proof. vm_compute. reflexivity. Qed.

(** The token 2x3x5 on a 10 x 10 image. *)
Lemma CNN_init_convolutional_token_witness :
  is_number "2" = true ∧ is_number "3" = true ∧ is_number "5" = true
  ∧ (0 < Z.of_nat (str2int "2") < 2 ^ 31)%Z ∧ (0 < Z.of_nat (str2int "3") < 2 ^ 31)%Z
  ∧ (0 < Z.of_nat (str2int "5") < 2 ^ 31)%Z
  ∧ 0 < init_nInputMaps st0
  ∧ ∃ st, CNN_init_layer load53 ("2" +:+ "x" +:+ "3" +:+ "x" +:+ "5") st0 = Ok st.
Proof.
  assert (0 < Z.of_nat (str2int "2") < 2 ^ 31)%Z as H2 by (by vm_compute).
  assert (0 < Z.of_nat (str2int "3") < 2 ^ 31)%Z as H3 by (by vm_compute).
  assert (0 < Z.of_nat (str2int "5") < 2 ^ 31)%Z as H5 by (by vm_compute).
  assert (0 < init_nInputMaps st0) as Hn by (vm_compute; lia).
  split_and!; [reflexivity..|apply H2|apply H2|apply H3|apply H3|apply H5|apply H5
              |exact Hn|].
  destruct (CNN_init_convolutional_token load53 "2" "3" "5" st0
              eq_refl eq_refl eq_refl H2 H3 H5 Hn) as (_ & Hinit & _).
  eexists. exact Hinit.
Defined.


(** ** The learning-rate schedule *)

Section ScheduleFacts.
Context {T : Type} `{Arith T}.

(** One call: the threshold looked at is the one numbered by the phase. *)
Lemma adjustLearningRate_step (acc : T) (phase : nat) (config : Config T) :
  adjustLearningRate acc (phase, config)
  = match thresholds !! phase with
    | Some t =>
        if fltb (of_lit t) acc
        then (phase + 1,
              mkConfig (fmul (learningRate config) (of_lit 0.9)) (variance config))
        else (phase, config)
    | None => (phase, config)
    end.
Proof.
  unfold adjustLearningRate, thresholds.
  do 6 (destruct phase as [|phase];
        [simpl; repeat (destruct (fltb _ acc); simpl; try reflexivity)|]).
  simpl. rewrite !andb_false_r. reflexivity.
Qed.

Lemma adjustLearningRate_cases (acc : T) (phase : nat) (config : Config T) :
  adjustLearningRate acc (phase, config) = (phase, config)
  ∨ (phase < 6
     ∧ adjustLearningRate acc (phase, config)
       = (phase + 1,
          mkConfig (fmul (learningRate config) (of_lit 0.9)) (variance config))).
Proof.
  rewrite adjustLearningRate_step.
  destruct (thresholds !! phase) as [t|] eqn:Ht; [|by left].
  destruct (fltb (of_lit t) acc); [|by left].
  right. split; [|done]. apply lookup_lt_Some in Ht. simpl in Ht. lia.
Qed.

Lemma decayed_S k (lr : T) :
  decayed (S k) lr = decayed k (fmul lr (of_lit 0.9)).
Proof. unfold decayed. by rewrite Nat.iter_succ_r. Qed.

(** C5 (as amended): a call multiplies the learning rate by 0.9 exactly
    when the accuracy exceeds the one threshold numbered by the current
    phase, and then advances the phase by one; so over any sequence of
    calls the phase never decreases, grows by at most one per call and
    never beyond 6, the thresholds triggered are those numbered from the
    first phase to the last, each once and in ascending order, and the
    learning rate has been multiplied by 0.9 once for each of them. *)
Theorem adjustLearningRate_schedule (accs : list T) (phase : nat) (config : Config T) :
  (∀ acc p c,
     adjustLearningRate acc (p, c)
     = match thresholds !! p with
       | Some t =>
           if fltb (of_lit t) acc
           then (p + 1, mkConfig (fmul (learningRate c) (of_lit 0.9)) (variance c))
           else (p, c)
       | None => (p, c)
       end)
  ∧ ∃ phase' config',
      adjustLearningRate_calls accs (phase, config) = (phase', config')
      ∧ phase ≤ phase' ≤ phase + length accs
      ∧ (phase ≤ 6 → phase' ≤ 6)
      ∧ triggers accs (phase, config) = seq phase (phase' - phase)
      ∧ learningRate config' = decayed (phase' - phase) (learningRate config)
      ∧ variance config' = variance config.
Proof.
  split; [apply adjustLearningRate_step|].
  revert phase config. induction accs as [|acc accs IH]; intros phase config.
  - exists phase, config. simpl. rewrite Nat.sub_diag. split_and!; try done; lia.
  - unfold adjustLearningRate_calls. cbn [foldl triggers].
    destruct (adjustLearningRate_cases acc phase config) as [->|[Hlt ->]].
    + destruct (IH phase config) as (p' & c' & Hrun & Hle & H6 & Htr & Hlr & Hvar).
      exists p', c'. cbn [fst]. rewrite Nat.eqb_refl. simpl app.
      split_and!; try done; simpl; lia.
    + destruct (IH (phase + 1) (mkConfig (fmul (learningRate config) (of_lit 0.9))
                                  (variance config)))
        as (p' & c' & Hrun & Hle & H6 & Htr & Hlr & Hvar).
      exists p', c'. cbn [fst]. rewrite (proj2 (Nat.eqb_neq _ _)) by lia.
      split_and!; try done; simpl in *; try lia.
      * rewrite Htr. replace (p' - phase) with (S (p' - (phase + 1))) by lia.
        simpl. by rewrite Nat.add_1_r.
      * rewrite Hlr. replace (p' - phase) with (S (p' - (phase + 1))) by lia.
        by rewrite decayed_S.
Qed.
End ScheduleFacts.

(** One call with accuracy 0.99 crosses all six thresholds and multiplies
    the learning rate once. *)
Lemma adjustLearningRate_not_once_per_crossing :
  length (crossed [0.99%Q]) = 6
  ∧ adjustLearningRate_calls [0.99%Q] (0, config1) = (1, mkConfig 0.9%Q 1%Q)
  ∧ claimed_learningRate [0.99%Q] 1%Q = (531441 # 1000000)%Q
  ∧ ¬ Qeq (learningRate (adjustLearningRate_calls [0.99%Q] (0, config1)).2)
           (claimed_learningRate [0.99%Q] 1%Q).
Proof.
  split_and!; [reflexivity..|]. vm_compute. discriminate.
Qed.

(** ** The unimplemented operations of CNN *)

Section Stubs.
Context {T : Type}.

(** C9 (as amended): CNN::read, CNN::save and CNN::feedBackward return
    normally and change nothing: neither the CNN nor the error passed
    in. *)
Theorem CNN_stubs_return_silently (cnn : CNN T) (fn : string) (error delta : mat T) :
  CNN_read cnn fn = Ok cnn
  ∧ CNN_save cnn fn = Ok ()
  ∧ CNN_feedBackward cnn error delta = Ok (cnn, error).
Proof. done. Qed.
End Stubs.

(** None of the three calls ends in an error on an empty CNN. *)
Lemma CNN_stubs_do_not_signal :
  ¬ signals_unsupported (CNN_read (mkCNN (T:=Q) [] []) "model.txt")
  ∧ ¬ signals_unsupported (CNN_save (mkCNN (T:=Q) [] []) "model.txt")
  ∧ ¬ signals_unsupported
        (CNN_feedBackward (mkCNN (T:=Q) [] []) (Mat 1 1 [1%Q]) (Mat 1 1 [1%Q])).
Proof. simpl. tauto. Qed.

(** ** Copying a DNN *)

Section CopyFacts.
Context {T : Type}.
Implicit Types (h : heap T) (p q : nat).

Lemma clone_spec (pt : ptr) h :
  ∃ q, clone pt h = (Some q, <[q := default inhabitant (pt ≫= (h !!.))]> h)
       ∧ h !! q = None.
Proof.
  unfold clone, new_. eexists; split; [reflexivity|].
  apply not_elem_of_dom, is_fresh.
Qed.

Lemma copy_loop_inv (source : DNN T) h0 k :
  k ≤ length (dnn_transforms source) →
  Forall (λ pt, ∃ p, pt = Some p ∧ is_Some (h0 !! p)) (dnn_transforms source) →
  ∃ ts h,
    copy_loop source k h0 = (ts, h)
    ∧ length ts = length (dnn_transforms source)
    ∧ h0 ⊆ h
    ∧ (∀ i, k ≤ i → i < length ts → ts !! i = Some None)
    ∧ (∀ i p, i < k → dnn_transforms source !! i = Some (Some p) →
         ∃ q, ts !! i = Some (Some q) ∧ h0 !! q = None ∧ h !! q = h0 !! p)
    ∧ (∀ i j q, i < k → j < k → ts !! i = Some (Some q) → ts !! j = Some (Some q) →
         i = j)
    ∧ (∀ i q, i < k → ts !! i = Some (Some q) → is_Some (h !! q)).
Proof.
  intros Hk Hsrc. induction k as [|k IH].
  - eexists _, h0. split; [reflexivity|]. rewrite length_replicate.
    split_and!; try done; try (intros; lia).
    intros i _ Hi. by rewrite lookup_replicate_2.
  - destruct IH as (ts & h & Hloop & Hlen & Hsub & Hnull & Hcopy & Hinj & Hdom); [lia|].
    unfold copy_loop in *. rewrite for_S, Hloop.
    destruct (lookup_lt_is_Some_2 (dnn_transforms source) k) as [pt Hpt]; [lia|].
    rewrite (list_lookup_total_correct _ _ _ Hpt).
    rewrite Forall_forall in Hsrc.
    destruct (Hsrc pt) as (p & -> & [obj Hobj]); [by eapply list_elem_of_lookup_2|].
    destruct (clone_spec (Some p) h) as (q & -> & Hq).
    assert (h !! p = Some obj) as Hobj' by (by eapply lookup_weaken).
    simpl. rewrite Hobj'. simpl.
    eexists _, _. split; [reflexivity|].
    assert (h0 !! q = None) as Hq0.
    { destruct (h0 !! q) eqn:E; [|done].
      eapply lookup_weaken in E; [|exact Hsub]. congruence. }
    split_and!.
    + by rewrite length_insert.
    + etrans; [exact Hsub|]. by apply insert_subseteq.
    + intros i Hi Hi'. rewrite length_insert in Hi'.
      rewrite list_lookup_insert_ne by lia. apply Hnull; lia.
    + intros i p' Hi Hp'. destruct (decide (i = k)) as [->|Hne].
      * rewrite Hpt in Hp'. injection Hp' as <-.
        exists q. rewrite list_lookup_insert_eq by lia.
        by rewrite lookup_insert_eq, Hobj.
      * destruct (Hcopy i p') as (q' & Hq' & Hq'0 & Hq'h); [lia|done|].
        exists q'. rewrite list_lookup_insert_ne by done.
        split_and!; [done..|].
        rewrite lookup_insert_ne; [done|].
        intros <-. rewrite Hq in Hq'h. destruct (Hsrc (Some p')) as (? & [= <-] & [? E]).
        { by eapply list_elem_of_lookup_2. }
        congruence.
    + assert (∀ i q', i < k → <[k:=Some q]> ts !! i = Some (Some q') → q' ≠ q) as Hfresh.
      { intros i q' Hi. rewrite list_lookup_insert_ne by lia. intros Hq' ->.
        destruct (Hdom i q) as [? E]; [done..|]. congruence. }
      intros i j q' Hi Hj Hi' Hj'.
      destruct (decide (i = k)) as [->|Hik], (decide (j = k)) as [->|Hjk]; [done| | |].
      * rewrite list_lookup_insert_eq in Hi' by lia. injection Hi' as <-.
        by destruct (Hfresh j q ltac:(lia) Hj').
      * rewrite list_lookup_insert_eq in Hj' by lia. injection Hj' as <-.
        by destruct (Hfresh i q ltac:(lia) Hi').
      * rewrite list_lookup_insert_ne in Hi', Hj' by done.
        apply (Hinj i j q'); [lia|lia|done..].
    + intros i q' Hi Hq'. destruct (decide (i = k)) as [->|Hne].
      * rewrite list_lookup_insert_eq in Hq' by lia. injection Hq' as <-.
        rewrite lookup_insert_eq. done.
      * rewrite list_lookup_insert_ne in Hq' by done.
        destruct (Hdom i q') as [x Hx]; [lia|done|].
        exists x. rewrite lookup_insert_ne; [done|]. intros <-. congruence.
Qed.
End CopyFacts.

Section CopyThm.
Context {T : Type}.

(** C10: copy-constructing a DNN whose layer pointers are valid gives a
    DNN with the default configuration, whatever the configuration of the
    source, and as many layers; layer i of the copy is a new object (its
    address was free before) that equals layer i of the source; the objects
    of the source are untouched, the new addresses are pairwise distinct,
    and writing through a pointer of the copy does not change what a
    pointer of the source sees, nor the other way round. *)
Theorem DNN_copy_deep (Config_default : Config T) (source : DNN T) (h0 : heap T) :
  Forall (λ pt, ∃ p, pt = Some p ∧ is_Some (h0 !! p)) (dnn_transforms source) →
  ∃ copy h,
    DNN_copy Config_default source h0 = (copy, h)
    ∧ _config copy = Config_default
    ∧ length (dnn_transforms copy) = length (dnn_transforms source)
    ∧ h0 ⊆ h
    ∧ (∀ i p, dnn_transforms source !! i = Some (Some p) →
         ∃ q, dnn_transforms copy !! i = Some (Some q)
              ∧ h0 !! q = None ∧ h !! q = h0 !! p)
    ∧ (∀ i j q, dnn_transforms copy !! i = Some (Some q) →
         dnn_transforms copy !! j = Some (Some q) → i = j)
    ∧ (∀ i j p q obj,
         dnn_transforms source !! i = Some (Some p) →
         dnn_transforms copy !! j = Some (Some q) →
         <[q := obj]> h !! p = h0 !! p ∧ <[p := obj]> h !! q = h !! q).
Proof.
  intros Hsrc.
  destruct (copy_loop_inv source h0 (length (dnn_transforms source)))
    as (ts & h & Hloop & Hlen & Hsub & _ & Hcopy & Hinj & Hdom); [done..|].
  unfold DNN_copy. unfold copy_loop in Hloop. rewrite Hloop.
  eexists _, _. split; [reflexivity|]. cbn [_config dnn_transforms].
  assert (∀ i p, dnn_transforms source !! i = Some (Some p) →
            ∃ q, ts !! i = Some (Some q) ∧ h0 !! q = None ∧ h !! q = h0 !! p) as Hcopy'.
  { intros i p Hp. apply (Hcopy i p); [|done]. by eapply lookup_lt_Some. }
  split_and!; [done..| |].
  - intros i j q Hi Hj. apply (Hinj i j q); [| |done..].
    + rewrite <- Hlen. by eapply lookup_lt_Some.
    + rewrite <- Hlen. by eapply lookup_lt_Some.
  - intros i j p q obj Hp Hq.
    assert (is_Some (h0 !! p)) as [x Hx].
    { rewrite Forall_forall in Hsrc.
      destruct (Hsrc (Some p)) as (? & [= <-] & ?); [|done].
      by eapply list_elem_of_lookup_2. }
    assert (p ≠ q) as Hne.
    { intros ->. destruct (lookup_lt_is_Some_2 (dnn_transforms source) j) as [pt Hpt].
      { rewrite <- Hlen. by eapply lookup_lt_Some. }
      rewrite Forall_forall in Hsrc.
      destruct (Hsrc pt) as (p' & -> & _); [by eapply list_elem_of_lookup_2|].
      destruct (Hcopy' j p' Hpt) as (q' & Hq' & Hfresh & _).
      rewrite Hq in Hq'. injection Hq' as <-. congruence. }
    rewrite !lookup_insert_ne by done. split; [|done].
    rewrite Hx. by eapply lookup_weaken.
Qed.
End CopyThm.

(** Copying [dnn_src] in the heap [h_src]. *)
Lemma DNN_copy_deep_witness :
  Forall (λ pt, ∃ p, pt = Some p ∧ is_Some (h_src !! p)) (dnn_transforms dnn_src)
  ∧ ∃ copy h, DNN_copy (mkConfig 1%Q 1%Q) dnn_src h_src = (copy, h)
              ∧ _config copy = mkConfig 1%Q 1%Q.
Proof.
  assert (Forall (λ pt, ∃ p, pt = Some p ∧ is_Some (h_src !! p))
            (dnn_transforms dnn_src)) as Hsrc.
  { repeat constructor; eexists; (split; [reflexivity|]); vm_compute; eauto. }
  split; [exact Hsrc|].
  destruct (DNN_copy_deep (mkConfig 1%Q 1%Q) dnn_src h_src Hsrc)
    as (copy & h & Hcopy & Hcfg & _).
  by exists copy, h.
Defined.

(** ** Saving and reading a DNN *)

(** ** Scanning what was printed *)

Lemma length_append (a b : string) :
  String.length (a +:+ b) = String.length a + String.length b.
Proof.
  induction a as [|x a IH]; [done|]. rewrite append_cons. simpl. by rewrite IH.
Qed.

Lemma skip_ws_idem s : skip_ws (skip_ws s) = skip_ws s.
Proof.
  induction s as [|c s IH]; [done|]. simpl.
  destruct (is_space c) eqn:E; [done|]. simpl. by rewrite E.
Qed.

Lemma skip_ws_nonspace c s : is_space c = false → skip_ws (String c s) = String c s.
Proof. intros E. simpl. by rewrite E. Qed.

(** Decimal numbers. *)
Lemma scan_digits_uint (d : Decimal.uint) acc s :
  scan_digits acc (NilEmpty.string_of_uint d +:+ s)
  = scan_digits (Nat.of_uint_acc d acc) s.
Proof.
  revert acc. induction d; intros acc; [done|..];
    simpl NilEmpty.string_of_uint; rewrite append_cons;
    cbn [scan_digits is_digit nat_of_ascii]; simpl; rewrite IHd; do 2 f_equal;
    rewrite Nat.tail_mul_spec; lia.
Qed.

Lemma to_uint_nonnil n : Nat.to_uint n ≠ Decimal.Nil.
Proof.
  rewrite <- (Unsigned.of_to n) at 1. rewrite Unsigned.to_of.
  unfold Decimal.unorm. by destruct (Decimal.nzhead _).
Qed.

Lemma to_string_head n :
  ∃ c s, to_string n = String c s ∧ is_digit c = true.
Proof.
  unfold to_string. pose proof (to_uint_nonnil n) as Hn.
  destruct (Nat.to_uint n); [done|..]; simpl; eauto.
Qed.

Lemma is_digit_not_space c : is_digit c = true → is_space c = false.
Proof.
  unfold is_digit, is_space. intros [H1 H2]%andb_true_iff.
  apply Nat.leb_le in H1, H2. apply orb_false_iff. split.
  - apply Nat.eqb_neq. lia.
  - apply andb_false_iff. right. apply Nat.leb_gt. lia.
Qed.

(** %lu on a number that was printed after a space and before a space. *)
Lemma scan_lu_to_string n s :
  scan_lu (String " " (to_string n +:+ String " " s)) = Some (n, String " " s).
Proof.
  unfold scan_lu. change (skip_ws (String " " ?x)) with (skip_ws x).
  destruct (to_string_head n) as (c & r & Hstr & Hc).
  rewrite Hstr, append_cons, skip_ws_nonspace by (by apply is_digit_not_space).
  rewrite Hc, <- append_cons, <- Hstr. unfold to_string.
  rewrite scan_digits_uint. simpl.
  change (Nat.of_uint_acc (Nat.to_uint n) 0) with (Nat.of_uint (Nat.to_uint n)).
  by rewrite Unsigned.of_to.
Qed.

(** Printing in a loop appends to what was printed before. *)
Lemma for_append n (f : nat → string) (out : string) :
  for_ n (λ k out, out +:+ f k) out = out +:+ for_ n (λ k out, out +:+ f k) "".
Proof.
  induction n as [|n IH].
  - by rewrite !for_0, append_nil_r.
  - by rewrite !for_S, IH, append_assoc.
Qed.

Section ReadBack.
Context {T : Type} `{FloatText T} `{Inhabited T}.

Lemma scan_weight_skip idx s (hw : list T) :
  scan_weight idx (s, hw) = scan_weight idx (skip_ws s, hw).
Proof. unfold scan_weight. cbn [fst snd]. by rewrite skip_ws_idem. Qed.

Lemma scan_weight_item x t idx (hw : list T) :
  text_ok x →
  scan_weight idx (skip_ws (fmt_g x +:+ " " +:+ t), hw)
  = (skip_ws t, <[idx := reread x]> hw).
Proof.
  intros [(c & s & Hc & Hsp) Hscan]. unfold scan_weight. cbn [fst snd].
  rewrite skip_ws_idem. rewrite Hc, append_cons, skip_ws_nonspace by done.
  rewrite <- append_cons, <- Hc, append_char, Hscan. done.
Qed.

Lemma read_nums n (v : nat → T) (idx : nat → nat) t (hw : list T) :
  (∀ k, k < n → text_ok (v k)) →
  for_ n (λ j st, scan_weight (idx j) st) (skip_ws (nums n v +:+ t), hw)
  = (skip_ws t, for_ n (λ j hw, <[idx j := reread (v j)]> hw) hw).
Proof.
  revert t. induction n as [|n IH]; intros t Hok.
  - done.
  - unfold nums. rewrite !for_S. fold (nums n v).
    rewrite append_assoc, IH by (intros; apply Hok; lia).
    rewrite append_assoc. apply scan_weight_item, Hok. lia.
Qed.

Lemma read_nums_from n (v : nat → T) (idx : nat → nat) s t (hw : list T) :
  0 < n → skip_ws s = skip_ws (nums n v +:+ t) →
  (∀ k, k < n → text_ok (v k)) →
  for_ n (λ j st, scan_weight (idx j) st) (s, hw)
  = (skip_ws t, for_ n (λ j hw, <[idx j := reread (v j)]> hw) hw).
Proof.
  intros Hn Hs Hok. rewrite <- read_nums by done. rewrite <- Hs. clear Hs Hok.
  induction n as [|n IH]; [lia|]. rewrite !for_S.
  destruct n as [|n].
  - rewrite !for_0. apply scan_weight_skip.
  - by rewrite IH by lia.
Qed.

Lemma read_rows R C (v : nat → nat → T) (idx : nat → nat → nat) t (hw : list T) :
  (∀ i j, i < R → j < C → text_ok (v i j)) →
  for_ R (λ i st, for_ C (λ j st, scan_weight (idx i j) st) st)
    (skip_ws (rows_text R C v +:+ t), hw)
  = (skip_ws t,
     for_ R (λ i, for_ C (λ j hw, <[idx i j := reread (v i j)]> hw)) hw).
Proof.
  revert t. induction R as [|R IH]; intros t Hok.
  - done.
  - unfold rows_text. rewrite !for_S. fold (rows_text R C v).
    rewrite append_assoc, IH by (intros; apply Hok; lia).
    rewrite !append_assoc.
    change (skip_ws (nl +:+ "  " +:+ ?x)) with (skip_ws x).
    apply read_nums. intros; apply Hok; lia.
Qed.

(** The two printing loops of [save]. *)
Lemma print_rows R C (v : nat → nat → T) (out : string) :
  for_ R (λ j out,
    let out := out +:+ nl +:+ "  " in
    for_ C (λ k out, out +:+ fmt_g (v j k) +:+ " ") out) out
  = out +:+ rows_text R C v.
Proof.
  unfold rows_text.
  rewrite (for_ext R _ (λ j out, out +:+ nl +:+ "  " +:+ nums C (v j))).
  - apply (for_append R (λ j, nl +:+ "  " +:+ nums C (v j))).
  - intros j o _. simpl.
    rewrite (for_append C (λ k, fmt_g (v j k) +:+ " ")).
    by rewrite !append_assoc.
Qed.
End ReadBack.

(** ** The buffer that [readweight] fills *)

Section Buffer.
Context {T : Type}.
Variable f : nat → T.

Lemma length_writes ks l : length (writes f ks l) = length l.
Proof.
  revert l. induction ks as [|k ks IH]; intros l; [done|].
  simpl. by rewrite IH, length_insert.
Qed.

Lemma lookup_writes ks l i :
  writes f ks l !! i
  = if decide (i ∈ ks ∧ i < length l) then Some (f i) else l !! i.
Proof.
  revert l. induction ks as [|k ks IH]; intros l.
  - change (writes f [] l) with l.
    rewrite decide_False; [done|]. intros [[]%elem_of_nil _].
  - change (writes f (k :: ks) l) with (writes f ks (<[k := f k]> l)).
    rewrite IH, length_insert, list_lookup_insert.
    destruct (decide (i ∈ ks ∧ i < length l)) as [[Hin Hlt]|Hn].
    + rewrite decide_True; [done|]. split; [by right|done].
    + destruct (decide (k = i ∧ k < length l)) as [[-> Hlt]|Hn'].
      * rewrite decide_True; [done|]. split; [by left|done].
      * rewrite decide_False; [done|]. intros [[->|Hin]%elem_of_cons Hlt]; tauto.
Qed.

Lemma for_writes n (g : nat → nat) l :
  for_ n (λ j l, <[g j := f (g j)]> l) l = writes f (g <$> seq 0 n) l.
Proof.
  revert l. unfold for_, writes. induction (seq 0 n) as [|k ks IH]; intros l; [done|].
  simpl. by rewrite IH.
Qed.

Lemma writes_app ks ks' l : writes f (ks ++ ks') l = writes f ks' (writes f ks l).
Proof. unfold writes. by rewrite foldl_app. Qed.

Lemma for_for_writes R C (g : nat → nat → nat) l :
  for_ R (λ i, for_ C (λ j l, <[g i j := f (g i j)]> l)) l
  = writes f (i ← seq 0 R; g i <$> seq 0 C) l.
Proof.
  induction R as [|R IH]; [done|].
  rewrite for_S, IH, seq_S, bind_app, writes_app. simpl.
  rewrite app_nil_r. apply for_writes.
Qed.

(** After the weights and the bias row of [C] columns have been written
    into a fresh buffer of [C + 1] columns, the first [C] columns hold
    [f] and the last column is as it was. *)
Lemma buffer_final (junk : nat → T) rows C :
  1 ≤ rows →
  for_ C (λ j hw, <[j * rows + rows - 1 := f (j * rows + rows - 1)]> hw)
    (for_ (rows - 1) (λ i, for_ C (λ j hw, <[j * rows + i := f (j * rows + i)]> hw))
       (junk <$> seq 0 (rows * (C + 1))))
  = (λ idx, if idx <? rows * C then f idx else junk idx) <$> seq 0 (rows * (C + 1)).
Proof.
  intros Hrows.
  rewrite (for_for_writes (rows - 1) C (λ i j, j * rows + i)).
  rewrite (for_writes C (λ j, j * rows + rows - 1)).
  apply list_eq. intros idx.
  rewrite lookup_writes, length_writes, lookup_writes, length_fmap, length_seq.
  rewrite !list_lookup_fmap.
  destruct (decide (idx < rows * (C + 1))) as [Hlt|Hge].
  2:{ rewrite lookup_seq_ge by lia. rewrite !decide_False by (intros [_ ?]; lia). done. }
  rewrite lookup_seq_lt by done. simpl.
  pose proof (Nat.div_mod_eq idx rows) as Hdm.
  pose proof (Nat.mod_upper_bound idx rows ltac:(lia)) as Hmod.
  destruct (Nat.ltb_spec idx (rows * C)) as [Hin|Hout].
  - assert (idx `div` rows < C) as Hdiv by (apply Nat.Div0.div_lt_upper_bound; lia).
    destruct (decide (idx `mod` rows = rows - 1)) as [Hlast|Hnot].
    + rewrite decide_True; [done|]. split; [|done].
      apply list_elem_of_fmap. exists (idx `div` rows). split; [lia|].
      apply elem_of_seq. lia.
    + rewrite decide_False.
      2:{ intros [(j & -> & Hj)%list_elem_of_fmap _]. apply Hnot.
          replace (j * rows + rows - 1) with (rows - 1 + j * rows) by lia.
          rewrite Nat.Div0.mod_add. apply Nat.mod_small. lia. }
      rewrite decide_True; [done|]. split; [|done].
      apply list_elem_of_bind. exists (idx `mod` rows). split.
      * apply list_elem_of_fmap. exists (idx `div` rows). split; [lia|].
        apply elem_of_seq. lia.
      * apply elem_of_seq. lia.
  - rewrite decide_False.
    2:{ intros [(j & -> & Hj%elem_of_seq)%list_elem_of_fmap _]. nia. }
    rewrite decide_False; [done|].
    intros [(i & (j & -> & Hj%elem_of_seq)%list_elem_of_fmap & Hi%elem_of_seq)%list_elem_of_bind _].
    nia.
Qed.
End Buffer.

Section ReadLayer.
Context {T : Type} `{FloatText T} `{Inhabited T}.
Variable junk : nat → T.

Lemma DNN_save_layer_eq (t : FeatureTransform T) out :
  DNN_save_layer t out = out +:+ layer_text t.
Proof.
  unfold DNN_save_layer, layer_text. cbv zeta.
  rewrite print_rows.
  rewrite (for_append (getCols (_w t) - 1)
             (λ j, fmt_g (getData (_w t) !!! (j * getRows (_w t) + getRows (_w t) - 1))
                   +:+ " ")).
  fold (nums (getCols (_w t) - 1)
          (λ j, getData (_w t) !!! (j * getRows (_w t) + getRows (_w t) - 1))).
  by rewrite !append_assoc.
Qed.

Lemma layer_ok_saved (t : FeatureTransform T) : layer_ok t → layer_saved t.
Proof. intros (? & ? & ? & ?). split_and!; [done|lia|done|done]. Qed.

Lemma saved_weight_ok (t : FeatureTransform T) idx :
  layer_saved t → idx < getRows (_w t) * (getCols (_w t) - 1) →
  text_ok (getData (_w t) !!! idx).
Proof.
  intros (Hr & Hc & Hlen & Hok) Hidx. rewrite Forall_forall in Hok. apply Hok.
  unfold saved_weights. apply list_elem_of_lookup. exists idx.
  rewrite lookup_take_lt by done. apply list_lookup_lookup_total_lt.
  rewrite Hlen. nia.
Qed.
End ReadLayer.

Section ReadLayer2.
Context {T : Type} `{FloatText T} `{Inhabited T}.
Variable junk : nat → T.

Lemma read_layer_text (t : FeatureTransform T) rest rows0 cols0 acc :
  layer_saved t →
  ∃ type s,
    scan_word (layer_text t +:+ rest) = (type, s)
    ∧ String.length type < 80
    ∧ DNN_read_layer junk type (s, rows0, cols0, acc)
      = Some (after_layer t rest, Some (getRows (_w t) - 1), Some (getCols (_w t) - 1),
              acc ++ [restored junk t]).
Proof.
  intros Hok. pose proof Hok as (Hrows & Hcols & Hlen & _).
  unfold layer_text, after_layer. cbv zeta.
  set (rows := getRows (_w t)) in *. set (cols := getCols (_w t) - 1).
  set (W := rows_text (rows - 1) cols (λ j k, getData (_w t) !!! (k * rows + j))).
  set (B := nums cols (λ j, getData (_w t) !!! (j * rows + rows - 1))).
  rewrite !append_assoc.
  assert (∃ type,
    scan_word ("<" +:+ toString (ft_type t) +:+ "> " +:+ to_string (rows - 1)
               +:+ " " +:+ to_string cols +:+ " " +:+ nl +:+ " [" +:+ W +:+ "]" +:+ nl
               +:+ "<bias> " +:+ nl +:+ " [" +:+ B +:+ " ]" +:+ nl +:+ rest)
    = (type,
       String " " (to_string (rows - 1) +:+ String " " (to_string cols +:+ String " "
         (nl +:+ " [" +:+ W +:+ "]" +:+ nl +:+ "<bias> " +:+ nl +:+ " [" +:+ B
          +:+ " ]" +:+ nl +:+ rest))))
    ∧ String.length type < 80
    ∧ (if String.eqb type "<sigmoid>" then acc ++ [FeatureTransform_of junk Sigmoid
                                                     (restored_w junk (_w t))]
       else if String.eqb type "<softmax>" then acc ++ [FeatureTransform_of junk Softmax
                                                          (restored_w junk (_w t))]
       else acc)
      = acc ++ [restored junk t]) as (type & -> & Hshort & Htype).
  { unfold restored. destruct (ft_type t); eexists;
      (split; [reflexivity|]); (split; [simpl; lia|done]). }
  eexists _, _. split; [reflexivity|]. split; [exact Hshort|].
  unfold DNN_read_layer, scan_dims.
  rewrite scan_lu_to_string. rewrite scan_lu_to_string.
  change (scan_format (nl +:+ " [" +:+ nl) (String " " (nl +:+ " [" +:+ ?x)))
    with (skip_ws x).
  unfold readweight. cbn [fst snd].
  replace (rows - 1 + 1) with rows by lia.
  unfold W.
  rewrite (read_rows (rows - 1) cols
             (λ j k, getData (_w t) !!! (k * rows + j)) (λ i j, j * rows + i)).
  2:{ intros i j Hi Hj. apply (saved_weight_ok t); [done|]. fold rows cols. nia. }
  cbn [fst snd].
  change (scan_format ("]" +:+ nl +:+ "<bias>" +:+ nl +:+ " [")
            (skip_ws ("]" +:+ nl +:+ "<bias> " +:+ nl +:+ " [" +:+ ?x))) with x.
  assert (Mat rows (cols + 1)
            (for_ cols
               (λ j hw, <[j * rows + rows - 1 :=
                            reread (getData (_w t) !!! (j * rows + rows - 1))]> hw)
               (for_ (rows - 1)
                  (λ i, for_ cols
                     (λ j hw, <[j * rows + i :=
                                  reread (getData (_w t) !!! (j * rows + i))]> hw))
                  (junk <$> seq 0 (rows * (cols + 1)))))
          = restored_w junk (_w t)) as Hbuf.
  { unfold restored_w. fold rows.
    replace (getCols (_w t)) with (cols + 1) by (unfold cols; lia).
    replace (cols + 1 - 1) with cols by lia.
    f_equal.
    apply (buffer_final (λ idx, reread (getData (_w t) !!! idx)) junk rows cols).
    done. }
  destruct (Nat.eqb_spec cols 0) as [Hz|Hnz].
  - (* no number is saved *)
    unfold B. rewrite Hz in *. rewrite !for_0. cbn [fst snd].
    change (nums 0 ?v) with "". rewrite append_nil_l.
    change (scan_format ("]" +:+ nl) (" ]" +:+ nl +:+ rest)) with (" ]" +:+ nl +:+ rest).
    rewrite for_0 in Hbuf. rewrite Hbuf, Htype. done.
  - unfold B.
    rewrite (read_nums_from cols (λ j, getData (_w t) !!! (j * rows + rows - 1))
               (λ j, j * rows + rows - 1) _ (" ]" +:+ nl +:+ rest)).
    2:{ lia. }
    2:{ reflexivity. }
    2:{ intros k Hk. apply (saved_weight_ok t); [done|]. fold rows cols. nia. }
    cbn [fst snd].
    change (skip_ws (" ]" +:+ nl +:+ ?x)) with (String "]" (nl +:+ x)).
    change (scan_format ("]" +:+ nl) (String "]" (nl +:+ rest))) with (skip_ws rest).
    rewrite Hbuf, Htype. done.
Qed.

(** The iteration that finds the closing bracket of a bias row without
    numbers: it reads the bracket as a type tag, no dimensions and no
    number, and adds no layer. *)
Lemma read_stray_bracket (rest : string) r acc :
  rest = "" ∨ (∃ X, rest = String "<" X) →
  scan_word (skip_ws (" ]" +:+ nl +:+ rest)) = ("]", nl +:+ rest)
  ∧ DNN_read_layer junk "]" (nl +:+ rest, Some r, Some 0, acc)
    = Some (rest, Some r, Some 0, acc).
Proof.
  intros Hrest. split; [reflexivity|].
  unfold DNN_read_layer, scan_dims.
  assert (scan_lu (nl +:+ rest) = None ∧ skip_ws (nl +:+ rest) = rest
          ∧ scan_format ("]" +:+ nl +:+ "<bias>" +:+ nl +:+ " [") rest = rest
          ∧ scan_format ("]" +:+ nl) rest = rest) as (-> & -> & Hb & Hc).
  { destruct Hrest as [->|[X ->]]; by split_and!. }
  unfold readweight. cbn [fst snd].
  rewrite (for_ext (r + 1 - 1) _ (λ _ st, st)) by (intros; apply for_0).
  assert (∀ n (st : string * list T), for_ n (λ _ st, st) st = st) as Hid.
  { induction n as [|n IH]; intros st; [done|]. by rewrite for_S, IH. }
  rewrite Hid, !for_0. cbn [fst snd]. rewrite Hb, Hc. done.
Qed.
End ReadLayer2.

Section RoundTrip.
Context {T : Type} `{FloatText T} `{Inhabited T}.
Variable junk : nat → T.

Lemma file_text_app ts ts' : file_text (ts ++ ts') = file_text ts +:+ file_text ts'.
Proof.
  induction ts as [|t ts IH]; [done|]. cbn [file_text foldr app].
  fold (file_text (ts ++ ts')) (file_text ts). by rewrite IH, append_assoc.
Qed.

Lemma DNN_save_eq (ts : list (FeatureTransform T)) : DNN_save ts = file_text ts.
Proof.
  unfold DNN_save. induction ts as [|t ts IH] using rev_ind; [done|].
  rewrite length_app, Nat.add_1_r, for_S.
  rewrite (for_ext _ _ (λ i out, DNN_save_layer (ts !!! i) out)).
  2:{ intros i out Hi. by rewrite lookup_total_app_l. }
  rewrite IH, DNN_save_layer_eq, file_text_app.
  rewrite lookup_total_app_r, Nat.sub_diag by done. simpl.
  by rewrite append_nil_r.
Qed.

Lemma layer_text_head (t : FeatureTransform T) r :
  ∃ X, layer_text t +:+ r = String "<" (String "s" X).
Proof. unfold layer_text. destruct (ft_type t); eexists; reflexivity. Qed.

Lemma file_text_head (ts : list (FeatureTransform T)) :
  file_text ts = "" ∨ ∃ X, file_text ts = String "<" X.
Proof.
  destruct ts as [|t ts]; [by left|right]. cbn [file_text foldr].
  destruct (layer_text_head t (foldr (λ t s, layer_text t +:+ s) "" ts)) as [X ->].
  by eexists.
Qed.

Lemma length_file_text (ts : list (FeatureTransform T)) :
  2 * length ts ≤ String.length (file_text ts).
Proof.
  induction ts as [|t ts IH]; [done|]. cbn [file_text foldr length].
  fold (file_text ts).
  destruct (layer_text_head t "") as [X HX]. rewrite append_nil_r in HX.
  rewrite length_append, HX. cbn [String.length]. lia.
Qed.

(** The loop of [read] on the text of a list of layers, entered at the
    head of the text or at the bracket that the layer before left
    behind. *)
Lemma DNN_read_loop_text (ts : list (FeatureTransform T)) fuel s0 rows cols acc :
  Forall layer_saved ts →
  skip_ws s0 = skip_ws (file_text ts) ∧ 2 * length ts < fuel
  ∨ (∃ r, s0 = " ]" +:+ nl +:+ file_text ts ∧ rows = Some r ∧ cols = Some 0)
    ∧ 2 * length ts + 1 < fuel →
  DNN_read_loop junk fuel s0 rows cols acc = Some (acc ++ (restored junk <$> ts)).
Proof.
  assert (∀ (ts : list (FeatureTransform T)) fuel r acc,
            DNN_read_loop junk (S fuel) (" ]" +:+ nl +:+ file_text ts) (Some r) (Some 0) acc
            = DNN_read_loop junk fuel (file_text ts) (Some r) (Some 0) acc) as Hstray.
  { intros ts' fuel' r acc'.
    destruct (read_stray_bracket junk (file_text ts') r acc' (file_text_head _))
      as [Hscan Hread].
    cbn [DNN_read_loop].
    change (skip_ws (" ]" +:+ nl +:+ file_text ts'))
      with (String "]" (nl +:+ file_text ts')) in *.
    cbv beta iota. rewrite Hscan. cbn [String.length Nat.leb]. by rewrite Hread. }
  revert fuel s0 rows cols acc.
  induction ts as [|t ts IH]; intros fuel s0 rows cols acc Hok Hentry.
  - destruct Hentry as [[Hs Hfuel]|[(r & -> & -> & ->) Hfuel]].
    + destruct fuel as [|fuel]; [simpl in Hfuel; lia|].
      simpl in *. rewrite Hs. by rewrite app_nil_r.
    + destruct fuel as [|[|fuel]]; [simpl in Hfuel; lia..|].
      rewrite Hstray. simpl. by rewrite app_nil_r.
  - apply Forall_cons_1 in Hok as [Hok Hoks].
    assert (∀ fuel s0 rows cols acc,
              skip_ws s0 = skip_ws (file_text (t :: ts)) → 2 * length ts + 2 < fuel →
              DNN_read_loop junk fuel s0 rows cols acc
              = Some (acc ++ (restored junk <$> t :: ts))) as Hhead.
    { clear fuel s0 rows cols acc Hentry. intros fuel s0 rows cols acc Hs Hfuel.
      destruct fuel as [|fuel]; [lia|].
      destruct (read_layer_text junk t (file_text ts) rows cols acc Hok)
        as (type & s & Hscan & Hshort & Hread).
      cbn [DNN_read_loop]. rewrite Hs. cbn [file_text foldr].
      fold (file_text ts).
      destruct (layer_text_head t (file_text ts)) as [X HX].
      rewrite HX, skip_ws_nonspace by done. rewrite <- HX.
      rewrite Hscan. rewrite (proj2 (Nat.leb_gt _ _)) by lia. rewrite Hread.
      rewrite (IH fuel _ _ _ (acc ++ [restored junk t]) Hoks).
      - by rewrite <- app_assoc.
      - unfold after_layer. destruct (Nat.eqb_spec (getCols (_w t) - 1) 0) as [Hz|Hnz].
        + right. split; [|lia]. exists (getRows (_w t) - 1). by rewrite Hz.
        + left. split; [apply skip_ws_idem|lia]. }
    destruct Hentry as [[Hs Hfuel]|[(r & -> & -> & ->) Hfuel]].
    + apply Hhead; [done|simpl in Hfuel; lia].
    + destruct fuel as [|fuel]; [lia|].
      rewrite Hstray. apply Hhead; [done|simpl in Hfuel; lia].
Qed.

(** [read] on the file of a list of layers. *)
Lemma DNN_read_file_text (ts : list (FeatureTransform T)) :
  Forall layer_saved ts →
  DNN_read junk (file_text ts) = Some (restored junk <$> ts).
Proof.
  intros Hok. unfold DNN_read.
  rewrite (DNN_read_loop_text ts _ _ _ _ [] Hok); [done|].
  left. split; [done|]. pose proof (length_file_text ts). lia.
Qed.

Lemma restored_lookup (w : mat T) r c :
  r < getRows w → c < getCols w →
  getData (restored_w junk w) !! (c * getRows w + r)
  = Some (if c <? getCols w - 1
          then reread (getData w !!! (c * getRows w + r))
          else junk (c * getRows w + r)).
Proof.
  intros Hr Hc. unfold restored_w. cbn [getData].
  rewrite list_lookup_fmap, lookup_seq_lt by nia. simpl. f_equal.
  destruct (Nat.ltb_spec c (getCols w - 1)),
           (Nat.ltb_spec (c * getRows w + r) (getRows w * (getCols w - 1)));
    try done; nia.
Qed.

End RoundTrip.

Example fmt_g_N_examples :
  fmt_g_N 42 = "42" ∧ fmt_g_N 999999 = "999999"
  ∧ fmt_g_N 1000000 = "1e+06" ∧ fmt_g_N 1234567 = "1.23457e+06"
  ∧ fmt_g_N 16777215 = "1.67772e+07" ∧ fmt_g_N 9999995 = "1e+07"
  ∧ reread 1234567%N = 1234570%N ∧ reread 42%N = 42%N.
Proof. vm_compute. done. Qed.


Lemma text_ok_small (x : N) : (x < 10)%N → text_ok x.
Proof.
  intros Hx.
  assert (x ∈ [0; 1; 2; 3; 4; 5; 6; 7; 8; 9]%N) as Hin.
  { rewrite !elem_of_cons. lia. }
  repeat (apply elem_of_cons in Hin as [->|Hin]);
    [(split; [by eexists _, _|intros r; reflexivity])..|].
  by apply elem_of_nil in Hin.
Qed.


(** What the two files hold, and what comes back. *)
Example DNN_save_read_layer_c :
  DNN_save [layer_c; layer_b]
  = "<sigmoid> 1 0 " +:+ nl +:+ " [" +:+ nl +:+ "  ]" +:+ nl
    +:+ "<bias> " +:+ nl +:+ " [ ]" +:+ nl
    +:+ "<softmax> 1 1 " +:+ nl +:+ " [" +:+ nl +:+ "  3 ]" +:+ nl
    +:+ "<bias> " +:+ nl +:+ " [1  ]" +:+ nl
  ∧ DNN_read (λ _, 0%N) (DNN_save [layer_c; layer_b])
    = Some [mkFT Sigmoid (Mat 2 1 [0; 0]%N) (Mat 2 1 [0; 0]%N);
            mkFT Softmax (Mat 2 2 [3; 1; 0; 0]%N) (Mat 2 2 [0; 0; 0; 0]%N)].
Proof. split; vm_compute; reflexivity. Qed.

(** * Properties of the rest of the code *)

(** ** The lifetime of the layers of a DNN *)

Section LifetimeFacts.
Context {T : Type}.
Implicit Types (h : heap T) (p q a : nat).

(** A loop that allocates one object per index and stores its address. *)
Lemma alloc_loop n (obj : nat → FeatureTransform T) (ts0 : list ptr) h0 :
  n ≤ length ts0 →
  ∃ qs h,
    for_ n (λ i '(ts, h), let '(q, h) := new_ (obj i) h in (<[i := q]> ts, h)) (ts0, h0)
    = ((Some <$> qs) ++ drop n ts0, h)
    ∧ length qs = n
    ∧ NoDup qs
    ∧ (∀ i q, qs !! i = Some q → h0 !! q = None ∧ h !! q = Some (obj i))
    ∧ (∀ a, a ∉ qs → h !! a = h0 !! a).
Proof.
  induction n as [|n IH]; intros Hn.
  - exists [], h0. rewrite for_0, drop_0. split_and!; try done. constructor.
  - destruct IH as (qs & h & Hloop & Hlen & Hnd & Hnew & Hold); [lia|].
    rewrite for_S, Hloop. unfold new_.
    set (q := fresh (dom h)).
    assert (h !! q = None) as Hq by apply not_elem_of_dom, is_fresh.
    assert (q ∉ qs) as Hqs.
    { intros [i Hi]%list_elem_of_lookup_1. destruct (Hnew i q Hi) as [_ E]. congruence. }
    exists (qs ++ [q]), (<[q := obj n]> h). split_and!.
    + f_equal. rewrite fmap_app, <- app_assoc. simpl.
      rewrite insert_app_r_alt by (rewrite length_fmap; lia).
      rewrite length_fmap, Hlen, Nat.sub_diag. f_equal.
      destruct (lookup_lt_is_Some_2 ts0 n) as [x Hx]; [lia|].
      rewrite (drop_S _ _ _ Hx). reflexivity.
    + rewrite length_app. simpl. lia.
    + apply NoDup_app. split_and!; [done| |apply NoDup_singleton].
      intros x Hx ->%list_elem_of_singleton. done.
    + intros i q' Hi. apply lookup_app_Some in Hi as [Hi|[Hi Hi']].
      * destruct (Hnew i q' Hi) as [H0 Hh]. split; [done|].
        rewrite lookup_insert_ne; [done|]. intros <-. congruence.
      * rewrite Hlen in Hi, Hi'. destruct (i - n) as [|k] eqn:E; [|done].
        injection Hi' as <-. assert (i = n) as -> by lia.
        rewrite lookup_insert_eq. split; [|done].
        rewrite <- (Hold q Hqs). done.
    + intros a Ha. rewrite not_elem_of_app, list_elem_of_singleton in Ha.
      destruct Ha as [Ha Hne]. rewrite lookup_insert_ne by done. by apply Hold.
Qed.

Lemma DNN_destroy_lookup (d : DNN T) h a :
  DNN_destroy d h !! a = if decide (Some a ∈ dnn_transforms d) then None else h !! a.
Proof.
  unfold DNN_destroy.
  assert (∀ n, n ≤ length (dnn_transforms d) →
            for_ n (λ i h, delete_ (dnn_transforms d !!! i) h) h !! a
            = if decide (Some a ∈ take n (dnn_transforms d)) then None else h !! a) as Hn.
  { induction n as [|n IH]; intros Hle.
    - rewrite for_0, take_0. by rewrite decide_False by apply not_elem_of_nil.
    - rewrite for_S.
      destruct (lookup_lt_is_Some_2 (dnn_transforms d) n) as [pt Hpt]; [lia|].
      rewrite (list_lookup_total_correct _ _ _ Hpt), (take_S_r _ _ _ Hpt).
      specialize (IH ltac:(lia)).
      destruct pt as [p|]; simpl.
      + destruct (decide (p = a)) as [->|Hne].
        * rewrite lookup_delete_eq. rewrite decide_True; [done|].
          apply elem_of_app. right. by apply list_elem_of_singleton.
        * rewrite lookup_delete_ne by done. rewrite IH.
          apply decide_ext. rewrite elem_of_app, list_elem_of_singleton.
          split; [tauto|]. intros [?|[=]]; [done|]. congruence.
      + rewrite IH. apply decide_ext.
        rewrite elem_of_app, list_elem_of_singleton. split; [tauto|].
        intros [?|[=]]. done. }
  rewrite Hn by done. by rewrite firstn_all.
Qed.

(** With live source pointers the copy loop allocates the objects the
    source had at the start. *)
Lemma copy_loop_alloc (source : DNN T) h0 k :
  k ≤ length (dnn_transforms source) →
  Forall (λ pt, ∃ p, pt = Some p ∧ is_Some (h0 !! p)) (dnn_transforms source) →
  copy_loop source k h0
  = for_ k
      (λ i '(ts, h),
         let '(q, h) :=
           new_ (default inhabitant (dnn_transforms source !!! i ≫= (h0 !!.))) h in
         (<[i := q]> ts, h))
      (replicate (length (dnn_transforms source)) None, h0).
Proof.
  intros Hk Hsrc. induction k as [|k IH]; [done|].
  unfold copy_loop in *. rewrite !for_S, IH by lia.
  destruct (alloc_loop k
              (λ i, default inhabitant (dnn_transforms source !!! i ≫= (h0 !!.)))
              (replicate (length (dnn_transforms source)) None) h0)
    as (qs & h & -> & Hlen & Hnd & Hnew & Hold).
  { rewrite length_replicate. lia. }
  unfold clone. do 3 f_equal.
  destruct (lookup_lt_is_Some_2 (dnn_transforms source) k) as [pt Hpt]; [lia|].
  rewrite (list_lookup_total_correct _ _ _ Hpt).
  rewrite Forall_forall in Hsrc.
  destruct (Hsrc pt) as (p & -> & [x Hx]); [by eapply list_elem_of_lookup_2|].
  simpl. apply Hold. intros [i Hi]%list_elem_of_lookup_1.
  destruct (Hnew i p Hi). congruence.
Qed.

Lemma DNN_copy_alloc (Config_default : Config T) (source : DNN T) h0 :
  Forall (λ pt, ∃ p, pt = Some p ∧ is_Some (h0 !! p)) (dnn_transforms source) →
  ∃ qs h,
    DNN_copy Config_default source h0 = (mkDNN (Some <$> qs) Config_default, h)
    ∧ length qs = length (dnn_transforms source)
    ∧ NoDup qs
    ∧ (∀ i q, qs !! i = Some q →
         h0 !! q = None
         ∧ ∃ p, dnn_transforms source !! i = Some (Some p) ∧ h !! q = h0 !! p)
    ∧ (∀ a, a ∉ qs → h !! a = h0 !! a).
Proof.
  intros Hsrc.
  pose proof (copy_loop_alloc source h0 (length (dnn_transforms source))
                ltac:(done) Hsrc) as Hloop.
  destruct (alloc_loop (length (dnn_transforms source))
              (λ i, default inhabitant (dnn_transforms source !!! i ≫= (h0 !!.)))
              (replicate (length (dnn_transforms source)) None) h0)
    as (qs & h & Hall & Hlen & Hnd & Hnew & Hold).
  { by rewrite length_replicate. }
  rewrite Hall in Hloop.
  rewrite drop_ge, app_nil_r in Hloop by (rewrite length_replicate; lia).
  exists qs, h. unfold DNN_copy. unfold copy_loop in Hloop. rewrite Hloop.
  split_and!; [done..| |done].
  intros i q Hq. destruct (Hnew i q Hq) as [H0 Hh]. split; [done|].
  destruct (lookup_lt_is_Some_2 (dnn_transforms source) i) as [pt Hpt].
  { rewrite <- Hlen. by eapply lookup_lt_Some. }
  rewrite Forall_forall in Hsrc.
  destruct (Hsrc pt) as (p & -> & [x Hx]); [by eapply list_elem_of_lookup_2|].
  exists p. split; [done|].
  rewrite Hh, (list_lookup_total_correct _ _ _ Hpt). simpl. by rewrite Hx.
Qed.

(** X1: copying a DNN and destroying the copy leaves the store as it was:
    every object the copy constructor allocated is released by the
    destructor, and no layer of the source is. *)
Theorem DNN_copy_destroy (Config_default : Config T) (source : DNN T) h0 :
  Forall (λ pt, ∃ p, pt = Some p ∧ is_Some (h0 !! p)) (dnn_transforms source) →
  ∃ copy h,
    DNN_copy Config_default source h0 = (copy, h)
    ∧ DNN_destroy copy h = h0
    ∧ ∀ p, Some p ∈ dnn_transforms source → DNN_destroy copy h !! p = h0 !! p
                                            ∧ is_Some (h0 !! p).
Proof.
  intros Hsrc.
  destruct (DNN_copy_alloc Config_default source h0 Hsrc)
    as (qs & h & Hcopy & Hlen & Hnd & Hnew & Hold).
  eexists _, h. split; [exact Hcopy|].
  assert (DNN_destroy (mkDNN (Some <$> qs) Config_default) h = h0) as Heq.
  { apply map_eq. intros a. rewrite DNN_destroy_lookup. cbn [dnn_transforms].
    destruct (decide _) as [Hin|Hnot].
    - apply list_elem_of_fmap in Hin as (q & [= <-] & [i Hi]%list_elem_of_lookup_1).
      by destruct (Hnew i a Hi) as [-> _].
    - apply Hold. intros Hin. apply Hnot. by apply list_elem_of_fmap_2. }
  split; [exact Heq|]. intros p Hp. rewrite Heq. split; [done|].
  rewrite Forall_forall in Hsrc. by destruct (Hsrc _ Hp) as (? & [= <-] & ?).
Qed.

(** X2: after the assignment [this = source] the assigned DNN holds new
    clones of the layers of the source and the default configuration (not
    the configuration of the source); the layers it held before are
    released, and every other object of the store is left as it was. *)
Theorem DNN_assign_spec (Config_default : Config T) (this source : DNN T) h0 :
  Forall (λ pt, ∃ p, pt = Some p ∧ is_Some (h0 !! p)) (dnn_transforms source) →
  Forall (null_or_live h0) (dnn_transforms this) →
  ∃ this' h',
    DNN_assign Config_default this source h0 = (this', h')
    ∧ _config this' = Config_default
    ∧ length (dnn_transforms this') = length (dnn_transforms source)
    ∧ (∀ i p, dnn_transforms source !! i = Some (Some p) →
         ∃ q, dnn_transforms this' !! i = Some (Some q)
              ∧ h0 !! q = None ∧ h' !! q = h0 !! p)
    ∧ (∀ p, Some p ∈ dnn_transforms this → h' !! p = None)
    ∧ (∀ p, Some p ∉ dnn_transforms this → Some p ∉ dnn_transforms this' →
         h' !! p = h0 !! p).
Proof.
  intros Hsrc Hthis.
  destruct (DNN_copy_alloc Config_default source h0 Hsrc)
    as (qs & h & Hcopy & Hlen & Hnd & Hnew & Hold).
  unfold DNN_assign. rewrite Hcopy. cbn [DNN_swap dnn_transforms _config].
  eexists _, _. split; [reflexivity|]. cbn [dnn_transforms _config].
  assert (∀ q, q ∈ qs → Some q ∉ dnn_transforms this) as Hfresh.
  { intros q [i Hi]%list_elem_of_lookup_1 Hin. destruct (Hnew i q Hi) as [H0 _].
    rewrite Forall_forall in Hthis. destruct (Hthis _ Hin) as [x Hx]. congruence. }
  split_and!.
  - done.
  - by rewrite length_fmap.
  - intros i p Hp.
    destruct (lookup_lt_is_Some_2 qs i) as [q Hq].
    { rewrite Hlen. by eapply lookup_lt_Some. }
    destruct (Hnew i q Hq) as (H0 & p' & Hp' & Hh).
    rewrite Hp in Hp'. injection Hp' as <-.
    exists q. rewrite list_lookup_fmap, Hq. split_and!; [done..|].
    rewrite DNN_destroy_lookup. cbn [dnn_transforms].
    rewrite decide_False; [done|]. apply Hfresh. by eapply list_elem_of_lookup_2.
  - intros p Hp. rewrite DNN_destroy_lookup. cbn [dnn_transforms].
    by rewrite decide_True.
  - intros p Hp Hp'. rewrite DNN_destroy_lookup. cbn [dnn_transforms].
    rewrite decide_False by done. apply Hold.
    intros Hin. apply Hp'. by apply list_elem_of_fmap_2.
Qed.

(** X3: [init] from a non-empty list of weight matrices gives a DNN with one
    new layer per matrix, holding that matrix: sigmoid layers and, last, a
    softmax layer. One more object is allocated than the DNN holds: the
    [Sigmoid] first built for the last matrix stays in the store with no
    pointer to it. Nothing that was in the store before is released or
    changed. *)
Theorem DNN_init_weights_spec (junk : nat → T) (weights : list (mat T))
    (d : DNN T) h0 :
  weights ≠ [] →
  ∃ qs a h,
    DNN_init_weights junk weights d h0 = (mkDNN (Some <$> qs) (_config d), h)
    ∧ length qs = length weights
    ∧ NoDup (a :: qs)
    ∧ (∀ i q, qs !! i = Some q →
         h0 !! q = None
         ∧ h !! q = Some (FeatureTransform_of junk
                            (if decide (i = length weights - 1) then Softmax else Sigmoid)
                            (weights !!! i)))
    ∧ h0 !! a = None
    ∧ h !! a = Some (FeatureTransform_of junk Sigmoid (weights !!! (length weights - 1)))
    ∧ (∀ b, b ∉ a :: qs → h !! b = h0 !! b).
Proof.
  intros Hne. unfold DNN_init_weights.
  rewrite length_resize.
  destruct (alloc_loop (length weights)
              (λ i, FeatureTransform_of junk Sigmoid (weights !!! i))
              (resize (length weights) None (dnn_transforms d)) h0)
    as (qs0 & h1 & -> & Hlen & Hnd & Hnew & Hold).
  { by rewrite length_resize. }
  rewrite drop_ge, app_nil_r by (rewrite length_resize; lia).
  unfold new_. set (q := fresh (dom h1)).
  assert (h1 !! q = None) as Hq by apply not_elem_of_dom, is_fresh.
  assert (q ∉ qs0) as Hqs.
  { intros [i Hi]%list_elem_of_lookup_1. destruct (Hnew i q Hi) as [_ E]. congruence. }
  destruct qs0 as [|a qs' _] using rev_ind.
  { destruct weights; [done|]. simpl in Hlen. lia. }
  rewrite length_app in Hlen. simpl in Hlen.
  assert (length weights - 1 = length qs') as Hlast by lia.
  rewrite Hlast.
  apply NoDup_app in Hnd as (Hnd' & Hdisj & _).
  assert (a ∉ qs') as Ha.
  { intros Hin. apply (Hdisj a Hin). by apply list_elem_of_singleton. }
  rewrite not_elem_of_app, list_elem_of_singleton in Hqs. destruct Hqs as [Hqs Hqa].
  exists (qs' ++ [q]), a, (<[q := FeatureTransform_of junk Softmax (weights !!! length qs')]> h1).
  split_and!.
  - f_equal. f_equal. rewrite !fmap_app, length_app, length_fmap. simpl.
    replace (length qs' + 1 - 1) with (length qs') by lia.
    rewrite insert_app_r_alt by (rewrite length_fmap; lia).
    by rewrite length_fmap, Nat.sub_diag.
  - rewrite length_app. simpl. lia.
  - apply NoDup_cons. split.
    + rewrite not_elem_of_app, list_elem_of_singleton. split; [done|congruence].
    + apply NoDup_app. split_and!; [done| |apply NoDup_singleton].
      intros x Hx ->%list_elem_of_singleton. done.
  - intros i q' Hq'. apply lookup_app_Some in Hq' as [Hi|[Hi Hi']].
    + destruct (Hnew i q') as [H0 Hh]; [by apply lookup_app_l_Some|].
      split; [done|]. rewrite lookup_insert_ne.
      * rewrite Hh. rewrite decide_False; [done|]. apply lookup_lt_Some in Hi. lia.
      * intros <-. apply Hqs. by eapply list_elem_of_lookup_2.
    + destruct (i - length qs') as [|k] eqn:E; [|done]. injection Hi' as <-.
      assert (i = length qs') as -> by lia.
      rewrite lookup_insert_eq, decide_True by done. split; [|done].
      rewrite <- Hq. symmetry. apply Hold.
      rewrite not_elem_of_app, list_elem_of_singleton. done.
  - apply (Hnew (length qs') a). by rewrite lookup_app_r, Nat.sub_diag.
  - rewrite lookup_insert_ne by congruence.
    apply (Hnew (length qs') a). by rewrite lookup_app_r, Nat.sub_diag.
  - intros b Hb. rewrite not_elem_of_cons, not_elem_of_app, list_elem_of_singleton in Hb.
    destruct Hb as (Hba & Hb' & Hbq). rewrite lookup_insert_ne by done.
    apply Hold. rewrite not_elem_of_app, list_elem_of_singleton. done.
Qed.

(** X4: [init] from the layer sizes [dims] fails its assertion on an empty
    list. Otherwise the DNN gets one new layer per pair of consecutive
    sizes, so that [getNLayer] is the number of sizes (a single size gives
    a DNN without layers); layer i is built for dims[i] + 1 rows and
    dims[i+1] + 1 columns with the variance of the configuration, and
    exactly the last layer is a softmax layer. *)
Theorem DNN_init_dims_spec
    (random_layer : nat → TransformType → nat → nat → T → FeatureTransform T)
    (dims : list nat) (d : DNN T) h0 :
  match dims with
  | [] => DNN_init_dims random_layer dims d h0 = AssertFail
  | _ =>
      ∃ qs h,
        DNN_init_dims random_layer dims d h0 = Ok (mkDNN (Some <$> qs) (_config d), h)
        ∧ DNN_getNLayer (mkDNN (Some <$> qs) (_config d)) = length dims
        ∧ NoDup qs
        ∧ (∀ i q, qs !! i = Some q →
             h0 !! q = None
             ∧ h !! q = Some (random_layer i
                                (if decide (i + 2 = length dims) then Softmax else Sigmoid)
                                (dims !!! i + 1) (dims !!! (i + 1) + 1)
                                (variance (_config d))))
        ∧ (∀ a, a ∉ qs → h !! a = h0 !! a)
  end.
Proof.
  destruct dims as [|d0 dims']; [done|].
  set (dims := d0 :: dims'). unfold DNN_init_dims.
  change (negb (0 <? length dims)) with false. cbn iota.
  set (L := length dims - 1).
  set (obj := λ i, random_layer i (if decide (i + 2 = length dims) then Softmax else Sigmoid)
                     (dims !!! i + 1) (dims !!! (i + 1) + 1) (variance (_config d))).
  rewrite (for_ext L _
             (λ i '(ts, h), let '(q, h) := new_ (obj i) h in (<[i := q]> ts, h))).
  2:{ intros i [ts h] Hi. unfold obj.
      destruct (Nat.eqb_spec i (L - 1)) as [E|E].
      - rewrite decide_True; [done|]. subst L. simpl in *. lia.
      - rewrite decide_False; [done|]. subst L. simpl in *. lia. }
  destruct (alloc_loop L obj (resize L None (dnn_transforms d)) h0)
    as (qs & h & -> & Hlen & Hnd & Hnew & Hold).
  { by rewrite length_resize. }
  rewrite drop_ge, app_nil_r by (rewrite length_resize; lia).
  exists qs, h. split_and!; [done| |done..].
  unfold DNN_getNLayer. cbn [dnn_transforms]. rewrite length_fmap, Hlen.
  subst L. simpl. lia.
Qed.
End LifetimeFacts.

(** The copy of [dnn_src] is destroyed again. *)
Lemma DNN_copy_destroy_witness :
  Forall (λ pt, ∃ p, pt = Some p ∧ is_Some (h_src !! p)) (dnn_transforms dnn_src)
  ∧ ∃ copy h, DNN_copy (mkConfig 1%Q 1%Q) dnn_src h_src = (copy, h)
              ∧ DNN_destroy copy h = h_src.
Proof.
  assert (Forall (λ pt, ∃ p, pt = Some p ∧ is_Some (h_src !! p))
            (dnn_transforms dnn_src)) as Hsrc.
  { repeat constructor; eexists; (split; [reflexivity|]); vm_compute; eauto. }
  split; [exact Hsrc|].
  destruct (DNN_copy_destroy (mkConfig 1%Q 1%Q) dnn_src h_src Hsrc)
    as (copy & h & Hcopy & Hd & _).
  by exists copy, h.
Defined.

(** [dnn_other = dnn_src] in the store [h_two]. *)
Lemma DNN_assign_spec_witness :
  Forall (λ pt, ∃ p, pt = Some p ∧ is_Some (h_two !! p)) (dnn_transforms dnn_src)
  ∧ Forall (null_or_live h_two) (dnn_transforms dnn_other)
  ∧ ∃ this' h', DNN_assign (mkConfig 1%Q 1%Q) dnn_other dnn_src h_two = (this', h')
                ∧ _config this' = mkConfig 1%Q 1%Q
                ∧ h' !! 2 = None.
Proof.
  assert (Forall (λ pt, ∃ p, pt = Some p ∧ is_Some (h_two !! p))
            (dnn_transforms dnn_src)) as Hsrc.
  { repeat constructor; eexists; (split; [reflexivity|]); vm_compute; eauto. }
  assert (Forall (null_or_live h_two) (dnn_transforms dnn_other)) as Hthis.
  { repeat constructor. vm_compute. eauto. }
  split; [exact Hsrc|]. split; [exact Hthis|].
  destruct (DNN_assign_spec (mkConfig 1%Q 1%Q) dnn_other dnn_src h_two Hsrc Hthis)
    as (this' & h' & Heq & Hcfg & _ & _ & Hdel & _).
  exists this', h'. split_and!; [done..|].
  apply Hdel. repeat constructor.
Defined.

(** [init] from the one weight matrix [W0]. *)
Lemma DNN_init_weights_spec_witness :
  [W0] ≠ []
  ∧ ∃ qs a h,
      DNN_init_weights (λ _, 0%Q) [W0] dnn_src h_src
      = (mkDNN (Some <$> qs) (_config dnn_src), h)
      ∧ length qs = 1 ∧ NoDup (a :: qs).
Proof.
  assert ([W0] ≠ []) as Hne by done.
  split; [exact Hne|].
  destruct (DNN_init_weights_spec (λ _, 0%Q) [W0] dnn_src h_src Hne)
    as (qs & a & h & Heq & Hlen & Hnd & _).
  by exists qs, a, h.
Defined.

(** ** The phase counter across DNN objects *)

Lemma sum_list_alter_S (ks : list nat) i :
  i < length ks → sum_list (alter S i ks) = S (sum_list ks).
Proof.
  revert i. induction ks as [|k ks IH]; intros i Hi; simpl in *; [lia|].
  destruct i as [|i]; simpl; [done|].
  change (list_alter S i ks) with (alter S i ks). rewrite IH by lia. lia.
Qed.

Section SharedPhaseFacts.
Context {T : Type} `{Arith T}.

(** X5: in a process with several DNN objects the learning rates are
    multiplied by 0.9 at most six times in total, whatever the calls and
    the objects they are made on: the phase counter is shared, it advances
    by one with every multiplication and stops at 6. Object i ends with its
    learning rate multiplied [ks !!! i] times, the counts adding up to the
    advance of the counter; no variance changes. *)
Theorem adjustLearningRate_shared_phase (calls : list (nat * T)) (phase : nat)
    (configs : list (Config T)) :
  ∃ phase' configs' ks,
    adjustLearningRate_process calls (phase, configs) = (phase', configs')
    ∧ length configs' = length configs
    ∧ length ks = length configs
    ∧ phase' = phase + sum_list ks
    ∧ (phase ≤ 6 → phase' ≤ 6)
    ∧ ∀ i c, configs !! i = Some c →
        configs' !! i
        = Some (mkConfig (decayed (ks !!! i) (learningRate c)) (variance c)).
Proof.
  induction calls as [|[i acc] calls IH] using rev_ind.
  - exists phase, configs, (replicate (length configs) 0).
    split_and!; [done|done|by rewrite length_replicate| |done|].
    + assert (∀ n, sum_list (replicate n 0) = 0) as ->; [|lia].
      induction n; simpl; lia.
    + intros i c Hc.
      rewrite lookup_total_replicate_2 by (by eapply lookup_lt_Some).
      simpl. rewrite Hc. by destruct c.
  - destruct IH as (phase1 & configs1 & ks & Hrun & Hlen & Hks & Hph & Hle & Hcfg).
    unfold adjustLearningRate_process in *. rewrite foldl_snoc, Hrun.
    unfold adjustLearningRate_on. cbn [fst snd].
    destruct (configs1 !! i) as [c1|] eqn:Hc1.
    2:{ exists phase1, configs1, ks. done. }
    assert (i < length configs) as Hi.
    { rewrite <- Hlen. by eapply lookup_lt_Some. }
    destruct (adjustLearningRate_cases acc phase1 c1) as [->|[Hlt ->]].
    + exists phase1, configs1, ks. split_and!; try done.
      * f_equal. by apply list_insert_id.
    + exists (phase1 + 1), (<[i := mkConfig (fmul (learningRate c1) (of_lit 0.9))
                                     (variance c1)]> configs1), (alter S i ks).
      split_and!.
      * done.
      * by rewrite length_insert.
      * by rewrite length_alter.
      * rewrite sum_list_alter_S by lia. lia.
      * intros _. lia.
      * intros j c Hc. destruct (decide (j = i)) as [->|Hne].
        -- rewrite list_lookup_insert_eq by lia.
           rewrite (Hcfg i c Hc) in Hc1. injection Hc1 as <-. cbn [learningRate variance].
           do 2 f_equal.
           destruct (lookup_lt_is_Some_2 ks i) as [k Hk]; [lia|].
           rewrite (list_lookup_total_correct _ _ _ Hk).
           erewrite list_lookup_total_correct; [|by rewrite list_lookup_alter_eq, Hk].
           reflexivity.
        -- rewrite list_lookup_insert_ne by done. rewrite (Hcfg j c Hc).
           do 3 f_equal. symmetry. apply list_lookup_total_alter_ne. done.
Qed.

(** X6: once a call on one DNN has taken a threshold, the same accuracy on
    another DNN of the process does not change that DNN's learning rate:
    an accuracy above 0.80 and not above 0.85 multiplies the learning rate
    of the first object it is reported for, and of no object after
    that. *)
Theorem adjustLearningRate_second_object (acc : T) (cA cB : Config T) :
  fltb (of_lit 0.80) acc = true → fltb (of_lit 0.85) acc = false →
  adjustLearningRate_process [(0, acc); (1, acc)] (0, [cA; cB])
  = (1, [mkConfig (fmul (learningRate cA) (of_lit 0.9)) (variance cA); cB])
  ∧ adjustLearningRate_process [(1, acc)] (0, [cA; cB])
    = (1, [cA; mkConfig (fmul (learningRate cB) (of_lit 0.9)) (variance cB)]).
Proof.
  intros H80 H85. unfold adjustLearningRate_process, adjustLearningRate_on.
  cbn [foldl fst snd]. split.
  - change ([cA; cB] !! 0) with (Some cA). cbv iota.
    rewrite adjustLearningRate_step.
    change (thresholds !! 0) with (Some 0.80%Q). cbv iota. rewrite H80.
    cbn [fst snd insert list_insert lookup list_lookup]. cbv iota.
    rewrite adjustLearningRate_step.
    change (thresholds !! (0 + 1)) with (Some 0.85%Q). cbv iota. rewrite H85.
    reflexivity.
  - change ([cA; cB] !! 1) with (Some cB). cbv iota.
    rewrite adjustLearningRate_step.
    change (thresholds !! 0) with (Some 0.80%Q). cbv iota. rewrite H80.
    reflexivity.
Qed.
End SharedPhaseFacts.

(** The accuracy 0.82 is reported for two DNN objects. *)
Lemma adjustLearningRate_second_object_witness :
  fltb (of_lit 0.80) (0.82)%Q = true ∧ fltb (of_lit 0.85) (0.82)%Q = false
  ∧ adjustLearningRate_process [(0, 0.82%Q); (1, 0.82%Q)] (0, [config1; config1])
    = (1, [mkConfig (fmul (learningRate config1) (of_lit 0.9)) (variance config1);
           config1]).
Proof.
  assert (fltb (of_lit 0.80) (0.82)%Q = true) as H80 by reflexivity.
  assert (fltb (of_lit 0.85) (0.82)%Q = false) as H85 by reflexivity.
  split; [exact H80|]. split; [exact H85|].
  apply (adjustLearningRate_second_object 0.82%Q config1 config1 H80 H85).
Defined.

(** ** Cells of a matrix *)

Section Cells.
Context {T : Type} `{Arith T}.

Lemma cell_lt rows cols r c : r < rows → c < cols → c * rows + r < rows * cols.
Proof.
  intros Hr Hc. pose proof (Nat.mul_le_mono_r (S c) cols rows ltac:(lia)). simpl in *. lia.
Qed.

Lemma cell_inj rows r c r' c' :
  r < rows → r' < rows → c * rows + r = c' * rows + r' → r = r' ∧ c = c'.
Proof.
  intros Hr Hr' E. destruct (Nat.lt_trichotomy c c') as [Hlt|[->|Hlt]].
  - pose proof (Nat.mul_le_mono_r (S c) c' rows ltac:(lia)). simpl in *. lia.
  - lia.
  - pose proof (Nat.mul_le_mono_r (S c') c rows ltac:(lia)). simpl in *. lia.
Qed.

Lemma lookup_cell (A : mat T) r c :
  wf A → r < getRows A → c < getCols A →
  getData A !! (c * getRows A + r) = Some (get A r c).
Proof.
  intros Hwf Hr Hc. unfold get.
  destruct (lookup_lt_is_Some_2 (getData A) (c * getRows A + r)) as [x Hx].
  { rewrite Hwf. by apply cell_lt. }
  by rewrite Hx, (list_lookup_total_correct _ _ _ Hx).
Qed.

Lemma get_eq_Some (A : mat T) r c x :
  getData A !! (c * getRows A + r) = Some x → get A r c = x.
Proof. intros Hx. unfold get. by apply list_lookup_total_correct. Qed.

(** A loop that rewrites one cell per iteration, the cells being
    distinct. *)
Lemma lookup_for_alter_hit {A} n (idx : nat → nat) (g : nat → A → A) (l : list A) k :
  (∀ k k', k < n → k' < n → idx k = idx k' → k = k') →
  k < n →
  for_ n (λ k, alter (g k) (idx k)) l !! idx k = g k <$> l !! idx k.
Proof.
  intros Hinj. induction n as [|n IH]; intros Hk; [lia|].
  rewrite for_S. destruct (decide (k = n)) as [->|Hne].
  - rewrite list_lookup_alter_eq. f_equal.
    clear IH. assert (∀ m, m ≤ n →
      for_ m (λ k, alter (g k) (idx k)) l !! idx n = l !! idx n) as Hm; [|by apply Hm].
    induction m as [|m IHm]; intros Hle; [done|].
    rewrite for_S, list_lookup_alter_ne; [apply IHm; lia|].
    intros E. apply Hinj in E; lia.
  - rewrite list_lookup_alter_ne.
    + apply IH; [|lia]. intros; apply Hinj; lia.
    + intros E. apply Hinj in E; lia.
Qed.

Lemma lookup_for_alter_miss {A} n (idx : nat → nat) (g : nat → A → A) (l : list A) p :
  (∀ k, k < n → idx k ≠ p) →
  for_ n (λ k, alter (g k) (idx k)) l !! p = l !! p.
Proof.
  induction n as [|n IH]; intros Hp; [done|].
  rewrite for_S, list_lookup_alter_ne by (apply Hp; lia). apply IH. intros; apply Hp; lia.
Qed.

Lemma length_for_alter_idx {A} n (idx : nat → nat) (g : nat → A → A) (l : list A) :
  length (for_ n (λ k, alter (g k) (idx k)) l) = length l.
Proof. induction n as [|n IH]; [done|]. by rewrite for_S, length_alter. Qed.

(** The same for a loop that stores a value per iteration. *)
Lemma lookup_for_insert_hit {A} n (idx : nat → nat) (v : nat → A) (l : list A) k :
  (∀ k k', k < n → k' < n → idx k = idx k' → k = k') →
  k < n → idx k < length l →
  for_ n (λ k l, <[idx k := v k]> l) l !! idx k = Some (v k).
Proof.
  intros Hinj Hk Hlt.
  rewrite (for_ext n _ (λ k, alter (λ _, v k) (idx k))).
  - rewrite lookup_for_alter_hit by done.
    destruct (lookup_lt_is_Some_2 l (idx k) Hlt) as [x ->]. done.
  - intros i s _. apply list_eq. intros p.
    destruct (decide (p = idx i)) as [->|Hne].
    + rewrite list_lookup_alter_eq. destruct (decide (idx i < length s)).
      * rewrite list_lookup_insert_eq by done.
        by destruct (lookup_lt_is_Some_2 s (idx i)) as [x ->].
      * rewrite !lookup_ge_None_2; [done|lia|rewrite length_insert; lia].
    + by rewrite list_lookup_insert_ne, list_lookup_alter_ne.
Qed.

Lemma lookup_for_insert_miss {A} n (idx : nat → nat) (v : nat → A) (l : list A) p :
  (∀ k, k < n → idx k ≠ p) →
  for_ n (λ k l, <[idx k := v k]> l) l !! p = l !! p.
Proof.
  induction n as [|n IH]; intros Hp; [done|].
  rewrite for_S, list_lookup_insert_ne by (apply Hp; lia). apply IH. intros; apply Hp; lia.
Qed.

Lemma length_for_insert_idx {A} n (idx : nat → nat) (v : nat → A) (l : list A) :
  length (for_ n (λ k l, <[idx k := v k]> l) l) = length l.
Proof. induction n as [|n IH]; [done|]. by rewrite for_S, length_insert. Qed.

(** Two nested loops that store one value per pair of indices. *)
Lemma length_for_for_insert {A} n m (idx : nat → nat → nat) (v : nat → nat → A)
    (l : list A) :
  length (for_ n (λ j, for_ m (λ i l, <[idx j i := v j i]> l)) l) = length l.
Proof.
  induction n as [|n IH]; [done|]. by rewrite for_S, length_for_insert_idx.
Qed.

Lemma lookup_for_for_insert_miss {A} n m (idx : nat → nat → nat) (v : nat → nat → A)
    (l : list A) p :
  (∀ j i, j < n → i < m → idx j i ≠ p) →
  for_ n (λ j, for_ m (λ i l, <[idx j i := v j i]> l)) l !! p = l !! p.
Proof.
  induction n as [|n IH]; intros Hp; [done|].
  rewrite for_S, lookup_for_insert_miss by (intros; apply Hp; lia).
  apply IH. intros; apply Hp; lia.
Qed.

Lemma lookup_for_for_insert_hit {A} n m (idx : nat → nat → nat) (v : nat → nat → A)
    (l : list A) j i :
  (∀ j i j' i', j < n → i < m → j' < n → i' < m →
     idx j i = idx j' i' → j = j' ∧ i = i') →
  j < n → i < m → idx j i < length l →
  for_ n (λ j, for_ m (λ i l, <[idx j i := v j i]> l)) l !! idx j i = Some (v j i).
Proof.
  intros Hinj. induction n as [|n IH]; intros Hj Hi Hlt; [lia|].
  rewrite for_S. destruct (decide (j = n)) as [->|Hne].
  - apply (lookup_for_insert_hit m (idx n) (v n)); [|done|].
    + intros k k' Hk Hk' E. by destruct (Hinj n k n k'); try lia.
    + by rewrite length_for_for_insert.
  - rewrite lookup_for_insert_miss.
    + apply IH; [|lia|done..]. intros; apply Hinj; lia.
    + intros k Hk E. destruct (Hinj n k j i); try lia.
Qed.
End Cells.

(** ** The helpers of [feature-transform.h] *)

Section FeatureTransformFacts.
Context {T : Type} `{Arith T} `{Activation T}.

(** X7: [A & B] fails its assertion exactly when the shapes differ;
    otherwise it is the matrix of the shape of A whose entries are the
    products of the entries of A and B. *)
Theorem operator_and_spec (A B : mat T) :
  (operator_and A B = AssertFail
   ↔ ¬ (getRows A = getRows B ∧ getCols A = getCols B))
  ∧ (getRows A = getRows B → getCols A = getCols B → wf A → wf B →
     ∃ C, operator_and A B = Ok C
          ∧ getRows C = getRows A ∧ getCols C = getCols A ∧ wf C
          ∧ ∀ r c, r < getRows A → c < getCols A →
              get C r c = fmul (get A r c) (get B r c)).
Proof.
  unfold operator_and. split.
  - destruct (Nat.eqb_spec (getRows A) (getRows B)),
      (Nat.eqb_spec (getCols A) (getCols B)); simpl; split; try done; try tauto.
  - intros Hr Hc HA HB.
    assert (negb ((getRows A =? getRows B) && (getCols A =? getCols B)) = false) as ->.
    { by rewrite Hr, Hc, !Nat.eqb_refl. }
    eexists. split; [reflexivity|]. split_and!; [done..| |].
    + unfold wf, mat_and, transform2, mat_size in *. simpl.
      rewrite length_zip_with, HA, HB. rewrite Hr, Hc. lia.
    + intros r c Hr' Hc'. unfold mat_and, transform2.
      apply get_eq_Some. simpl. rewrite lookup_zip_with.
      rewrite (lookup_cell A r c) by done. simpl.
      rewrite Hr. rewrite (lookup_cell B r c) by (done || lia). done.
Qed.

Lemma wf_fillLastColumnWith (A : mat T) (value : T) :
  wf A → 1 ≤ getCols A → wf (fillLastColumnWith A value).
Proof.
  intros Hwf Hc. unfold fillLastColumnWith, wf, mat_size in *. simpl.
  rewrite length_app, length_take, length_replicate, Hwf. nia.
Qed.

Lemma get_fillLastColumnWith (A : mat T) (value : T) r c :
  wf A → r < getRows A → c < getCols A →
  get (fillLastColumnWith A value) r c
  = if decide (c = getCols A - 1) then value else get A r c.
Proof.
  intros Hwf Hr Hc'. unfold fillLastColumnWith.
  assert (mat_size A - getRows A = (getCols A - 1) * getRows A) as Hsz.
  { unfold mat_size. nia. }
  apply get_eq_Some. simpl. rewrite Hsz.
  destruct (decide (c = getCols A - 1)) as [->|Hne].
  - rewrite lookup_app_r by (rewrite length_take; unfold wf, mat_size in Hwf; nia).
    rewrite length_take, Hwf. unfold mat_size.
    rewrite lookup_replicate_2; [done|]. nia.
  - rewrite lookup_app_l by (rewrite length_take, Hwf; unfold mat_size; nia).
    rewrite lookup_take_lt by nia. by apply lookup_cell.
Qed.

(** X8: [fillLastColumnWith] of a matrix with at least one column sets
    every entry of the last column to the value and keeps every other
    entry; filling twice is filling with the second value. *)
Theorem fillLastColumnWith_spec (A : mat T) (value : T) :
  wf A → 1 ≤ getCols A →
  wf (fillLastColumnWith A value)
  ∧ getRows (fillLastColumnWith A value) = getRows A
  ∧ getCols (fillLastColumnWith A value) = getCols A
  ∧ (∀ r c, r < getRows A → c < getCols A →
       get (fillLastColumnWith A value) r c
       = if decide (c = getCols A - 1) then value else get A r c)
  ∧ ∀ value', fillLastColumnWith (fillLastColumnWith A value') value
              = fillLastColumnWith A value.
Proof.
  intros Hwf Hc. split_and!; [by apply wf_fillLastColumnWith|done|done| |].
  - intros r c Hr Hc'. by apply get_fillLastColumnWith.
  - intros value'. unfold fillLastColumnWith. cbn [getRows getCols getData]. f_equal.
    assert (mat_size (Mat (getRows A) (getCols A)
              (take (mat_size A - getRows A) (getData A) ++ replicate (getRows A) value'))
            = mat_size A) as -> by done.
    rewrite take_app_length'; [done|].
    rewrite length_take, Hwf. lia.
Qed.

(** X9: [ext::b_sigmoid(x)] has one column more than [x]; its entries are
    the sigmoid of the entries of [x] and, in the added column, 1. Nothing
    of the fresh storage is left in it. *)
Theorem b_sigmoid_spec (fresh : nat → T) (x : mat T) :
  wf x →
  wf (b_sigmoid fresh x)
  ∧ getRows (b_sigmoid fresh x) = getRows x
  ∧ getCols (b_sigmoid fresh x) = getCols x + 1
  ∧ (∀ r c, r < getRows x → c ≤ getCols x →
       get (b_sigmoid fresh x) r c
       = if decide (c = getCols x) then fone else sigmoid (get x r c))
  ∧ ∀ fresh', b_sigmoid fresh' x = b_sigmoid fresh x.
Proof.
  intros Hwf.
  assert (∀ f, b_sigmoid f x
               = Mat (getRows x) (getCols x + 1)
                   ((sigmoid <$> getData x) ++ replicate (getRows x) fone)) as Heq.
  { intros f. unfold b_sigmoid, fillLastColumnWith, thrust_transform, device_matrix.
    cbn [getRows getCols getData]. f_equal.
    assert (mat_size (Mat (getRows x) (getCols x + 1)
              ((sigmoid <$> take (mat_size x) (getData x))
               ++ drop (mat_size x) (f <$> seq 0 (getRows x * (getCols x + 1)))))
            - getRows x = mat_size x) as ->.
    { unfold mat_size. simpl. nia. }
    rewrite <- Hwf, firstn_all.
    rewrite take_app_length' by (by rewrite length_fmap). done. }
  rewrite Heq. split_and!; [|done|done| |].
  - unfold wf, mat_size in *. simpl.
    rewrite length_app, length_fmap, length_replicate, Hwf. nia.
  - intros r c Hr Hc. apply get_eq_Some. simpl.
    destruct (decide (c = getCols x)) as [->|Hne].
    + rewrite lookup_app_r by (rewrite length_fmap, Hwf; unfold mat_size; nia).
      rewrite length_fmap, Hwf. unfold mat_size.
      rewrite lookup_replicate_2; [done|]. nia.
    + rewrite lookup_app_l by (rewrite length_fmap, Hwf; unfold mat_size; nia).
      rewrite list_lookup_fmap, lookup_cell by (done || lia). done.
  - intros f. by rewrite !Heq.
Qed.

(** X10: [memcpy2D] of a block that lies inside both matrices writes 1.0
    times the block of [src] at (r0, c0) over the block of [dest] at
    (r1, c1) and leaves every entry of [dest] outside that block as it
    was. *)
Theorem memcpy2D_spec (dest src : mat T) (r0 c0 h w r1 c1 : nat) :
  wf dest → wf src →
  r0 + h ≤ getRows src → c0 + w ≤ getCols src →
  r1 + h ≤ getRows dest → c1 + w ≤ getCols dest →
  wf (memcpy2D dest src r0 c0 h w r1 c1)
  ∧ getRows (memcpy2D dest src r0 c0 h w r1 c1) = getRows dest
  ∧ getCols (memcpy2D dest src r0 c0 h w r1 c1) = getCols dest
  ∧ ∀ r c, r < getRows dest → c < getCols dest →
      get (memcpy2D dest src r0 c0 h w r1 c1) r c
      = if decide ((r1 ≤ r < r1 + h) ∧ (c1 ≤ c < c1 + w))
        then fmul fone (get src (r0 + (r - r1)) (c0 + (c - c1)))
        else get dest r c.
Proof.
  intros Hd Hs Hr0 Hc0 Hr1 Hc1. unfold memcpy2D, cublas_geam.
  set (idx := λ j i, c1 * getRows dest + r1 + (j * getRows dest + i)).
  set (v := λ j i, fmul fone (getData src !!! (c0 * getRows src + r0 + (j * getRows src + i)))).
  assert (∀ j i, idx j i = (c1 + j) * getRows dest + (r1 + i)) as Hidx.
  { intros. unfold idx. lia. }
  assert (∀ j i j' i', j < w → i < h → j' < w → i' < h →
            idx j i = idx j' i' → j = j' ∧ i = i') as Hinj.
  { intros j i j' i' Hj Hi Hj' Hi'. rewrite !Hidx. intros E.
    apply cell_inj in E; lia. }
  split_and!; [|done|done|].
  - unfold wf, mat_size in *. simpl.
    by rewrite (length_for_for_insert w h idx v).
  - intros r c Hr Hc. apply get_eq_Some. cbn [getData getRows].
    destruct (decide ((r1 ≤ r < r1 + h) ∧ (c1 ≤ c < c1 + w))) as [[Hrr Hcc]|Hout].
    + replace (c * getRows dest + r) with (idx (c - c1) (r - r1))
        by (rewrite Hidx; f_equal; [f_equal|]; lia).
      rewrite (lookup_for_for_insert_hit w h idx v); [|done|lia|lia|].
      * f_equal. unfold v, get. do 2 f_equal. lia.
      * rewrite Hidx, Hd. apply cell_lt; lia.
    + rewrite (lookup_for_for_insert_miss w h idx v).
      * by apply lookup_cell.
      * intros j i Hj Hi. rewrite Hidx. intros E.
        apply cell_inj in E; [|lia|lia]. apply Hout. lia.
Qed.

(** X11: [add_bias(A)] has one column more than A; its leading columns are
    1.0 times the entries of A, and an entry of the added column is what
    the constructor of the new matrix left there, plus 1.0. *)
Theorem add_bias_spec (fresh : nat → T) (A : mat T) :
  wf A →
  wf (add_bias fresh A)
  ∧ getRows (add_bias fresh A) = getRows A
  ∧ getCols (add_bias fresh A) = getCols A + 1
  ∧ ∀ r c, r < getRows A → c ≤ getCols A →
      get (add_bias fresh A) r c
      = if decide (c = getCols A)
        then fadd (fresh (getCols A * getRows A + r)) fone
        else fmul fone (get A r c).
Proof.
  intros HA. unfold add_bias, cublas_geam, madd_scalar, transform, device_matrix.
  cbn [getRows getCols getData].
  set (B := (λ x, fadd x fone) <$> (fresh <$> seq 0 (getRows A * (getCols A + 1)))).
  set (idx := λ j i, 0 + (j * getRows A + i)).
  set (v := λ j i, fmul fone (getData A !!! (0 + (j * getRows A + i)))).
  assert (length B = getRows A * (getCols A + 1)) as HB.
  { unfold B. by rewrite !length_fmap, length_seq. }
  assert (∀ j i j' i', j < getCols A → i < getRows A → j' < getCols A → i' < getRows A →
            idx j i = idx j' i' → j = j' ∧ i = i') as Hinj.
  { intros j i j' i' Hj Hi Hj' Hi'. unfold idx. intros E.
    apply cell_inj in E; lia. }
  split_and!; [|done|done|].
  - unfold wf, mat_size. simpl.
    by rewrite (length_for_for_insert (getCols A) (getRows A) idx v).
  - intros r c Hr Hc. apply get_eq_Some. cbn [getData getRows].
    destruct (decide (c = getCols A)) as [->|Hne].
    + rewrite (lookup_for_for_insert_miss (getCols A) (getRows A) idx v).
      * unfold B. rewrite !list_lookup_fmap, lookup_seq_lt; [done|].
        pose proof (cell_lt (getRows A) (getCols A + 1) r (getCols A)). lia.
      * intros j i Hj Hi. unfold idx. intros E.
        apply cell_inj in E; lia.
    + replace (c * getRows A + r) with (idx c r) by (unfold idx; lia).
      rewrite (lookup_for_for_insert_hit (getCols A) (getRows A) idx v); [done|done|lia|done|].
      unfold idx. rewrite HB.
      pose proof (cell_lt (getRows A) (getCols A + 1) r c). lia.
Qed.
End FeatureTransformFacts.

(** The block of two rows and one column at (1, 1) of [A33] goes to (0, 0)
    of [A22]. *)
Lemma memcpy2D_spec_witness :
  wf A22 ∧ wf A33 ∧ 1 + 2 ≤ getRows A33 ∧ 1 + 1 ≤ getCols A33
  ∧ 0 + 2 ≤ getRows A22 ∧ 0 + 1 ≤ getCols A22
  ∧ wf (memcpy2D A22 A33 1 1 2 1 0 0)
  ∧ memcpy2D A22 A33 1 1 2 1 0 0 = Mat 2 2 [5; 6; 3; 4]%Q.
Proof.
  assert (wf A22) as H1 by reflexivity. assert (wf A33) as H2 by reflexivity.
  assert (1 + 2 ≤ getRows A33) as H3 by (simpl; lia).
  assert (1 + 1 ≤ getCols A33) as H4 by (simpl; lia).
  assert (0 + 2 ≤ getRows A22) as H5 by (simpl; lia).
  assert (0 + 1 ≤ getCols A22) as H6 by (simpl; lia).
  split_and!; [done..| |reflexivity].
  apply (memcpy2D_spec A22 A33 1 1 2 1 0 0 H1 H2 H3 H4 H5 H6).
Defined.

(** [b_sigmoid] of the 1 x 1 matrix (0). *)
Lemma b_sigmoid_spec_witness :
  wf (Mat 1 1 [0%R])
  ∧ wf (b_sigmoid (λ _, 0%R) (Mat 1 1 [0%R]))
  ∧ getCols (b_sigmoid (λ _, 0%R) (Mat 1 1 [0%R])) = 2.
Proof.
  assert (wf (Mat 1 1 [0%R])) as H1 by reflexivity.
  destruct (b_sigmoid_spec (λ _, 0%R) (Mat 1 1 [0%R]) H1) as (Hwf & _ & Hc & _).
  done.
Defined.

(** [A22 & B22]. *)
Lemma operator_and_spec_witness :
  (operator_and A22 B22 = AssertFail
   ↔ ¬ (getRows A22 = getRows B22 ∧ getCols A22 = getCols B22))
  ∧ operator_and A22 B22 = Ok (Mat 2 2 [5; 12; 21; 32]%Q).
Proof.
  split; [|reflexivity]. apply (operator_and_spec A22 B22).
Defined.

(** The last column of [A22]. *)
Lemma fillLastColumnWith_spec_witness :
  wf A22 ∧ 1 ≤ getCols A22
  ∧ wf (fillLastColumnWith A22 9%Q)
  ∧ fillLastColumnWith A22 9%Q = Mat 2 2 [1; 2; 9; 9]%Q.
Proof.
  assert (wf A22) as H1 by reflexivity.
  assert (1 ≤ getCols A22) as H2 by (simpl; lia).
  split_and!; [done..| |reflexivity].
  apply (fillLastColumnWith_spec A22 9%Q H1 H2).
Defined.

(** [add_bias] of [A22] on storage that held zeros. *)
Lemma add_bias_spec_witness :
  wf A22
  ∧ wf (add_bias (λ _, 0%Q) A22)
  ∧ add_bias (λ _, 0%Q) A22 = Mat 2 3 [1; 2; 3; 4; 1; 1]%Q.
Proof.
  assert (wf A22) as H1 by reflexivity.
  split_and!; [done| |reflexivity].
  apply (add_bias_spec (λ _, 0%Q) A22 H1).
Defined.

(** ** The passes of a CNN *)

Section CNNPassesFacts.
Context {T : Type} `{Arith T} `{Activation T}.
Variable load : string → mat T.
Variable concat : list (mat T) → mat T.
Variable de_concat : mat T → nat → list (mat T).
Variable downsample : mat T → nat → mat T.

Lemma for_from_S {S} a b (body : nat → S → S) s :
  a ≤ b → for_from a (Datatypes.S b) body s = body b (for_from a b body s).
Proof.
  intros Hab. unfold for_from.
  replace (Datatypes.S b - a) with (Datatypes.S (b - a)) by lia.
  rewrite seq_S, foldl_snoc. do 2 f_equal. lia.
Qed.

(** The loops of [SubSamplingLayer::feedForward] in closed form. *)
Lemma SubSamplingLayer_feedForward_eq (l : SubSamplingLayer) (fouts fins : list (mat T)) :
  SubSamplingLayer_feedForward downsample l fouts fins
  = (λ j, reshapeImages2Vectors
            ((λ k, downsample
                     (reshapeVectors2Images (fins !!! j) (ss_input_img_size l) !!! k)
                     (_scale l))
             <$> seq 0 (getCols (fins !!! 0))))
    <$> seq 0 (length fins).
Proof.
  unfold SubSamplingLayer_feedForward.
  rewrite for_insert_seq.
  2:{ destruct (length fouts =? length fins) eqn:E; simpl.
      - by apply Nat.eqb_eq. - apply length_resize. }
  apply list_fmap_ext. intros i j Hj. apply lookup_seq in Hj as [-> Hj]. simpl.
  f_equal.
  rewrite (for_insert_seq (length fins)) by apply length_replicate.
  erewrite for_ext.
  2:{ intros a s _. rewrite for_alter_cell, list_alter_alter_eq. reflexivity. }
  rewrite for_alter_replicate, lookup_total_fmap_seq by done. simpl.
  rewrite resize_nil, for_alter_replicate.
  apply list_fmap_ext. intros i' k Hk. apply lookup_seq in Hk as [-> Hk]. simpl.
  by rewrite lookup_total_fmap_seq.
Qed.

(** X12: a sub-sampling layer feeds forward as many maps as it is given,
    whatever the number of maps it was built for, and never throws; map j
    of the result holds, for every sample of the batch, the down-sampled
    image of that sample in map j of the input. *)
Theorem SubSamplingLayer_feedForward_spec (l : SubSamplingLayer)
    (fouts fins : list (mat T)) :
  length (SubSamplingLayer_feedForward downsample l fouts fins) = length fins
  ∧ ∀ j, j < length fins →
      SubSamplingLayer_feedForward downsample l fouts fins !! j
      = Some (reshapeImages2Vectors
                ((λ k, downsample
                         (reshapeVectors2Images (fins !!! j) (ss_input_img_size l) !!! k)
                         (_scale l))
                 <$> seq 0 (getCols (fins !!! 0)))).
Proof.
  rewrite SubSamplingLayer_feedForward_eq. split.
  - by rewrite length_fmap, length_seq.
  - intros j Hj. by rewrite list_lookup_fmap, lookup_seq_lt.
Qed.

(** A layer that is given as many maps as it takes returns as many as it
    gives. *)
Lemma MIMO_feedForward_ok (t : MIMOFeatureTransform T) (fouts fins : list (mat T)) :
  balanced t → length fins = getNumInputMaps t →
  ∃ o, MIMO_feedForward downsample t fouts fins = Ok o
       ∧ length o = getNumOutputMaps t.
Proof.
  destruct t as [l|l]; simpl; intros Hb Hlen.
  - rewrite ConvolutionalLayer_feedForward_eq by done. eexists. split; [done|].
    unfold forward_maps. by rewrite length_fmap, length_seq.
  - eexists. split; [done|]. rewrite SubSamplingLayer_feedForward_eq.
    rewrite length_fmap, length_seq. congruence.
Qed.

(** The loop of [CNN::feedForward] over a chain of layers. *)
Lemma CNN_feedForward_loop (ts : list (MIMOFeatureTransform T)) img nIn k houts0 :
  chained img nIn ts → Forall balanced ts →
  1 ≤ k ≤ length ts → length houts0 = length ts →
  (∀ t, ts !! 0 = Some t → length (houts0 !!! 0) = getNumOutputMaps t) →
  ∃ houts,
    for_from 1 k
      (λ i '(houts, r),
         match r with
         | Ok _ =>
             match MIMO_feedForward downsample (ts !!! i) (houts !!! i) (houts !!! (i - 1)) with
             | Ok o => (<[i := o]> houts, Ok ())
             | Throw msg => (houts, Throw msg)
             | AssertFail => (houts, AssertFail)
             end
         | _ => (houts, r)
         end)
      (houts0, Ok ())
    = (houts, Ok ())
    ∧ length houts = length ts
    ∧ ∀ i t, i < k → ts !! i = Some t → length (houts !!! i) = getNumOutputMaps t.
Proof.
  intros Hch Hb [Hk1 Hk] Hlen Hfirst.
  induction k as [|k IH]; [lia|].
  destruct (decide (k = 0)) as [->|Hk0].
  - exists houts0. split_and!; [done..|].
    intros i t Hi. assert (i = 0) as -> by lia. apply Hfirst.
  - destruct IH as (houts & Hloop & Hlen' & Hmaps); [lia..|].
    rewrite for_from_S by lia. rewrite Hloop.
    destruct (lookup_lt_is_Some_2 ts k) as [t Ht]; [lia|].
    destruct (lookup_lt_is_Some_2 ts (k - 1)) as [t' Ht']; [lia|].
    rewrite (list_lookup_total_correct _ _ _ Ht).
    assert (getNumInputMaps t = getNumOutputMaps t') as Hfit.
    { clear - Hch Ht Ht' Hk0. revert img nIn k Hch Ht Ht' Hk0.
      induction ts as [|t0 ts IHts]; intros img nIn k Hch Ht Ht' Hk0; [done|].
      destruct k as [|k]; [done|]. simpl in Hch. destruct Hch as (_ & _ & Hch).
      simpl in Ht. replace (S k - 1) with k in Ht' by lia.
      destruct k as [|k].
      - injection Ht' as <-. destruct ts as [|t1 ts]; [done|].
        injection Ht as <-. simpl in Hch. tauto.
      - simpl in Ht'. apply (IHts _ _ (S k) Hch Ht); [|done].
        by replace (S k - 1) with k by lia. }
    destruct (MIMO_feedForward_ok t (houts !!! k) (houts !!! (k - 1)))
      as (o & -> & Ho).
    { rewrite Forall_forall in Hb. apply Hb. by eapply list_elem_of_lookup_2. }
    { rewrite Hfit. apply Hmaps; [lia|done]. }
    eexists. split; [reflexivity|]. split; [by rewrite length_insert|].
    intros i ti Hi Hti. destruct (decide (i = k)) as [->|Hne].
    + rewrite list_lookup_total_insert_eq by lia. congruence.
    + rewrite list_lookup_total_insert_ne by done. apply Hmaps; [lia|done].
Qed.

(** [CNN::feedForward] on a chain of layers that starts with one input
    map. *)
Lemma CNN_feedForward_chained (cnn : CNN T) (fout fin : mat T) img :
  cnn_transforms cnn ≠ [] →
  chained img 1 (cnn_transforms cnn) → Forall balanced (cnn_transforms cnn) →
  ∃ houts,
    CNN_feedForward concat downsample cnn fout fin
    = (mkCNN (cnn_transforms cnn) houts,
       Ok (fillLastColumnWith
             (mat_resize (getCols (concat (houts !!! (length houts - 1))))
                         (getRows (concat (houts !!! (length houts - 1))) + 1)
                         (transpose (concat (houts !!! (length houts - 1)))))
             fone))
    ∧ length houts = length (cnn_transforms cnn)
    ∧ ∀ i t, cnn_transforms cnn !! i = Some t →
        length (houts !!! i) = getNumOutputMaps t.
Proof.
  intros Hne Hch Hb. unfold CNN_feedForward.
  destruct (cnn_transforms cnn) as [|t0 ts] eqn:Hts; [done|].
  set (tsl := t0 :: ts). fold tsl in Hch, Hb.
  set (houts0 := resize (length tsl) [] (_houts cnn)).
  assert (length houts0 = length tsl) as Hlen0 by apply length_resize.
  change (tsl !!! 0) with t0.
  destruct (MIMO_feedForward_ok t0 (houts0 !!! 0) [transpose fin]) as (o & -> & Ho).
  { by inversion Hb. }
  { simpl in Hch. symmetry. apply Hch. }
  destruct (CNN_feedForward_loop tsl img 1 (length tsl) (<[0 := o]> houts0))
    as (houts & Hloop & Hlen & Hmaps); [done|done|simpl; lia| | |].
  { by rewrite length_insert. }
  { intros t [= <-]. rewrite list_lookup_total_insert_eq; [done|]. simpl in *. lia. }
  rewrite Hloop. exists houts. split; [done|]. split; [done|].
  intros i t Ht. apply Hmaps; [|done]. by eapply lookup_lt_Some.
Qed.

(** The layers that [CNN::init] builds are balanced. *)
Lemma CNN_init_layer_balanced tok (st st' : init_state T) :
  CNN_init_layer load tok st = Ok st' →
  ∃ t, init_transforms st' = init_transforms st ++ [t] ∧ balanced t.
Proof.
  destruct st as [ts img nIn ctr out]. unfold CNN_init_layer.
  destruct (contains "s" tok).
  - intros [= <-]. eexists. split; [reflexivity|]. done.
  - destruct (contains "x" tok); [|done].
    unfold ConvolutionalLayer_new.
    destruct (negb _); [done|].
    destruct (for_ nIn _ _) as [kernels ctr'].
    intros [= <-]. eexists. split; [reflexivity|]. done.
Qed.

Lemma CNN_init_loop_balanced (layers : list string) (st st' : init_state T) r :
  CNN_init_loop load layers st = (st', r) →
  ∃ new, init_transforms st' = init_transforms st ++ new ∧ Forall balanced new.
Proof.
  revert st. induction layers as [|tok layers IH]; intros st; simpl.
  - intros [= <- <-]. exists []. by rewrite app_nil_r.
  - destruct (CNN_init_layer load tok st) as [st1|msg|] eqn:Hstep.
    + intros Hloop. destruct (CNN_init_layer_balanced tok st st1 Hstep) as (t & Ht & Hb).
      destruct (IH st1 Hloop) as (new & Hnew & Hbs).
      exists (t :: new). rewrite Hnew, Ht, <- app_assoc. split; [done|].
      by constructor.
    + intros [= <- <-]. exists []. by rewrite app_nil_r.
    + intros [= <- <-]. exists []. by rewrite app_nil_r.
Qed.

(** What [CNN::init] leaves in a CNN that had no layers. *)
Lemma CNN_init_fresh (houts0 : list (list (mat T))) counter structure img_size :
  ∃ ts counter' printed r,
    CNN_init load (mkCNN [] houts0) counter structure img_size
    = (mkCNN ts houts0, counter', printed, r)
    ∧ chained img_size 1 ts ∧ Forall balanced ts.
Proof.
  unfold CNN_init.
  destruct (CNN_init_loop_spec load (split structure "-") (mkInit [] img_size 1 counter ""))
    as (new & st' & r & Hloop & Hts & Hch & _).
  destruct (CNN_init_loop_balanced _ _ _ _ Hloop) as (new' & Hts' & Hb).
  cbn [cnn_transforms _houts]. rewrite Hloop. cbn [init_transforms app] in *.
  exists (init_transforms st'), (init_counter st'), (init_stdout st'), r.
  split; [done|]. split; [by rewrite Hts|by rewrite Hts'].
Qed.

(** X13: [feedForward] on a CNN that [init] has given at least one layer
    never throws: every layer is handed as many maps as it takes. It leaves
    one vector of maps per layer in [_houts], as many maps as the layer
    gives out; the result is the transposed concatenation of the last of
    them with one more column, and that last column holds 1 throughout. *)
Theorem CNN_init_feedForward (houts0 : list (list (mat T))) counter structure img_size
    (cnn : CNN T) counter' printed r (fout fin : mat T) :
  CNN_init load (mkCNN [] houts0) counter structure img_size = (cnn, counter', printed, r) →
  cnn_transforms cnn ≠ [] →
  ∃ houts out,
    CNN_feedForward concat downsample cnn fout fin
    = (mkCNN (cnn_transforms cnn) houts, Ok out)
    ∧ length houts = length (cnn_transforms cnn)
    ∧ (∀ i t, cnn_transforms cnn !! i = Some t →
         length (houts !!! i) = getNumOutputMaps t)
    ∧ getRows out = getCols (concat (houts !!! (length houts - 1)))
    ∧ getCols out = getRows (concat (houts !!! (length houts - 1))) + 1
    ∧ ∀ row, row < getRows out →
        get out row (getCols out - 1) = fone
        ∧ ∀ c, c < getCols out - 1 →
            get out row c = get (concat (houts !!! (length houts - 1))) c row.
Proof.
  intros Hinit Hne.
  destruct (CNN_init_fresh houts0 counter structure img_size)
    as (ts & c' & p' & r' & Hinit' & Hch & Hb).
  rewrite Hinit in Hinit'. injection Hinit' as -> -> -> ->.
  cbn [cnn_transforms] in *.
  destruct (CNN_feedForward_chained (mkCNN ts houts0) fout fin img_size Hne Hch Hb)
    as (houts & Hff & Hlen & Hmaps).
  cbn [cnn_transforms] in *.
  eexists houts, _. split; [exact Hff|]. split; [done|]. split; [done|].
  set (C := concat (houts !!! (length houts - 1))).
  set (R := mat_resize (getCols C) (getRows C + 1) (transpose C)).
  assert (wf R) as HR.
  { unfold wf, R, mat_resize, mat_size. simpl. by rewrite length_resize. }
  pose proof (λ r c, get_fillLastColumnWith R fone r c HR) as Hget.
  cbn [fillLastColumnWith R mat_resize getRows getCols].
  split; [done|]. split; [done|].
  intros row Hrow. replace (getRows C + 1 - 1) with (getRows C) by lia. split.
  - rewrite Hget; [|done|simpl; lia]. cbn [R mat_resize getRows getCols].
    rewrite decide_True; [done|lia].
  - intros c Hc. rewrite Hget; [|done|simpl; lia]. cbn [R mat_resize getRows getCols].
    rewrite decide_False by lia.
    unfold R, mat_resize, get. cbn [getData getRows].
    pose proof (wf_build (getCols C) (getRows C) (λ r c, get C c r)) as Hwt.
    unfold wf, mat_size in Hwt. simpl in Hwt.
    assert (c * getCols C + row < getCols C * getRows C) as Hidx by (by apply cell_lt).
    rewrite (list_lookup_total_correct _ _ (get C c row)); [done|].
    assert (length (getData (transpose C)) = getCols C * getRows C) as Hlt by exact Hwt.
    rewrite lookup_resize by lia.
    pose proof (get_build (getCols C) (getRows C) (λ r c, get C c r) row c Hrow Hc) as Hg.
    fold (transpose C) in Hg. rewrite <- Hg.
    apply (lookup_cell (transpose C) row c); [apply wf_build|done..].
Qed.

(** X14: after [init] on a CNN without layers, successful or not, the CNN
    either still has no layer, and then [getInputDimension] and
    [getOutputDimension] throw the error "CNN not initialized", or
    [getInputDimension] is the number of pixels of the image size [init]
    was given. *)
Theorem CNN_init_getInputDimension (houts0 : list (list (mat T))) counter structure
    img_size (cnn : CNN T) counter' printed r :
  CNN_init load (mkCNN [] houts0) counter structure img_size = (cnn, counter', printed, r) →
  match cnn_transforms cnn with
  | [] =>
      CNN_getInputDimension cnn
      = Throw (RED_ERROR +:+ "CNN not initialized. Don't know input dimension yet.")
      ∧ CNN_getOutputDimension cnn
        = Throw (RED_ERROR +:+ "CNN not initialized. Don't know output dimension yet.")
  | _ :: _ =>
      CNN_getInputDimension cnn = Ok (1 * size_m img_size * size_n img_size)
      ∧ ∃ d, CNN_getOutputDimension cnn = Ok d
  end.
Proof.
  intros Hinit.
  destruct (CNN_init_fresh houts0 counter structure img_size)
    as (ts & c' & p' & r' & Hinit' & Hch & Hb).
  rewrite Hinit in Hinit'. injection Hinit' as -> -> -> ->.
  cbn [cnn_transforms]. destruct ts as [|t ts]; [done|].
  unfold CNN_getInputDimension, CNN_getOutputDimension. cbn [cnn_transforms].
  change (length (t :: ts) =? 0) with false. cbv iota.
  change ((t :: ts) !!! 0) with t. simpl in Hch. destruct Hch as (-> & -> & _).
  split; [done|]. by eexists.
Qed.

(** X15: [backPropagate] on a CNN with exactly one layer propagates through
    that layer twice: first with the layer's own output [_houts.back()] in
    the place of its input, then, on the layer as the first call has left
    it and with the error of the first call, with the input proper. *)
Theorem CNN_backPropagate_one_layer (cnn : CNN T) (t : MIMOFeatureTransform T)
    (error fin fout : mat T) (learning_rate : T) :
  cnn_transforms cnn = [t] →
  let houts := _houts cnn in
  let N := getNumOutputMaps t in
  let fouts :=
    de_concat (transpose (mat_resize (getRows fout) (getCols fout - 1) fout)) N in
  let errors :=
    de_concat (transpose (mat_resize (getRows error) (getCols error - 1) error)) N in
  CNN_backPropagate concat de_concat cnn error fin fout learning_rate
  = result_bind
      (MIMO_backPropagate t errors (houts !!! (length houts - 1)) fouts learning_rate)
      (λ '(t1, errors1),
         result_bind
           (MIMO_backPropagate t1 errors1 [transpose fin] (houts !!! 0) learning_rate)
           (λ '(t2, errors2), Ok (mkCNN [t2] houts, transpose (concat errors2)))).
Proof.
  intros Hts. unfold CNN_backPropagate. rewrite Hts. cbv zeta.
  change (length [t]) with 1. change (1 - 2) with 0. change (1 - 1) with 0.
  cbn [fst snd]. change ([t] !!! 0) with t.
  destruct (MIMO_backPropagate t _ _ _ _) as [[t1 e1]| |]; [|done..].
  cbn [result_bind fst snd insert list_insert]. rewrite for_0.
  cbn [result_bind fst snd insert list_insert].
  change ([t1] !!! 0) with t1.
  destruct (MIMO_backPropagate t1 _ _ _ _) as [[t2 e2]| |]; done.
Qed.
End CNNPassesFacts.

(** [init] with the descriptor 2s on 4 x 4 images, then [feedForward]. *)
Lemma CNN_init_feedForward_witness :
  CNN_init (λ _, zeros 1 1) (mkCNN [] []) 0 "2s" (mkSIZE 4 4) = (cnn_2s, 0, "", Ok ())
  ∧ cnn_transforms cnn_2s ≠ []
  ∧ ∃ houts out,
      CNN_feedForward concat_head downsample_id cnn_2s (zeros 1 16) (zeros 1 16)
      = (mkCNN (cnn_transforms cnn_2s) houts, Ok out)
      ∧ length houts = 1.
Proof.
  assert (CNN_init (λ _, zeros 1 1) (mkCNN [] []) 0 "2s" (mkSIZE 4 4)
          = (cnn_2s, 0, "", Ok ())) as Hinit by reflexivity.
  assert (cnn_transforms cnn_2s ≠ []) as Hne by done.
  split; [exact Hinit|]. split; [exact Hne|].
  destruct (CNN_init_feedForward (λ _, zeros 1 1) concat_head downsample_id
              [] 0 "2s" (mkSIZE 4 4) cnn_2s 0 "" (Ok ()) (zeros 1 16) (zeros 1 16)
              Hinit Hne) as (houts & out & Hff & Hlen & _).
  by exists houts, out.
Defined.

(** [init] with the descriptor 2x3x5 on 10 x 10 images. *)
Lemma CNN_init_getInputDimension_witness :
  ∃ cnn counter' printed r,
    CNN_init load53 (mkCNN [] []) 0 "2x3x5" (mkSIZE 10 10) = (cnn, counter', printed, r)
    ∧ CNN_getInputDimension cnn = Ok 100.
Proof.
  destruct (CNN_init load53 (mkCNN [] []) 0 "2x3x5" (mkSIZE 10 10))
    as [[[cnn counter'] printed] r] eqn:Hinit.
  exists cnn, counter', printed, r. split; [reflexivity|].
  pose proof (CNN_init_getInputDimension load53 [] 0 "2x3x5" (mkSIZE 10 10)
                cnn counter' printed r Hinit) as Hdim.
  vm_compute in Hinit. injection Hinit as <- _ _ _. exact (proj1 Hdim).
Defined.

(** The CNN of one sub-sampling layer. *)
Lemma CNN_backPropagate_one_layer_witness :
  cnn_transforms cnn_2s = [SubSamp (mkSubSampling 1 1 (mkSIZE 4 4) 2)]
  ∧ ∃ cnn' error',
      CNN_backPropagate concat_head de_concat_one cnn_2s
        (zeros 1 5) (zeros 1 16) (zeros 1 5) 1%R
      = Ok (cnn', error')
      ∧ cnn' = cnn_2s.
Proof.
  assert (cnn_transforms cnn_2s = [SubSamp (mkSubSampling 1 1 (mkSIZE 4 4) 2)]) as Hts
    by reflexivity.
  split; [exact Hts|].
  rewrite (CNN_backPropagate_one_layer concat_head de_concat_one cnn_2s _
             (zeros 1 5) (zeros 1 16) (zeros 1 5) 1%R Hts).
  eexists _, _. split; reflexivity.
Defined.

(** ** The constructor and the first layer *)

Section ConvNewFacts.
Context {T : Type} `{Arith T} `{Activation T}.
Variable load : string → mat T.
Variable concat : list (mat T) → mat T.
Variable downsample : mat T → nat → mat T.

(** X16: the constructor of a convolutional layer fails its assertion
    exactly when the number of input maps or of output maps is 0 or the
    kernel height or width is not positive, where a width of -1 stands for
    the height (a square kernel). Otherwise it never throws: the layer has
    n x m kernels, kernel (i, j) loaded from the file k<c>.mat with
    c = counter + i m + j + 1, and m biases 0; the static counter advances
    by n m, and the line printed names n, m, the height and the width. *)
Theorem ConvolutionalLayer_new_spec (counter n m : nat) (h w : Z) :
  let w' := if (w =? -1)%Z then h else w in
  (ConvolutionalLayer_new load counter n m h w = AssertFail
   ↔ n = 0 ∨ m = 0 ∨ (h ≤ 0)%Z ∨ (w' ≤ 0)%Z)
  ∧ (∀ msg, ConvolutionalLayer_new load counter n m h w ≠ Throw msg)
  ∧ (0 < n → 0 < m → (0 < h)%Z → (0 < w')%Z →
     ConvolutionalLayer_new load counter n m h w
     = Ok (mkConv n m (mkSIZE 0 0)
             ((λ i, (λ j, load (kernel_file counter m i j)) <$> seq 0 m) <$> seq 0 n)
             (replicate m fzero),
           counter + n * m,
           printed_line n m h w')).
Proof.
  assert (ConvolutionalLayer_new load counter n m h w
          = ConvolutionalLayer_new load counter n m h (if (w =? -1)%Z then h else w)
          ∨ (h ≤ 0)%Z) as Hw.
  { destruct (Z.eqb_spec w (-1)) as [Hw|Hne]; [|by left].
    destruct (Z.le_gt_cases h 0) as [Hle|Hgt]; [by right|left]. rewrite Hw.
    unfold ConvolutionalLayer_new. change (-1 =? -1)%Z with true. cbv iota.
    replace (h =? -1)%Z with false by (symmetry; apply Z.eqb_neq; lia). done. }
  intros w'. fold w' in Hw.
  assert (0 < n → 0 < m → (0 < h)%Z → (0 < w')%Z →
          ConvolutionalLayer_new load counter n m h w
          = Ok (mkConv n m (mkSIZE 0 0)
                  ((λ i, (λ j, load (kernel_file counter m i j)) <$> seq 0 m) <$> seq 0 n)
                  (replicate m fzero),
                counter + n * m,
                printed_line n m h w')) as Hok.
  { intros Hn Hm Hh Hw'. destruct Hw as [->|?]; [|lia].
    rewrite <- (Z2Nat.id h), <- (Z2Nat.id w') by lia.
    apply ConvolutionalLayer_new_eq; lia. }
  split_and!; [|intros msg|done].
  - split.
    + intros Hfail.
      destruct (decide (n = 0)) as [|Hn]; [tauto|].
      destruct (decide (m = 0)) as [|Hm]; [tauto|].
      destruct (Z.le_gt_cases h 0) as [|Hh]; [tauto|].
      destruct (Z.le_gt_cases w' 0) as [|Hw']; [tauto|].
      rewrite Hok in Hfail by lia. done.
    + intros Hbad. unfold ConvolutionalLayer_new. fold w'.
      replace ((0 <? n) && (0 <? m) && (0 <? h)%Z && (0 <? w')%Z) with false; [done|].
      symmetry. rewrite !andb_false_iff, !Nat.ltb_ge, !Z.ltb_ge. lia.
  - unfold ConvolutionalLayer_new. destruct (negb _); [done|].
    destruct (for_ n _ _) as [kernels c]. done.
Qed.

Lemma for_from_failed {A E} a b (body : nat → A * result E → A * result E) s :
  (∀ i s, (match s.2 with Ok _ => False | _ => True end) → body i s = s) →
  match s.2 with Ok _ => False | _ => True end →
  for_from a b body s = s.
Proof.
  intros Hbody Hs. unfold for_from.
  induction (seq a (b - a)) as [|i l IH] using rev_ind; [done|].
  rewrite foldl_snoc, IH. by apply Hbody.
Qed.

(** X17: [feedForward] on a CNN whose first layer is a convolutional
    layer built for a number of input maps other than 1 throws the error
    "Number of inputs maps ( = 1) does not match number of kernels
    ( = n)."; by then [_houts] has been resized to the number of layers,
    and no layer has stored an output in it. *)
Theorem CNN_feedForward_first_layer_throws (cnn : CNN T) (l : ConvolutionalLayer T)
    (ts : list (MIMOFeatureTransform T)) (fout fin : mat T) :
  cnn_transforms cnn = Conv l :: ts → conv_n l ≠ 1 →
  CNN_feedForward concat downsample cnn fout fin
  = (mkCNN (cnn_transforms cnn) (resize (length (cnn_transforms cnn)) [] (_houts cnn)),
     Throw (RED_ERROR +:+ "Number of inputs maps ( = 1) does not match number of kernels ( = "
            +:+ to_string (conv_n l) +:+ ").")).
Proof.
  intros Hts Hn. unfold CNN_feedForward. rewrite Hts.
  change ((Conv l :: ts) !!! 0) with (Conv l). cbn [MIMO_feedForward].
  unfold ConvolutionalLayer_feedForward. cbn [length].
  replace (negb (1 =? conv_n l)) with true
    by (symmetry; apply negb_true_iff, Nat.eqb_neq; lia).
  cbv iota. rewrite for_from_failed; [done| |done].
  intros i [houts r] Hr. simpl in Hr. by destruct r.
Qed.
End ConvNewFacts.

(** A CNN whose first layer takes two maps. *)
Lemma CNN_feedForward_first_layer_throws_witness :
  cnn_transforms cnn_conv2
  = Conv (mkConv 2 1 (mkSIZE 4 4) [[zeros 1 1]; [zeros 1 1]] [0%R]) :: []
  ∧ conv_n (mkConv 2 1 (mkSIZE 4 4) [[zeros 1 1]; [zeros 1 1]] [0%R]) ≠ 1
  ∧ ∃ msg,
      CNN_feedForward concat_head downsample_id cnn_conv2 (zeros 1 16) (zeros 1 16)
      = (mkCNN (cnn_transforms cnn_conv2) [[]], Throw msg).
Proof.
  assert (cnn_transforms cnn_conv2
          = Conv (mkConv 2 1 (mkSIZE 4 4) [[zeros 1 1]; [zeros 1 1]] [0%R]) :: []) as H1
    by reflexivity.
  assert (conv_n (mkConv 2 1 (mkSIZE 4 4) [[zeros 1 1]; [zeros 1 1]] [0%R]) ≠ 1) as H2
    by (simpl; lia).
  split; [exact H1|]. split; [exact H2|]. eexists.
  apply (CNN_feedForward_first_layer_throws concat_head downsample_id cnn_conv2 _ []
           (zeros 1 16) (zeros 1 16) H1 H2).
Defined.

(** ** The forward pass of a DNN *)

Section ActivationsFacts.
Context {T : Type} `{Arith T} `{Activation T}.

(** X18: [feedForward] on a vector [O] of [getNLayer()] matrices leaves in
    O[i] the input pushed through the first i layers, for every i below
    the number of layers (O[0] is the input itself), and in the last
    entry the output of the last layer without its last column. With no
    layer at all the one entry is the input without its last column. *)
Theorem DNN_feedForward_activations (transforms : list (FeatureTransform T))
    (fin : mat T) (O : list (mat T)) :
  length O = length transforms + 1 →
  length (DNN_feedForward transforms fin O) = length O
  ∧ (∀ i, i < length transforms →
       DNN_feedForward transforms fin O !! i = Some (activation transforms fin i))
  ∧ DNN_feedForward transforms fin O !! length transforms
    = Some (drop_last_column (activation transforms fin (length transforms)))
  ∧ DNN_predict transforms fin
    = drop_last_column (foldl (λ x t, FeatureTransform_feedForward t x) fin transforms).
Proof.
  assert (∀ O, length O = length transforms + 1 →
    length (DNN_feedForward transforms fin O) = length O
    ∧ (∀ i, i < length transforms →
         DNN_feedForward transforms fin O !! i = Some (activation transforms fin i))
    ∧ DNN_feedForward transforms fin O !! length transforms
      = Some (drop_last_column (activation transforms fin (length transforms)))) as Hall.
  { clear O. intros O Hlen. unfold DNN_feedForward.
    destruct (DNN_feedForward_loop transforms fin O (length transforms))
      as (O' & Hloop & Hlen' & Hact); [done..|].
    rewrite Hloop. split_and!.
    - by rewrite length_alter.
    - intros i Hi. rewrite list_lookup_alter_ne by lia. apply Hact. lia.
    - replace (length O' - 1) with (length transforms) by lia.
      rewrite list_lookup_alter_eq, Hact by done. done. }
  intros Hlen. destruct (Hall O Hlen) as (H1 & H2 & H3).
  split_and!; [done..|].
  unfold DNN_predict.
  destruct (Hall (replicate (length transforms + 1) inhabitant)) as (H1' & _ & H3').
  { by rewrite length_replicate. }
  rewrite H1', length_replicate.
  replace (length transforms + 1 - 1) with (length transforms) by lia.
  erewrite (list_lookup_total_correct (DNN_feedForward _ _ _)); [|exact H3'].
  unfold activation. by rewrite firstn_all.
Qed.
End ActivationsFacts.

(** One layer and a vector of two matrices. *)
Lemma DNN_feedForward_activations_witness :
  length [sample11; sample11] = length [layer11] + 1
  ∧ length (DNN_feedForward [layer11] sample11 [sample11; sample11]) = 2
  ∧ DNN_feedForward [layer11] sample11 [sample11; sample11] !! 0 = Some sample11.
Proof.
  assert (length [sample11; sample11] = length [layer11] + 1) as Hlen by reflexivity.
  destruct (DNN_feedForward_activations [layer11] sample11 [sample11; sample11] Hlen)
    as (H1 & H2 & _).
  split; [exact Hlen|]. split; [exact H1|]. apply (H2 0). simpl. lia.
Defined.

(** ** Model files side by side *)

Section Concatenation.
Context {T : Type} `{FloatText T} `{Inhabited T}.
Variable junk : nat → T.

(** X19: the file of a DNN is the text of its layers one after the other,
    with nothing before, between or after: saving the layers of two DNNs
    in one list writes the two files end to end, and reading two files end
    to end gives the layers of the first followed by the layers of the
    second. *)
Theorem DNN_save_app (ts ts' : list (FeatureTransform T)) :
  DNN_save (ts ++ ts') = DNN_save ts +:+ DNN_save ts'
  ∧ (Forall layer_ok ts → Forall layer_ok ts' →
     ∃ l l', DNN_read junk (DNN_save ts) = Some l
             ∧ DNN_read junk (DNN_save ts') = Some l'
             ∧ DNN_read junk (DNN_save ts +:+ DNN_save ts') = Some (l ++ l')).
Proof.
  split.
  - by rewrite !DNN_save_eq, file_text_app.
  - intros Hok Hok'.
    assert (∀ l, Forall layer_ok l →
              DNN_read junk (file_text l) = Some (restored junk <$> l)) as Hread.
    { intros l Hl. apply DNN_read_file_text.
      eapply Forall_impl; [exact Hl|]. apply layer_ok_saved. }
    exists (restored junk <$> ts), (restored junk <$> ts').
    rewrite !DNN_save_eq, <- file_text_app, !Hread, ?fmap_app; try done.
    by apply Forall_app.
Qed.
End Concatenation.

(** Two files of one layer each. *)
Lemma DNN_save_app_witness :
  Forall layer_ok [layer_b]
  ∧ DNN_save ([layer_b] ++ [layer_b]) = DNN_save [layer_b] +:+ DNN_save [layer_b]
  ∧ ∃ l l', DNN_read (λ _, 0%N) (DNN_save [layer_b]) = Some l
            ∧ DNN_read (λ _, 0%N) (DNN_save [layer_b]) = Some l'
            ∧ DNN_read (λ _, 0%N) (DNN_save [layer_b] +:+ DNN_save [layer_b])
              = Some (l ++ l').
Proof.
  assert (Forall layer_ok [layer_b]) as Hok.
  { repeat constructor; simpl; try lia; apply text_ok_small; lia. }
  split; [exact Hok|].
  destruct (DNN_save_app (λ _, 0%N) [layer_b] [layer_b]) as [Happ Hread].
  split; [exact Happ|]. exact (Hread Hok Hok).
Defined.

(** ** Data sets *)

Section DataSetFacts.
Context {T : Type} `{Arith T}.

Lemma wf_hset (A : mat T) i j v : wf A → wf (hset A i j v).
Proof. unfold wf, hset, mat_size. simpl. by rewrite length_insert. Qed.

Lemma get_hset (A : mat T) i j v i' j' :
  wf A → i < getRows A → j < getCols A → i' < getRows A → j' < getCols A →
  get (hset A i j v) i' j' = if decide (i' = i ∧ j' = j) then v else get A i' j'.
Proof.
  intros Hwf Hi Hj Hi' Hj'. apply get_eq_Some. unfold hset. cbn [getData getRows].
  destruct (decide (i' = i ∧ j' = j)) as [[-> ->]|Hne].
  - rewrite list_lookup_insert_eq; [done|]. rewrite Hwf. by apply cell_lt.
  - rewrite list_lookup_insert_ne; [by apply lookup_cell|].
    intros E. apply cell_inj in E; [|done..]. apply Hne. lia.
Qed.

(** X20: a batch of a data matrix is the transposed block of its columns:
    one row per sample of the batch, one column per row of the data, the
    entry for sample k and row i being the entry of row i and column
    offset + k of the data. *)
Theorem getBatchData_spec (data : mat T) (b : Batch) :
  wf data → offset b + nData b ≤ getCols data →
  wf (getBatchData data b)
  ∧ getRows (getBatchData data b) = nData b
  ∧ getCols (getBatchData data b) = getRows data
  ∧ ∀ k i, k < nData b → i < getRows data →
      get (getBatchData data b) k i = get data i (offset b + k).
Proof.
  intros Hwf Hb. unfold getBatchData. split_and!; [apply wf_build|done|done|].
  intros k i Hk Hi. unfold transpose. cbn [mat_of_buffer getRows getCols].
  rewrite get_build by done. apply get_eq_Some. cbn [mat_of_buffer getData getRows].
  pose proof (cell_lt (getRows data) (nData b) i k Hi Hk).
  rewrite lookup_take_lt by done. rewrite lookup_drop.
  replace (offset b * getRows data + (k * getRows data + i))
    with ((offset b + k) * getRows data + i) by lia.
  apply lookup_cell; [done..|lia].
Qed.

(** X21: [splitIntoTrainAndValidSet] with a ratio that is not 0 puts the
    last size / ratio samples into [valid] and the samples before them
    into [train], features and labels alike and in their order: the two
    parts laid end to end are the data set. It does not set the feature
    dimension of [train] or [valid], which stays what it was before the
    call. With a negative ratio [valid] gets no sample. *)
Theorem splitIntoTrainAndValidSet_spec (this train valid : DataSet T) (ratio : Z) :
  wf (_hx this) → wf (_hy this) → getRows (_hy this) = 1 →
  getCols (_hx this) = DataSet_size this →
  (ratio mod 2 ^ 64 ≠ 0)%Z →
  ∃ train' valid',
    splitIntoTrainAndValidSet this train valid ratio = Some (train', valid')
    ∧ wf (_hx train') ∧ wf (_hy train') ∧ wf (_hx valid') ∧ wf (_hy valid')
    ∧ getRows (_hx train') = getRows (_hx this)
    ∧ getRows (_hx valid') = getRows (_hx this)
    ∧ DataSet_size train' + DataSet_size valid' = DataSet_size this
    ∧ getCols (_hx train') = DataSet_size train'
    ∧ getCols (_hx valid') = DataSet_size valid'
    ∧ DataSet_size valid'
      = Z.to_nat (Z.of_nat (DataSet_size this) / (ratio mod 2 ^ 64))
    ∧ getData (_hx train') ++ getData (_hx valid') = getData (_hx this)
    ∧ getData (_hy train') ++ getData (_hy valid') = getData (_hy this)
    ∧ getFeatureDimension train' = getFeatureDimension train
    ∧ getFeatureDimension valid' = getFeatureDimension valid
    ∧ ((ratio < 0)%Z → (- 2 ^ 63 ≤ ratio)%Z → (Z.of_nat (DataSet_size this) < 2 ^ 63)%Z →
       DataSet_size valid' = 0).
Proof.
  intros Hx Hy Hy1 Hcols Hratio. unfold splitIntoTrainAndValidSet.
  change (2 ^ 64)%Z with 18446744073709551616%Z in *.
  destruct (Z.eqb_spec (ratio mod 18446744073709551616) 0) as [E|_]; [done|].
  set (n := DataSet_size this) in *.
  set (nValid := Z.to_nat (Z.of_nat n / (ratio mod 18446744073709551616))).
  assert (nValid ≤ n) as Hle.
  { unfold nValid. pose proof (Z.mod_pos_bound ratio 18446744073709551616 ltac:(lia)).
    assert (Z.of_nat n / (ratio mod 18446744073709551616) ≤ Z.of_nat n)%Z; [|lia].
    apply Z.div_le_upper_bound; [lia|]. nia. }
  eexists _, _. split; [reflexivity|].
  cbn [_hx _hy _dim mat_resize getRows getCols getData].
  unfold DataSet_size, wf, mat_size, memcpy, getFeatureDimension in *.
  cbn [_hx _hy _dim mat_resize getRows getCols getData].
  rewrite !Nat.mul_1_l.
  assert (length (getData (_hy this)) = n) as HyL.
  { rewrite Hy. done. }
  assert (length (getData (_hx this)) = getRows (_hx this) * n) as HxL.
  { by rewrite Hx, Hcols. }
  rewrite Hy1, Nat.mul_1_l in *.
  rewrite !length_app, !length_take, !length_drop, !length_resize, HyL, HxL.
  assert (getRows (_hx this) * (n - nValid) ≤ getRows (_hx this) * n)
    by (apply Nat.mul_le_mono_l; lia).
  assert (getRows (_hx this) * (n - nValid) + getRows (_hx this) * nValid
          = getRows (_hx this) * n) as Hsum by nia.
  rewrite !(drop_ge (resize _ _ _)) by (rewrite length_resize; lia).
  rewrite !app_nil_r.
  split_and!; try done; try lia.
  - rewrite <- (take_drop (getRows (_hx this) * (n - nValid)) (getData (_hx this))) at 3.
    f_equal. apply take_ge. rewrite length_drop, HxL. lia.
  - rewrite <- (take_drop (n - nValid) (getData (_hy this))) at 3.
    f_equal. apply take_ge. rewrite length_drop, HyL. lia.
  - intros Hneg Hlow Hn.
    change (2 ^ 63)%Z with 9223372036854775808%Z in *.
    assert (ratio mod 18446744073709551616 = ratio + 18446744073709551616)%Z as Hm.
    { symmetry. apply (Z.mod_unique ratio _ (-1)); lia. }
    fold n in Hn. subst nValid. rewrite Hm. rewrite Z.div_small by lia. done.
Qed.

(** Loops of assignments to cells, on the storage. *)
Lemma for_hset m (r c : nat → nat) (v : nat → T) (A : mat T) :
  for_ m (λ j A, hset A (r j) (c j) (v j)) A
  = Mat (getRows A) (getCols A)
      (for_ m (λ j l, <[c j * getRows A + r j := v j]> l) (getData A)).
Proof.
  induction m as [|m IH]; [by destruct A|]. rewrite !for_S, IH. done.
Qed.

Lemma for_for_hset n m (r c : nat → nat → nat) (v : nat → nat → T) (A : mat T) :
  for_ n (λ i, for_ m (λ j A, hset A (r i j) (c i j) (v i j))) A
  = Mat (getRows A) (getCols A)
      (for_ n (λ i, for_ m (λ j l, <[c i j * getRows A + r i j := v i j]> l))
         (getData A)).
Proof.
  induction n as [|n IH]; [by destruct A|]. rewrite !for_S, IH, for_hset. done.
Qed.

(** X22: [shuffle] with a permutation of the sample numbers moves sample i,
    its features, its bias entry and its label together, to position
    perm[i]; the shapes stay, and so does the feature dimension. *)
Theorem shuffle_spec (perm : list nat) (ds : DataSet T) :
  wf (_hx ds) → wf (_hy ds) → getRows (_hy ds) = 1 →
  getRows (_hx ds) = _dim ds + 1 → getCols (_hx ds) = DataSet_size ds →
  length perm = DataSet_size ds → NoDup perm → (∀ p, p ∈ perm → p < DataSet_size ds) →
  getFeatureDimension (shuffle perm ds) = getFeatureDimension ds
  ∧ wf (_hx (shuffle perm ds)) ∧ wf (_hy (shuffle perm ds))
  ∧ getRows (_hx (shuffle perm ds)) = getRows (_hx ds)
  ∧ getCols (_hx (shuffle perm ds)) = getCols (_hx ds)
  ∧ DataSet_size (shuffle perm ds) = DataSet_size ds
  ∧ ∀ i p, perm !! i = Some p →
      (∀ j, j ≤ _dim ds → get (_hx (shuffle perm ds)) j p = get (_hx ds) j i)
      ∧ getData (_hy (shuffle perm ds)) !! p = getData (_hy ds) !! i.
Proof.
  intros Hx Hy Hy1 Hrows Hcols Hlen Hnd Hrange. unfold shuffle.
  set (n := DataSet_size ds) in *.
  rewrite (for_pair n
             (λ i hx, for_ (_dim ds + 1)
                        (λ j hx, hset hx j (perm !!! i) (get (_hx ds) j i)) hx)
             (λ i hy, Mat (getRows hy) (getCols hy)
                        (<[perm !!! i := getData (_hy ds) !!! i]> (getData hy)))).
  rewrite (for_for_hset n (_dim ds + 1) (λ i j, j) (λ i j, perm !!! i)
             (λ i j, get (_hx ds) j i)).
  assert (for_ n (λ i hy, Mat (getRows hy) (getCols hy)
                    (<[perm !!! i := getData (_hy ds) !!! i]> (getData hy))) (_hy ds)
          = Mat (getRows (_hy ds)) (getCols (_hy ds))
              (for_ n (λ i l, <[perm !!! i := getData (_hy ds) !!! i]> l)
                 (getData (_hy ds)))) as ->.
  { clear. induction n as [|n IH]; [by destruct (_hy ds)|]. by rewrite !for_S, IH. }
  cbn [_hx _hy _dim getRows getCols getData getFeatureDimension].
  assert (∀ i p, perm !! i = Some p → perm !!! i = p) as Htot.
  { intros i p Hp. by apply list_lookup_total_correct. }
  assert (∀ i i', i < n → i' < n → perm !!! i = perm !!! i' → i = i') as Hinj.
  { intros i i' Hi Hi' E.
    destruct (lookup_lt_is_Some_2 perm i) as [p Hp]; [lia|].
    destruct (lookup_lt_is_Some_2 perm i') as [p' Hp']; [lia|].
    rewrite (Htot _ _ Hp), (Htot _ _ Hp') in E. subst p'.
    by apply (NoDup_lookup perm i i' p). }
  split_and!.
  - done.
  - unfold wf, mat_size in *. cbn [getRows getCols getData].
    by rewrite length_for_for_insert.
  - unfold wf, mat_size in *. cbn [getRows getCols getData].
    by rewrite length_for_insert_idx.
  - done.
  - done.
  - done.
  - intros i p Hp.
    assert (i < n) as Hi by (rewrite <- Hlen; by eapply lookup_lt_Some).
    assert (p < n) as Hpn by (apply Hrange; by eapply list_elem_of_lookup_2).
    split.
    + intros j Hj. apply get_eq_Some. cbn [getData getRows].
      rewrite <- (Htot i p Hp).
      rewrite (lookup_for_for_insert_hit n (_dim ds + 1)
                 (λ i j, perm !!! i * getRows (_hx ds) + j)
                 (λ i j, get (_hx ds) j i)); [done| |done|lia|].
      * intros a b a' b' Ha Hb Ha' Hb' E. apply cell_inj in E; [|lia..].
        destruct E as [-> E]. split; [|done]. by apply Hinj.
      * rewrite Hx, (Htot i p Hp). apply cell_lt; lia.
    + rewrite <- (Htot i p Hp).
      rewrite (lookup_for_insert_hit n (λ i, perm !!! i)
                 (λ i, getData (_hy ds) !!! i)); [|done|done|].
      * symmetry. apply list_lookup_lookup_total_lt.
        rewrite Hy. unfold n, DataSet_size in *. lia.
      * rewrite (Htot i p Hp), Hy. unfold n, DataSet_size in *. lia.
Qed.
End DataSetFacts.

(** The second and third sample of [ds3]. *)
Lemma getBatchData_spec_witness :
  wf (_hx ds3) ∧ offset (mkBatch 1 2) + nData (mkBatch 1 2) ≤ getCols (_hx ds3)
  ∧ getBatchData (_hx ds3) (mkBatch 1 2) = Mat 2 3 [3; 5; 4; 6; 1; 1]%Q
  ∧ wf (getBatchData (_hx ds3) (mkBatch 1 2)).
Proof.
  assert (wf (_hx ds3)) as H1 by reflexivity.
  assert (offset (mkBatch 1 2) + nData (mkBatch 1 2) ≤ getCols (_hx ds3)) as H2
    by (simpl; lia).
  split_and!; [done|done|reflexivity|].
  apply (getBatchData_spec (_hx ds3) (mkBatch 1 2) H1 H2).
Defined.

(** [ds3] is split with ratio 3: two samples for training, one for
    validation, and the feature dimension of both is still 0. *)
Lemma splitIntoTrainAndValidSet_spec_witness :
  wf (_hx ds3) ∧ wf (_hy ds3) ∧ getRows (_hy ds3) = 1
  ∧ getCols (_hx ds3) = DataSet_size ds3 ∧ (3 mod 2 ^ 64 ≠ 0)%Z
  ∧ splitIntoTrainAndValidSet ds3 ds_empty ds_empty 3
    = Some (mkDataSet 0 (Mat 3 2 [1; 2; 1; 3; 4; 1]%Q) (Mat 1 2 [7; 8]%Q),
            mkDataSet 0 (Mat 3 1 [5; 6; 1]%Q) (Mat 1 1 [9]%Q))
  ∧ ∃ train' valid',
      splitIntoTrainAndValidSet ds3 ds_empty ds_empty 3 = Some (train', valid')
      ∧ DataSet_size train' + DataSet_size valid' = DataSet_size ds3.
Proof.
  assert (wf (_hx ds3)) as H1 by reflexivity.
  assert (wf (_hy ds3)) as H2 by reflexivity.
  assert (getRows (_hy ds3) = 1) as H3 by reflexivity.
  assert (getCols (_hx ds3) = DataSet_size ds3) as H4 by reflexivity.
  assert (3 mod 2 ^ 64 ≠ 0)%Z as H5 by (vm_compute; discriminate).
  split_and!; [done..|reflexivity|].
  destruct (splitIntoTrainAndValidSet_spec ds3 ds_empty ds_empty 3 H1 H2 H3 H4 H5)
    as (train' & valid' & Heq & _ & _ & _ & _ & _ & _ & Hsum & _).
  by exists train', valid'.
Defined.

(** [ds3] is shuffled with the permutation (2, 0, 1). *)
Lemma shuffle_spec_witness :
  wf (_hx ds3) ∧ wf (_hy ds3) ∧ getRows (_hy ds3) = 1
  ∧ getRows (_hx ds3) = _dim ds3 + 1 ∧ getCols (_hx ds3) = DataSet_size ds3
  ∧ length [2; 0; 1] = DataSet_size ds3 ∧ NoDup [2; 0; 1]
  ∧ (∀ p, p ∈ [2; 0; 1] → p < DataSet_size ds3)
  ∧ shuffle [2; 0; 1] ds3
    = mkDataSet 2 (Mat 3 3 [3; 4; 1; 5; 6; 1; 1; 2; 1]%Q) (Mat 1 3 [8; 9; 7]%Q)
  ∧ wf (_hx (shuffle [2; 0; 1] ds3)).
Proof.
  assert (wf (_hx ds3)) as H1 by reflexivity.
  assert (wf (_hy ds3)) as H2 by reflexivity.
  assert (getRows (_hy ds3) = 1) as H3 by reflexivity.
  assert (getRows (_hx ds3) = _dim ds3 + 1) as H4 by reflexivity.
  assert (getCols (_hx ds3) = DataSet_size ds3) as H5 by reflexivity.
  assert (length [2; 0; 1] = DataSet_size ds3) as H6 by reflexivity.
  assert (NoDup [2; 0; 1]) as H7.
  { apply (bool_decide_unpack _). vm_compute. exact I. }
  assert (∀ p, p ∈ [2; 0; 1] → p < DataSet_size ds3) as H8.
  { intros p Hp. change (DataSet_size ds3) with 3.
    repeat (apply elem_of_cons in Hp as [->|Hp]; [lia|]). by apply elem_of_nil in Hp. }
  split_and!; [done..|reflexivity|].
  apply (shuffle_spec [2; 0; 1] ds3 H1 H2 H3 H4 H5 H6 H7 H8).
Defined.

(** ** Assignments to distinct cells *)

Section CellLoops.
Context {T : Type} `{Arith T}.

Lemma for_hset_cells n (r c : nat → nat) (g : nat → T → T) (M : mat T) :
  wf M → (∀ k, k < n → r k < getRows M ∧ c k < getCols M) →
  (∀ k k', k < n → k' < n → r k = r k' → c k = c k' → k = k') →
  wf (for_ n (λ k A, hset A (r k) (c k) (g k (get A (r k) (c k)))) M)
  ∧ getRows (for_ n (λ k A, hset A (r k) (c k) (g k (get A (r k) (c k)))) M) = getRows M
  ∧ getCols (for_ n (λ k A, hset A (r k) (c k) (g k (get A (r k) (c k)))) M) = getCols M
  ∧ (∀ k, k < n →
       get (for_ n (λ k A, hset A (r k) (c k) (g k (get A (r k) (c k)))) M) (r k) (c k)
       = g k (get M (r k) (c k)))
  ∧ (∀ i j, i < getRows M → j < getCols M → (∀ k, k < n → ¬ (r k = i ∧ c k = j)) →
       get (for_ n (λ k A, hset A (r k) (c k) (g k (get A (r k) (c k)))) M) i j
       = get M i j).
Proof.
  intros Hwf Hin Hinj. induction n as [|n IH].
  - rewrite for_0. split_and!; try done. intros; lia.
  - destruct IH as (Hwf' & Hr & Hc & Hhit & Hmiss).
    { intros; apply Hin; lia. } { intros; apply Hinj; lia. }
    rewrite for_S. set (M' := for_ n _ M) in *.
    destruct (Hin n ltac:(lia)) as [Hrn Hcn].
    assert (get M' (r n) (c n) = get M (r n) (c n)) as Hn.
    { apply Hmiss; [done..|]. intros k Hk [E1 E2].
      assert (k = n) by (apply Hinj; lia). lia. }
    rewrite Hn. split_and!.
    + by apply wf_hset.
    + done.
    + done.
    + intros k Hk. destruct (Hin k Hk) as [Hrk Hck].
      rewrite get_hset by (done || lia).
      destruct (decide (r k = r n ∧ c k = c n)) as [[E1 E2]|Hne].
      * assert (k = n) as -> by (apply Hinj; lia). done.
      * apply Hhit. destruct (decide (k = n)) as [->|]; [tauto|lia].
    + intros i j Hi Hj Hno. rewrite get_hset by (done || lia).
      rewrite decide_False.
      * apply Hmiss; [done..|]. intros; apply Hno; lia.
      * intros [-> ->]. by apply (Hno n); [lia|].
Qed.
End CellLoops.

(** ** Rescaling the samples *)

Section ScalingFacts.
Local Open Scope R_scope.

Lemma scale_bounds (x mn mx l u : R) :
  mn <= x <= mx → mn ≠ mx → l <= u →
  l <= (x - mn) * ((u - l) / (mx - mn)) + l <= u.
Proof.
  intros [H1 H2] Hne Hlu.
  assert (0 < mx - mn) as Hd by lra.
  replace ((x - mn) * ((u - l) / (mx - mn))) with ((x - mn) / (mx - mn) * (u - l))
    by (field; lra).
  assert (0 <= (x - mn) / (mx - mn) <= 1) as [Ht0 Ht1].
  { split.
    - apply Rmult_le_pos; [lra|]. left. by apply Rinv_0_lt_compat.
    - apply (Rmult_le_reg_r (mx - mn)); [done|].
      replace ((x - mn) / (mx - mn) * (mx - mn)) with (x - mn) by (field; lra). lra. }
  split; nra.
Qed.

Lemma scale_min (mn mx l u : R) : (mn - mn) * ((u - l) / (mx - mn)) + l = l.
Proof. replace (mn - mn) with 0 by lra. lra. Qed.

Lemma scale_max (mn mx l u : R) :
  mn ≠ mx → (mx - mn) * ((u - l) / (mx - mn)) + l = u.
Proof. intros. field. lra. Qed.

(** The loop that finds the least and the greatest feature of a
    sample. *)
Lemma minmax_loop (M : mat R) (i d : nat) :
  ∃ mn mx,
    for_ d
      (λ j '(min, max),
         let x := get M j i in
         let max := if fltb max x then x else max in
         let min := if fltb x min then x else min in
         (min, max))
      (get M 0%nat i, get M 0%nat i)
    = (mn, mx)
    ∧ mn <= get M 0%nat i <= mx
    ∧ (∀ j, (j < d)%nat → mn <= get M j i <= mx)
    ∧ (mn = get M 0%nat i ∨ ∃ j, (j < d)%nat ∧ mn = get M j i)
    ∧ (mx = get M 0%nat i ∨ ∃ j, (j < d)%nat ∧ mx = get M j i).
Proof.
  induction d as [|d IH].
  - eexists _, _. rewrite for_0. split; [reflexivity|].
    split_and!; [lra|lra|intros; lia|by left|by left].
  - destruct IH as (mn & mx & Hloop & H0 & Hall & Hmn & Hmx).
    rewrite for_S, Hloop. cbv zeta. cbn [fltb R_Arith].
    eexists _, _. split; [reflexivity|].
    destruct (Rlt_dec mx (get M d i)) as [Hgt|Hle],
             (Rlt_dec (get M d i) mn) as [Hlt|Hge].
    + lra.
    + split_and!; [lra|lra| | |].
      * intros j Hj. destruct (decide (j = d)) as [->|]; [lra|].
        specialize (Hall j ltac:(lia)). lra.
      * destruct Hmn as [->|(j & Hj & ->)]; [by left|right; exists j; split; [lia|done]].
      * right. exists d. split; [lia|done].
    + split_and!; [lra|lra| | |].
      * intros j Hj. destruct (decide (j = d)) as [->|]; [lra|].
        specialize (Hall j ltac:(lia)). lra.
      * right. exists d. split; [lia|done].
      * destruct Hmx as [->|(j & Hj & ->)]; [by left|right; exists j; split; [lia|done]].
    + split_and!; [lra|lra| | |].
      * intros j Hj. destruct (decide (j = d)) as [->|]; [lra|].
        specialize (Hall j ltac:(lia)). lra.
      * destruct Hmn as [->|(j & Hj & ->)]; [by left|right; exists j; split; [lia|done]].
      * destruct Hmx as [->|(j & Hj & ->)]; [by left|right; exists j; split; [lia|done]].
Qed.

Lemma linearScaling_eq (lower upper : R) (ds : DataSet R) :
  linearScaling lower upper ds
  = mkDataSet (_dim ds)
      (for_ (DataSet_size ds) (scale_sample lower upper (_dim ds)) (_hx ds)) (_hy ds).
Proof. reflexivity. Qed.

(** One sample is rescaled. *)
Lemma scale_sample_spec (lower upper : R) (dim i : nat) (M : mat R) :
  wf M → (dim < getRows M)%nat → (i < getCols M)%nat → lower <= upper →
  wf (scale_sample lower upper dim i M)
  ∧ getRows (scale_sample lower upper dim i M) = getRows M
  ∧ getCols (scale_sample lower upper dim i M) = getCols M
  ∧ (∀ j i', (j < getRows M)%nat → (i' < getCols M)%nat → i' ≠ i ∨ (dim ≤ j)%nat →
       get (scale_sample lower upper dim i M) j i' = get M j i')
  ∧ (∀ j, (j < dim)%nat → lower <= get (scale_sample lower upper dim i M) j i <= upper)
  ∧ ((0 < dim)%nat →
     ∃ j, (j < dim)%nat ∧ get (scale_sample lower upper dim i M) j i = upper)
  ∧ ((∃ j j', (j < dim)%nat ∧ (j' < dim)%nat ∧ get M j i ≠ get M j' i) →
     ∃ j, (j < dim)%nat ∧ get (scale_sample lower upper dim i M) j i = lower)
  ∧ ((∀ j j', (j < dim)%nat → (j' < dim)%nat → get M j i = get M j' i) →
     ∀ j, (j < dim)%nat → get (scale_sample lower upper dim i M) j i = upper).
Proof.
  intros Hwf Hdim Hi Hlu.
  destruct (minmax_loop M i dim) as (mn & mx & Hloop & H0 & Hall & Hmn & Hmx).
  cbv zeta in Hloop. unfold scale_sample. cbv zeta. rewrite Hloop.
  cbn [feqb R_FloatEq].
  assert (∀ k, (k < dim)%nat → (k < getRows M)%nat ∧ (i < getCols M)%nat) as Hin
    by (intros; lia).
  assert (∀ k k', (k < dim)%nat → (k' < dim)%nat → k = k' → i = i → k = k') as Hinj
    by (intros; lia).
  assert ((0 < dim)%nat → ∃ j, (j < dim)%nat ∧ mn = get M j i) as Hmn'.
  { intros Hd. destruct Hmn as [->|?]; [by exists 0%nat|done]. }
  assert ((0 < dim)%nat → ∃ j, (j < dim)%nat ∧ mx = get M j i) as Hmx'.
  { intros Hd. destruct Hmx as [->|?]; [by exists 0%nat|done]. }
  destruct (Req_dec_T mx mn) as [Heq|Hne].
  - destruct (for_hset_cells dim (λ k, k) (λ _, i) (λ _ _, upper) M Hwf Hin Hinj)
      as (Hwf' & Hr & Hc & Hhit & Hmiss).
    cbv beta in *. split_and!; [done..| | | | |].
    + intros j i' Hj Hi' Hor. apply Hmiss; [done..|]. intros k Hk [-> <-]. lia.
    + intros j Hj. rewrite Hhit by done. lra.
    + intros Hd. exists 0%nat. split; [done|]. by apply Hhit.
    + intros (j & j' & Hj & Hj' & Hdiff). exfalso. apply Hdiff.
      pose proof (Hall j Hj). pose proof (Hall j' Hj'). lra.
    + intros _ j Hj. by apply Hhit.
  - cbn [fadd fmul fsub fdiv R_Arith].
    destruct (for_hset_cells dim (λ k, k) (λ _, i)
                (λ _ x, (x - mn) * ((upper - lower) / (mx - mn)) + lower) M Hwf Hin Hinj)
      as (Hwf' & Hr & Hc & Hhit & Hmiss).
    cbv beta in *. split_and!; [done..| | | | |].
    + intros j i' Hj Hi' Hor. apply Hmiss; [done..|]. intros k Hk [-> <-]. lia.
    + intros j Hj. rewrite Hhit by done. apply scale_bounds; [by apply Hall|congruence|done].
    + intros Hd. destruct (Hmx' Hd) as (j & Hj & Hjx). exists j. split; [done|].
      rewrite Hhit by done. rewrite <- Hjx. apply scale_max. congruence.
    + intros (j0 & _ & Hj0 & _). destruct (Hmn' ltac:(lia)) as (j & Hj & Hjx).
      exists j. split; [done|]. rewrite Hhit by done. rewrite <- Hjx. apply scale_min.
    + intros Hconst j Hj. exfalso. apply Hne.
      destruct (Hmn' ltac:(lia)) as (a & Ha & ->).
      destruct (Hmx' ltac:(lia)) as (b & Hb & ->). by apply Hconst.
Qed.

(** Every sample is rescaled over its own features. *)
Lemma linearScaling_samples (lower upper : R) (ds : DataSet R) :
  wf (_hx ds) → getRows (_hx ds) = (_dim ds + 1)%nat →
  getCols (_hx ds) = DataSet_size ds → lower <= upper →
  _dim (linearScaling lower upper ds) = _dim ds
  ∧ _hy (linearScaling lower upper ds) = _hy ds
  ∧ wf (_hx (linearScaling lower upper ds))
  ∧ getRows (_hx (linearScaling lower upper ds)) = getRows (_hx ds)
  ∧ getCols (_hx (linearScaling lower upper ds)) = getCols (_hx ds)
  ∧ ∀ i, (i < DataSet_size ds)%nat →
      get (_hx (linearScaling lower upper ds)) (_dim ds) i = get (_hx ds) (_dim ds) i
      ∧ (∀ j, (j < _dim ds)%nat →
           lower <= get (_hx (linearScaling lower upper ds)) j i <= upper)
      ∧ ((0 < _dim ds)%nat →
         ∃ j, (j < _dim ds)%nat ∧ get (_hx (linearScaling lower upper ds)) j i = upper)
      ∧ ((∃ j j', (j < _dim ds)%nat ∧ (j' < _dim ds)%nat
                  ∧ get (_hx ds) j i ≠ get (_hx ds) j' i) →
         ∃ j, (j < _dim ds)%nat ∧ get (_hx (linearScaling lower upper ds)) j i = lower)
      ∧ ((∀ j j', (j < _dim ds)%nat → (j' < _dim ds)%nat →
            get (_hx ds) j i = get (_hx ds) j' i) →
         ∀ j, (j < _dim ds)%nat →
           get (_hx (linearScaling lower upper ds)) j i = upper).
Proof.
  intros Hwf Hrows Hcols Hlu. rewrite linearScaling_eq. cbn [_dim _hx _hy].
  set (M := _hx ds) in *. set (dim := _dim ds) in *. set (n := DataSet_size ds) in *.
  assert (∀ k, (k ≤ n)%nat →
    wf (for_ k (scale_sample lower upper dim) M)
    ∧ getRows (for_ k (scale_sample lower upper dim) M) = getRows M
    ∧ getCols (for_ k (scale_sample lower upper dim) M) = getCols M
    ∧ (∀ j i, (j < getRows M)%nat → (i < getCols M)%nat → (k ≤ i)%nat ∨ (dim ≤ j)%nat →
         get (for_ k (scale_sample lower upper dim) M) j i = get M j i)
    ∧ ∀ i, (i < k)%nat →
        (∀ j, (j < dim)%nat →
           lower <= get (for_ k (scale_sample lower upper dim) M) j i <= upper)
        ∧ ((0 < dim)%nat →
           ∃ j, (j < dim)%nat ∧ get (for_ k (scale_sample lower upper dim) M) j i = upper)
        ∧ ((∃ j j', (j < dim)%nat ∧ (j' < dim)%nat ∧ get M j i ≠ get M j' i) →
           ∃ j, (j < dim)%nat ∧ get (for_ k (scale_sample lower upper dim) M) j i = lower)
        ∧ ((∀ j j', (j < dim)%nat → (j' < dim)%nat → get M j i = get M j' i) →
           ∀ j, (j < dim)%nat →
             get (for_ k (scale_sample lower upper dim) M) j i = upper)) as Hloop.
  { induction k as [|k IH]; intros Hk.
    - rewrite for_0. split_and!; try done. intros; lia.
    - destruct IH as (Hwf' & Hr & Hc & Hsame & Hdone); [lia|].
      rewrite for_S. set (Mk := for_ k _ M) in *.
      destruct (scale_sample_spec lower upper dim k Mk)
        as (Hwf1 & Hr1 & Hc1 & Hsame1 & Hrange & Hup & Hlow & Hconst);
        [done|lia|lia|done|].
      assert (∀ j, (j < getRows M)%nat → get Mk j k = get M j k) as Hcol.
      { intros j Hj. apply Hsame; [done|lia|lia]. }
      split_and!; [done|congruence|congruence| |].
      + intros j i Hj Hi Hor. rewrite Hsame1 by lia. apply Hsame; [done..|lia].
      + intros i Hi. destruct (decide (i = k)) as [->|Hne].
        * split_and!; [done|done| |].
          -- intros (j & j' & Hj & Hj' & Hd). apply Hlow. exists j, j'.
             rewrite !Hcol by lia. done.
          -- intros Hall. apply Hconst. intros j j' Hj Hj'. rewrite !Hcol by lia.
             by apply Hall.
        * destruct (Hdone i ltac:(lia)) as (Hra & Hu & Hl & Hcn).
          assert (∀ j, (j < dim)%nat →
                    get (scale_sample lower upper dim k Mk) j i = get Mk j i) as Hkeep.
          { intros j Hj. apply Hsame1; [lia|lia|by left]. }
          split_and!.
          -- intros j Hj. rewrite Hkeep by done. by apply Hra.
          -- intros Hd. destruct (Hu Hd) as (j & Hj & Hju). exists j.
             by rewrite Hkeep.
          -- intros Hex. destruct (Hl Hex) as (j & Hj & Hjl). exists j.
             by rewrite Hkeep.
          -- intros Hall j Hj. rewrite Hkeep by done. by apply Hcn. }
  destruct (Hloop n ltac:(lia)) as (Hwf' & Hr & Hc & Hsame & Hdone).
  split_and!; [done..|].
  intros i Hi. split; [|by apply Hdone].
  apply Hsame; [lia|lia|by right].
Qed.
(** X23: [linearScaling(lower, upper)] with lower <= upper rescales every
    sample over its own features: afterwards each feature of the sample
    lies between [lower] and [upper], the greatest one is [upper] and, if
    the features of the sample are not all equal, the least one is
    [lower]; a sample whose features are all equal gets [upper] for each
    of them. The row of ones for the bias, the labels and the shapes are
    left as they were. *)
Theorem linearScaling_spec (lower upper : R) (ds : DataSet R) :
  wf (_hx ds) → getRows (_hx ds) = (_dim ds + 1)%nat →
  getCols (_hx ds) = DataSet_size ds → lower <= upper →
  _dim (linearScaling lower upper ds) = _dim ds
  ∧ _hy (linearScaling lower upper ds) = _hy ds
  ∧ wf (_hx (linearScaling lower upper ds))
  ∧ getRows (_hx (linearScaling lower upper ds)) = getRows (_hx ds)
  ∧ getCols (_hx (linearScaling lower upper ds)) = getCols (_hx ds)
  ∧ ∀ i, (i < DataSet_size ds)%nat →
      get (_hx (linearScaling lower upper ds)) (_dim ds) i = get (_hx ds) (_dim ds) i
      ∧ (∀ j, (j < _dim ds)%nat →
           lower <= get (_hx (linearScaling lower upper ds)) j i <= upper)
      ∧ ((0 < _dim ds)%nat →
         ∃ j, (j < _dim ds)%nat ∧ get (_hx (linearScaling lower upper ds)) j i = upper)
      ∧ ((∃ j j', (j < _dim ds)%nat ∧ (j' < _dim ds)%nat
                  ∧ get (_hx ds) j i ≠ get (_hx ds) j' i) →
         ∃ j, (j < _dim ds)%nat ∧ get (_hx (linearScaling lower upper ds)) j i = lower)
      ∧ ((∀ j j', (j < _dim ds)%nat → (j' < _dim ds)%nat →
            get (_hx ds) j i = get (_hx ds) j' i) →
         ∀ j, (j < _dim ds)%nat →
           get (_hx (linearScaling lower upper ds)) j i = upper).
Proof. apply linearScaling_samples. Qed.

(** X24: [normalize(type)] rescales every sample to the range from 0 to 1
    for type 1 (each feature of a sample then lies between 0 and 1) and
    takes the standard score for type 2; for type 0 and for every other
    type it leaves the data set as it is, without a complaint. *)
Theorem DataSet_normalize_spec (type : Z) (ds : DataSet R) :
  (type ≠ 1%Z → type ≠ 2%Z → DataSet_normalize type ds = ds)
  ∧ DataSet_normalize 2 ds = normalizeToStandardScore ds
  ∧ (wf (_hx ds) → getRows (_hx ds) = (_dim ds + 1)%nat →
     getCols (_hx ds) = DataSet_size ds →
     ∀ i j, (i < DataSet_size ds)%nat → (j < _dim ds)%nat →
       0 <= get (_hx (DataSet_normalize 1 ds)) j i <= 1).
Proof.
  split_and!.
  - intros H1 H2. unfold DataSet_normalize. destruct type as [|p|p]; [done| |done].
    destruct p as [p|p|]; try done. destruct p; try done.
  - done.
  - intros Hwf Hrows Hcols i j Hi Hj.
    destruct (linearScaling_samples 0 1 ds Hwf Hrows Hcols ltac:(lra))
      as (_ & _ & _ & _ & _ & Hsamples).
    destruct (Hsamples i Hi) as (_ & Hrange & _). by apply Hrange.
Qed.

End ScalingFacts.

(** ** The standard score *)

Section StandardScoreFacts.
Local Open Scope R_scope.

Lemma for_fsum n (f : nat → R) :
  for_ n (λ j acc, fadd acc (f j)) fzero = fsum (f <$> seq 0 n).
Proof. unfold for_, fsum. by rewrite foldl_fmap. Qed.

Lemma fsum_const n (c : R) : fsum ((λ _, c) <$> seq 0 n) = INR n * c.
Proof.
  generalize 0%nat. induction n as [|n IH]; intros a.
  - cbn. unfold fsum. cbn. lra.
  - cbn [seq fmap list_fmap]. rewrite fsum_cons. change (list_fmap _ _ ?f ?l) with (f <$> l).
    rewrite IH, S_INR. lra.
Qed.

Lemma fsum_sub (m : R) (l : list R) :
  fsum ((λ x, x - m) <$> l) = fsum l - INR (length l) * m.
Proof.
  induction l as [|x l IH].
  - unfold fsum. cbn. lra.
  - cbn [fmap list_fmap length]. change (list_fmap _ _ ?f ?l) with (f <$> l).
    rewrite !fsum_cons, IH, S_INR. lra.
Qed.

Lemma fsum_sqr_div (d : R) (l : list R) :
  fsum ((λ x, Rsqr (x / d)) <$> l) = fsum (Rsqr <$> l) / Rsqr d.
Proof.
  induction l as [|x l IH].
  - unfold fsum. cbn. lra.
  - cbn [fmap list_fmap]. change (list_fmap _ _ ?f ?l) with (f <$> l).
    rewrite !fsum_cons, IH, Rsqr_div'. lra.
Qed.

Lemma fsum_sqr_nonneg (l : list R) : 0 <= fsum (Rsqr <$> l).
Proof.
  induction l as [|x l IH].
  - unfold fsum. cbn. lra.
  - cbn [fmap list_fmap]. change (list_fmap _ _ ?f ?l) with (f <$> l).
    rewrite fsum_cons. pose proof (Rle_0_sqr x). lra.
Qed.

Lemma fsum_sqr_ge (l : list R) x : x ∈ l → Rsqr x <= fsum (Rsqr <$> l).
Proof.
  induction l as [|y l IH]; intros Hin; [by apply elem_of_nil in Hin|].
  cbn [fmap list_fmap]. change (list_fmap _ _ ?f ?l) with (f <$> l). rewrite fsum_cons.
  apply elem_of_cons in Hin as [->|Hin].
  - pose proof (fsum_sqr_nonneg l). lra.
  - pose proof (IH Hin). pose proof (Rle_0_sqr y). lra.
Qed.

(** The score of [x] in a row with the entries [xs]. *)
Lemma standardize_row_spec (n i : nat) (M : mat R) :
  wf M → (i < getRows M)%nat → n = getCols M →
  wf (standardize_row n i M)
  ∧ getRows (standardize_row n i M) = getRows M
  ∧ getCols (standardize_row n i M) = getCols M
  ∧ (∀ i' j, (i' < getRows M)%nat → (j < getCols M)%nat → i' ≠ i →
       get (standardize_row n i M) i' j = get M i' j)
  ∧ ∀ j, (j < n)%nat →
      let mean := fsum (row_of M i) / INR n in
      let deviation :=
        sqrt (fsum ((λ x, Rsqr (x - mean)) <$> row_of M i) / INR (n - 1)) in
      get (standardize_row n i M) i j
      = if (n <=? 1)%nat then get M i j - mean
        else if Req_dec_T deviation 0 then get M i j - mean
        else (get M i j - mean) / deviation.
Proof.
  intros Hwf Hi ->. set (n := getCols M).
  unfold standardize_row. cbv zeta.
  rewrite (for_fsum n (λ j, get M i j)). fold (row_of M i).
  cbn [fdiv fsub of_size fsqrt fpow2 feqb fzero R_Arith R_CMath R_FloatEq].
  set (mean := fsum (row_of M i) / INR n).
  assert (∀ k, (k < n)%nat → (i < getRows M)%nat ∧ (k < getCols M)%nat) as Hin
    by (intros; unfold n in *; lia).
  assert (∀ k k', (k < n)%nat → (k' < n)%nat → i = i → k = k' → k = k') as Hinj
    by (intros; lia).
  destruct (for_hset_cells n (λ _, i) (λ k, k) (λ _ x, x - mean) M Hwf Hin Hinj)
    as (Hwf1 & Hr1 & Hc1 & Hhit1 & Hmiss1).
  cbv beta in *. set (M1 := for_ n _ M) in *.
  destruct (Nat.leb_spec n 1) as [Hle|Hgt].
  { split_and!; [done..| |].
    - intros i' j Hi' Hj Hne. apply Hmiss1; [done..|]. intros k Hk [E _]. congruence.
    - intros j Hj. by apply Hhit1. }
  rewrite (for_fsum n (λ j, Rsqr (get M1 i j))).
  assert ((λ j, Rsqr (get M1 i j)) <$> seq 0 n
          = (λ x, Rsqr (x - mean)) <$> row_of M i) as ->.
  { unfold row_of. rewrite <- list_fmap_compose. apply list_fmap_ext.
    intros k j Hj. apply lookup_seq in Hj as [-> Hj]. simpl. by rewrite Hhit1. }
  set (dev := sqrt (fsum ((λ x, Rsqr (x - mean)) <$> row_of M i) / INR (n - 1))).
  destruct (Req_dec_T dev 0) as [Hz|Hnz].
  { split_and!; [done..| |].
    - intros i' j Hi' Hj Hne. apply Hmiss1; [done..|]. intros k Hk [E _]. congruence.
    - intros j Hj. by apply Hhit1. }
  assert (∀ k, (k < n)%nat → (i < getRows M1)%nat ∧ (k < getCols M1)%nat) as Hin'
    by (intros; rewrite Hr1, Hc1; unfold n in *; lia).
  destruct (for_hset_cells n (λ _, i) (λ k, k) (λ _ x, x / dev) M1 Hwf1 Hin' Hinj)
    as (Hwf2 & Hr2 & Hc2 & Hhit2 & Hmiss2).
  cbv beta in *.
  split_and!; [exact Hwf2|exact (eq_trans Hr2 Hr1)|exact (eq_trans Hc2 Hc1)| |].
  - intros i' j Hi' Hj Hne. etrans; [apply Hmiss2|].
    + by rewrite Hr1.
    + by rewrite Hc1.
    + intros k Hk [E _]. congruence.
    + apply Hmiss1; [done..|]. intros k Hk [E _]. congruence.
  - intros j Hj. etrans; [apply (Hhit2 j Hj)|]. by rewrite Hhit1.
Qed.

Lemma normalizeToStandardScore_eq (ds : DataSet R) :
  normalizeToStandardScore ds
  = mkDataSet (_dim ds)
      (for_ (_dim ds) (standardize_row (getCols (_hx ds))) (_hx ds)) (_hy ds).
Proof. reflexivity. Qed.

(** X25: [normalizeToStandardScore] on a data set of n samples replaces
    every feature (every row of [_hx] but the last, the bias) by its
    standard score over the samples. With n at least 2, a feature that is
    not the same for all samples ends with mean 0 and with sample variance
    1 (its squares add up to n - 1); a feature that is the same for all
    samples becomes 0 for all of them, and no division by the deviation 0
    takes place. With one sample every feature becomes 0. The bias row, the
    labels and the shapes are left as they were. *)
Theorem normalizeToStandardScore_spec (ds : DataSet R) :
  wf (_hx ds) → (_dim ds ≤ getRows (_hx ds))%nat →
  _dim (normalizeToStandardScore ds) = _dim ds
  ∧ _hy (normalizeToStandardScore ds) = _hy ds
  ∧ wf (_hx (normalizeToStandardScore ds))
  ∧ getRows (_hx (normalizeToStandardScore ds)) = getRows (_hx ds)
  ∧ getCols (_hx (normalizeToStandardScore ds)) = getCols (_hx ds)
  ∧ (∀ i j, (_dim ds ≤ i < getRows (_hx ds))%nat → (j < getCols (_hx ds))%nat →
       get (_hx (normalizeToStandardScore ds)) i j = get (_hx ds) i j)
  ∧ ∀ i, (i < _dim ds)%nat →
      (getCols (_hx ds) = 1%nat → get (_hx (normalizeToStandardScore ds)) i 0 = 0)
      ∧ ((2 ≤ getCols (_hx ds))%nat →
         ((∀ j j', (j < getCols (_hx ds))%nat → (j' < getCols (_hx ds))%nat →
             get (_hx ds) i j = get (_hx ds) i j') →
          ∀ j, (j < getCols (_hx ds))%nat →
            get (_hx (normalizeToStandardScore ds)) i j = 0)
         ∧ ((∃ j j', (j < getCols (_hx ds))%nat ∧ (j' < getCols (_hx ds))%nat
                     ∧ get (_hx ds) i j ≠ get (_hx ds) i j') →
            fsum (row_of (_hx (normalizeToStandardScore ds)) i) = 0
            ∧ fsum (Rsqr <$> row_of (_hx (normalizeToStandardScore ds)) i)
              = INR (getCols (_hx ds) - 1))).
Proof.
  intros Hwf Hdim. rewrite normalizeToStandardScore_eq. cbn [_dim _hx _hy].
  set (M := _hx ds) in *. set (dim := _dim ds) in *. set (n := getCols M).
  (* the rows are standardised one after the other *)
  assert (∀ k, (k ≤ dim)%nat →
    wf (for_ k (standardize_row n) M)
    ∧ getRows (for_ k (standardize_row n) M) = getRows M
    ∧ getCols (for_ k (standardize_row n) M) = getCols M
    ∧ (∀ i j, (i < getRows M)%nat → (j < n)%nat → (k ≤ i)%nat →
         get (for_ k (standardize_row n) M) i j = get M i j)
    ∧ ∀ i j, (i < k)%nat → (j < n)%nat →
        get (for_ k (standardize_row n) M) i j
        = get (standardize_row n i M) i j) as Hloop.
  { induction k as [|k IH]; intros Hk.
    - rewrite for_0. split_and!; try done. intros; lia.
    - destruct IH as (Hwf' & Hr & Hc & Hsame & Hdone); [lia|].
      rewrite for_S. set (Mk := for_ k _ M) in *.
      destruct (standardize_row_spec n k Mk) as (Hwf1 & Hr1 & Hc1 & Hoth & Hrow);
        [done|lia|by rewrite Hc|].
      destruct (standardize_row_spec n k M) as (_ & _ & _ & _ & Hrow');
        [done|lia|done|].
      assert (row_of Mk k = row_of M k) as Hrk.
      { unfold row_of. rewrite Hc. apply list_fmap_ext. intros a j Hj.
        apply lookup_seq in Hj as [-> Hj]. simpl. apply Hsame; [lia|done|lia]. }
      split_and!; [done|congruence|congruence| |].
      + intros i j Hi Hj Hki. rewrite Hoth by (rewrite ?Hr, ?Hc; unfold n in *; lia).
        apply Hsame; [done..|lia].
      + intros i j Hi Hj. destruct (decide (i = k)) as [->|Hne].
        * rewrite (Hrow j Hj), (Hrow' j Hj). cbv zeta. rewrite Hrk.
          rewrite (Hsame k j); [done|lia|done|lia].
        * rewrite Hoth by (rewrite ?Hr, ?Hc; unfold n in *; lia). apply Hdone; [lia|done]. }
  destruct (Hloop dim ltac:(lia)) as (Hwf' & Hr & Hc & Hsame & Hdone).
  set (M' := for_ dim (standardize_row n) M) in *.
  split_and!; [done..| |].
  { intros i j Hi Hj. apply Hsame; [lia|done|lia]. }
  intros i Hi.
  destruct (standardize_row_spec n i M) as (_ & _ & _ & _ & Hrow); [done|lia|done|].
  cbv zeta in Hrow.
  set (mean := fsum (row_of M i) / INR n) in *.
  set (S := fsum ((λ x, Rsqr (x - mean)) <$> row_of M i)) in *.
  set (dev := sqrt (S / INR (n - 1))) in *.
  assert (length (row_of M i) = n) as Hlen.
  { unfold row_of. by rewrite length_fmap, length_seq. }
  split.
  - intros Hn1. rewrite Hdone by (done || lia). rewrite Hrow by lia.
    fold n in Hn1. rewrite Hn1. cbn [Nat.leb]. unfold mean, row_of. fold n. rewrite Hn1.
    cbn [seq fmap list_fmap]. rewrite fsum_cons. unfold fsum. cbn. field.
  - intros Hn2. fold n in Hn2.
    assert (0 < INR n) as HnR by (apply lt_0_INR; lia).
    assert (0 < INR (n - 1)) as Hn1R by (apply lt_0_INR; lia).
    assert ((n <=? 1)%nat = false) as Hleb by (apply Nat.leb_gt; lia).
    assert (0 <= S) as HS.
    { unfold S. rewrite (list_fmap_compose (λ x, x - mean) Rsqr).
      apply fsum_sqr_nonneg. }
    split.
    + intros Hconst j Hj. rewrite Hdone by done. rewrite Hrow by done. rewrite Hleb.
      assert (row_of M i = (λ _, get M i j) <$> seq 0 n) as Hrc.
      { unfold row_of. apply list_fmap_ext. intros a j' Hj'.
        apply lookup_seq in Hj' as [-> Hj']. simpl. by apply Hconst. }
      assert (mean = get M i j) as Hm.
      { unfold mean. rewrite Hrc, fsum_const. field. lra. }
      destruct (Req_dec_T dev 0) as [_|Hnz]; [lra|].
      exfalso. apply Hnz. unfold dev.
      assert (S = 0) as ->.
      { unfold S. rewrite Hrc, <- list_fmap_compose.
        erewrite (list_fmap_ext _ (λ _, 0)); [rewrite fsum_const; lra|].
        intros k b _. simpl. rewrite Hm. unfold Rsqr. lra. }
      replace (0 / INR (n - 1)) with 0 by (field; lra). apply sqrt_0.
    + intros (j & j' & Hj & Hj' & Hdiff).
      assert (∃ a, (a < n)%nat ∧ get M i a ≠ mean) as (a & Ha & Hane).
      { destruct (Req_dec_T (get M i j) mean) as [E|E]; [|by exists j].
        exists j'. split; [done|]. congruence. }
      assert (0 < S) as HSpos.
      { assert (Rsqr (get M i a - mean) <= S) as Hge.
        { unfold S. rewrite (list_fmap_compose (λ x, x - mean) Rsqr).
          apply fsum_sqr_ge. apply list_elem_of_fmap. exists (get M i a). split; [done|].
          unfold row_of. apply list_elem_of_fmap. exists a. split; [done|].
          apply elem_of_seq. lia. }
        assert (0 < Rsqr (get M i a - mean)); [|lra].
        apply Rlt_0_sqr. lra. }
      assert (0 < S / INR (n - 1)) as Hq by (by apply Rdiv_lt_0_compat).
      assert (0 < dev) as Hdev by (by apply sqrt_lt_R0).
      assert (row_of M' i = (λ x, (x - mean) / dev) <$> row_of M i) as HM'.
      { unfold row_of. rewrite Hc. fold n. rewrite <- list_fmap_compose.
        apply list_fmap_ext. intros k b Hb. apply lookup_seq in Hb as [-> Hb]. simpl.
        rewrite Hdone by done. rewrite Hrow by done. rewrite Hleb.
        destruct (Req_dec_T dev 0); [lra|done]. }
      rewrite HM'. split.
      * rewrite (list_fmap_compose (λ x, x - mean) (λ y, y / dev)).
        rewrite fsum_div, fsum_sub, Hlen. unfold mean. field. lra.
      * rewrite <- list_fmap_compose.
        rewrite (list_fmap_compose (λ x, x - mean) (λ y, Rsqr (y / dev))).
        rewrite fsum_sqr_div. rewrite <- list_fmap_compose.
        change (fsum (Rsqr ∘ (λ x, x - mean) <$> row_of M i)) with S.
        unfold dev. rewrite Rsqr_sqrt by lra.
        assert (∀ s q, 0 < s → 0 < q → s / (s / q) = q) as Hsq
          by (intros; field; lra).
        by apply Hsq.
Qed.
End StandardScoreFacts.

(** [dsR] is rescaled to [0, 1]. *)
Lemma linearScaling_spec_witness :
  wf (_hx dsR) ∧ getRows (_hx dsR) = (_dim dsR + 1)%nat
  ∧ getCols (_hx dsR) = DataSet_size dsR ∧ (0 <= 1)%R
  ∧ _dim (linearScaling 0%R 1%R dsR) = 2%nat
  ∧ wf (_hx (linearScaling 0%R 1%R dsR)).
Proof.
  assert (wf (_hx dsR)) as H1 by reflexivity.
  assert (getRows (_hx dsR) = (_dim dsR + 1)%nat) as H2 by reflexivity.
  assert (getCols (_hx dsR) = DataSet_size dsR) as H3 by reflexivity.
  assert (0 <= 1)%R as H4 by lra.
  destruct (linearScaling_spec 0%R 1%R dsR H1 H2 H3 H4) as (Hd & _ & Hwf & _).
  split_and!; done.
Defined.

(** The standard score of [dsR]. *)
Lemma normalizeToStandardScore_spec_witness :
  wf (_hx dsR) ∧ (_dim dsR ≤ getRows (_hx dsR))%nat
  ∧ _dim (normalizeToStandardScore dsR) = 2%nat
  ∧ wf (_hx (normalizeToStandardScore dsR)).
Proof.
  assert (wf (_hx dsR)) as H1 by reflexivity.
  assert (_dim dsR ≤ getRows (_hx dsR))%nat as H2 by (simpl; lia).
  destruct (normalizeToStandardScore_spec dsR H1 H2) as (Hd & _ & Hwf & _).
  split_and!; done.
Defined.

(** ** Lines and tokens *)

Lemma contains_is_space c s : is_space c = true → no_space s = true → contains c s = false.
Proof.
  intros Hc. induction s as [|x s IH]; [done|]. simpl.
  intros [Hx Hs]%andb_true_iff. rewrite IH by done.
  destruct (Ascii.eqb_spec x c) as [->|]; [|done]. by rewrite Hc in Hx.
Qed.

Lemma words_from_token cur (t rest : string) :
  no_space t = true → words_from cur (t +:+ rest) = words_from (cur +:+ t) rest.
Proof.
  revert cur. induction t as [|x t IH]; intros cur.
  - intros _. by rewrite append_nil_l, append_nil_r.
  - rewrite append_cons. simpl. intros [Hx Ht]%andb_true_iff.
    apply negb_true_iff in Hx. rewrite Hx, IH by done. by rewrite append_assoc.
Qed.

Lemma is_token_inv t : is_token t = true → t ≠ "" ∧ no_space t = true.
Proof.
  unfold is_token. intros [Hne Hs]%andb_true_iff. split; [|done]. by intros ->.
Qed.

Lemma words_unwords (toks : list string) :
  Forall (λ t, is_token t = true) toks → words (unwords toks) = toks.
Proof.
  unfold words. induction toks as [|t toks IH]; intros Hok; [done|].
  apply Forall_cons_1 in Hok as [Ht Hok]. apply is_token_inv in Ht as [Hne Hs].
  destruct toks as [|t' toks].
  - cbn [unwords]. rewrite <- (append_nil_r t) at 1.
    rewrite words_from_token, append_nil_l by done. simpl.
    by rewrite (proj2 (String.eqb_neq _ _)).
  - change (unwords (t :: t' :: toks)) with (t +:+ " " +:+ unwords (t' :: toks)).
    rewrite words_from_token, append_nil_l by done.
    change (" " +:+ unwords (t' :: toks)) with (String " " (unwords (t' :: toks))).
    cbn [words_from]. change (is_space " ") with true. cbv iota.
    rewrite (proj2 (String.eqb_neq _ _)) by done. by rewrite IH.
Qed.

Lemma no_space_app (a b : string) :
  no_space (a +:+ b) = no_space a && no_space b.
Proof.
  induction a as [|x a IH]; [by rewrite append_nil_l|].
  rewrite append_cons. simpl. rewrite IH. by rewrite andb_assoc.
Qed.

Lemma contains_unwords c (toks : list string) :
  c ≠ " "%char → Forall (λ t, contains c t = false) toks →
  contains c (unwords toks) = false.
Proof.
  intros Hc. induction toks as [|t toks IH]; intros Hok; [done|].
  apply Forall_cons_1 in Hok as [Ht Hok]. destruct toks as [|t' toks]; [done|].
  change (unwords (t :: t' :: toks)) with (t +:+ " " +:+ unwords (t' :: toks)).
  rewrite !contains_app, Ht, IH by done. cbn [contains orb].
  destruct (Ascii.eqb_spec " " c) as [E|]; [congruence|done].
Qed.

Lemma getlines_unlines (lines : list string) :
  Forall (λ l, contains "010" l = false) lines → getlines (unlines lines) = lines.
Proof.
  unfold getlines. induction lines as [|l lines IH]; intros Hok; [done|].
  apply Forall_cons_1 in Hok as [Hl Hok]. cbn [unlines foldr].
  fold (unlines lines). rewrite split_from_field by done.
  by rewrite append_nil_l, IH.
Qed.

(** A line of a dense file has no line break in it. *)
Lemma dense_line_ok (row : string * list string) :
  Forall (λ t, is_token t = true) (row.1 :: row.2) →
  contains "010" (dense_line row) = false
  ∧ words (dense_line row) = row.1 :: row.2.
Proof.
  intros Hok. split; [|by apply words_unwords].
  apply contains_unwords; [done|]. eapply Forall_impl; [exact Hok|].
  intros t [_ Ht]%is_token_inv. by apply contains_is_space.
Qed.

Lemma getlines_dense_file (rows : list (string * list string)) :
  Forall (λ row, Forall (λ t, is_token t = true) (row.1 :: row.2)) rows →
  getlines (dense_file rows) = dense_line <$> rows.
Proof.
  intros Hok. apply getlines_unlines. apply Forall_fmap.
  eapply Forall_impl; [exact Hok|]. intros row Hrow. by apply dense_line_ok.
Qed.

(** X26: the scans ahead of [DataSet::read] on a file of lines that are
    ended by a line break: [getLineNumber] is the number of lines, blank
    lines included, and a last line without its line break counts if it is
    not empty; [findDimension] is the number of tokens of the first line
    after the first one, so 0 for an empty file or a first line of one
    token; [isFileSparse] looks for a colon in the first line only. *)
Theorem DataSet_scans_spec (lines : list string) (last_line : string)
    (label : string) (feats : list string) (rest : list string) :
  Forall (λ l, contains "010" l = false) lines →
  contains "010" last_line = false →
  Forall (λ t, is_token t = true) (label :: feats) →
  Forall (λ l, contains "010" l = false) rest →
  getLineNumber (unlines lines) = length lines
  ∧ getLineNumber (unlines lines +:+ last_line)
    = length lines + (if String.eqb last_line "" then 0 else 1)
  ∧ findDimension (unlines (unwords (label :: feats) :: rest)) = length feats
  ∧ findDimension "" = 0
  ∧ isFileSparse (unlines (unwords (label :: feats) :: rest))
    = existsb (contains ":") (label :: feats).
Proof.
  intros Hlines Hlast Htoks Hrest.
  assert (contains "010" (unwords (label :: feats)) = false) as Hfirst.
  { apply contains_unwords; [done|]. eapply Forall_impl; [exact Htoks|].
    intros t [_ Ht]%is_token_inv. by apply contains_is_space. }
  split_and!.
  - unfold getLineNumber. by rewrite getlines_unlines.
  - unfold getLineNumber, getlines. clear Htoks Hrest Hfirst.
    induction lines as [|l lines IH].
    + cbn [unlines foldr length]. rewrite append_nil_l.
      destruct (String.eqb_spec last_line "") as [->|Hne]; [done|].
      rewrite split_from_last by (by rewrite ?append_nil_l). done.
    + apply Forall_cons_1 in Hlines as [Hl Hlines]. cbn [unlines foldr].
      fold (unlines lines). rewrite append_assoc, append_cons.
      rewrite split_from_field by done. cbn [length]. by rewrite IH.
  - unfold findDimension. cbv zeta. rewrite getlines_unlines by (by constructor).
    cbn [head default from_option]. unfold Datatypes.id. by rewrite words_unwords.
  - done.
  - unfold isFileSparse. rewrite getlines_unlines by (by constructor).
    cbn [head default from_option]. unfold Datatypes.id. clear -Htoks.
    induction (label :: feats) as [|t ts IH]; [done|].
    apply Forall_cons_1 in Htoks as [Ht Hts]. destruct ts as [|t' ts].
    + simpl. by rewrite orb_false_r.
    + change (unwords (t :: t' :: ts)) with (t +:+ " " +:+ unwords (t' :: ts)).
      rewrite !contains_app, IH by done. cbn [contains existsb orb].
      change (Ascii.eqb " " ":") with false. cbn [orb]. done.
Qed.

(** ** Reading a dense file *)

Section ReadFacts.
Context {T : Type} `{Arith T}.
Variable str2float : string → T.
Variable float_to_size : T → nat.
Variable fresh_x fresh_y : nat → T.

Lemma for_hset_linear n (v : nat → T) (A : mat T) :
  for_ n (λ i A, hset_linear A i (v i)) A
  = Mat (getRows A) (getCols A) (for_ n (λ i l, <[i := v i]> l) (getData A)).
Proof.
  induction n as [|n IH]; [by destruct A|]. by rewrite !for_S, IH.
Qed.

Lemma for_triple {A B C} n (f : nat → A → A) (g : nat → B → B) (h : nat → C → C) a b c :
  for_ n (λ i '(x, y, z), (f i x, g i y, h i z)) (a, b, c)
  = (for_ n f a, for_ n g b, for_ n h c).
Proof.
  induction n as [|n IH]; [done|]. by rewrite !for_S, IH.
Qed.

(** The loop of [readDenseFeature] on a file of [d] features a line. *)
Lemma readDenseFeature_dense (rows : list (string * list string)) (d : nat)
    (hx hy : mat T) (token : string) :
  Forall (λ row, Forall (λ t, is_token t = true) (row.1 :: row.2) ∧ length row.2 = d)
    rows →
  ∃ token',
    readDenseFeature str2float (dense_file rows) (hx, hy, token)
    = (Mat (getRows hx) (getCols hx)
         (for_ (length rows)
            (λ i, for_ d (λ j l, <[i * getRows hx + j
                                    := str2float ((rows !!! i).2 !!! j)]> l))
            (getData hx)),
       Mat (getRows hy) (getCols hy)
         (for_ (length rows) (λ i l, <[i := str2float (rows !!! i).1]> l) (getData hy)),
       token').
Proof.
  intros Hok. unfold readDenseFeature. cbv zeta.
  rewrite getlines_dense_file.
  2:{ eapply Forall_impl; [exact Hok|]. by intros row [? _]. }
  rewrite length_fmap.
  rewrite (for_ext (length rows) _
    (λ i '(hx, hy, token),
       (for_ d (λ j hx, hset hx j i (str2float ((rows !!! i).2 !!! j))) hx,
        hset_linear hy i (str2float (rows !!! i).1),
        (λ _ : string, default (rows !!! i).1 (last ((rows !!! i).1 :: (rows !!! i).2)))
          token))).
  2:{ intros i [[hx' hy'] tok] Hi.
      destruct (lookup_lt_is_Some_2 rows i Hi) as [row Hrow].
      rewrite (list_lookup_total_correct rows i row Hrow).
      erewrite (list_lookup_total_correct (dense_line <$> rows));
        [|by rewrite list_lookup_fmap, Hrow].
      rewrite Forall_forall in Hok.
      destruct (Hok row) as [Htoks Hlen]; [by eapply list_elem_of_lookup_2|].
      destruct (dense_line_ok row Htoks) as [_ ->].
      cbn [read_label head default from_option tail]. unfold Datatypes.id.
      by rewrite Hlen. }
  rewrite (for_triple (length rows)
    (λ i hx, for_ d (λ j hx, hset hx j i (str2float ((rows !!! i).2 !!! j))) hx)
    (λ i hy, hset_linear hy i (str2float (rows !!! i).1))
    (λ i (_ : string), default (rows !!! i).1 (last ((rows !!! i).1 :: (rows !!! i).2)))).
  rewrite (for_for_hset (length rows) d (λ i j, j) (λ i j, i)
             (λ i j, str2float ((rows !!! i).2 !!! j))).
  rewrite for_hset_linear. by eexists.
Qed.

(** X27: [DataSet::read] throws the error "Cannot load file: " followed by
    the file name when the file cannot be opened. On a dense file (no
    colon in the first line) of N lines, each a label followed by d
    features, with tokens separated by one blank and each line ended by a
    line break, read from a data set whose dimension is d or is still 0
    (then the dimension is found from the first line), it sets the
    dimension to d and gives [_hx] d + 1 rows and N columns and [_hy] one
    row of N labels: column i of [_hx] holds the d features of line i as
    [str2float] converts them and 1 in the last row, and [_hy] holds the
    converted label of line i at position i. Nothing of what the storage
    held after [resize] is left. *)
Theorem DataSet_read_dense (fs : string → option string) (fn : string)
    (ds : DataSet T) (rows : list (string * list string)) (d : nat) :
  (fs fn = None →
   DataSet_read str2float float_to_size fresh_x fresh_y fs fn ds
   = Throw (RED_ERROR +:+ "Cannot load file: " +:+ fn))
  ∧ (fs fn = Some (dense_file rows) →
     Forall (λ row, Forall (λ t, is_token t = true) (row.1 :: row.2) ∧ length row.2 = d)
       rows →
     (∀ row, head rows = Some row → Forall (λ t, contains ":" t = false) (row.1 :: row.2)) →
     _dim ds = d ∨ (_dim ds = 0 ∧ rows ≠ []) →
     ∃ hx hy,
       DataSet_read str2float float_to_size fresh_x fresh_y fs fn ds
       = Ok (mkDataSet d hx hy)
       ∧ wf hx ∧ getRows hx = d + 1 ∧ getCols hx = length rows
       ∧ wf hy ∧ getRows hy = 1 ∧ getCols hy = length rows
       ∧ ∀ i row, rows !! i = Some row →
           getData hy !! i = Some (str2float row.1)
           ∧ (∀ j f, row.2 !! j = Some f → get hx j i = str2float f)
           ∧ get hx d i = fone).
Proof.
  split; [intros Hfs; unfold DataSet_read; by rewrite Hfs|].
  intros Hfs Hok Hcolon Hdim. unfold DataSet_read. rewrite Hfs. cbv zeta.
  assert (Forall (λ row, Forall (λ t, is_token t = true) (row.1 :: row.2)) rows) as Hok'.
  { eapply Forall_impl; [exact Hok|]. by intros row [? _]. }
  assert (isFileSparse (dense_file rows) = false) as ->.
  { unfold isFileSparse. rewrite getlines_dense_file by done.
    destruct rows as [|row rows']; [done|]. cbn [fmap list_fmap head default from_option].
    unfold Datatypes.id. apply contains_unwords; [done|]. by apply Hcolon. }
  assert ((if _dim ds =? 0 then findDimension (dense_file rows) else _dim ds) = d) as ->.
  { destruct (Nat.eqb_spec (_dim ds) 0) as [E|E]; [|by destruct Hdim as [?|[? _]]].
    unfold findDimension. cbv zeta. rewrite getlines_dense_file by done.
    destruct rows as [|row rows'].
    - destruct Hdim as [<-|[_ ?]]; [by rewrite E|done].
    - cbn [fmap list_fmap head default from_option]. unfold Datatypes.id.
      apply Forall_cons_1 in Hok as [[Htoks Hlen] _].
      unfold dense_line. by rewrite words_unwords. }
  assert (getLineNumber (dense_file rows) = length rows) as ->.
  { unfold getLineNumber. by rewrite getlines_dense_file, length_fmap. }
  set (N := length rows).
  destruct (readDenseFeature_dense rows d
              (Mat (d + 1) N (fresh_x <$> seq 0 ((d + 1) * N)))
              (Mat 1 N (fresh_y <$> seq 0 (1 * N))) "" Hok) as (token' & ->).
  cbn [getRows getCols getData]. fold N.
  rewrite (for_hset N (λ _, d) (λ i, i) (λ _, fone)). cbn [getRows getCols getData].
  set (X := for_ N (λ i, for_ d (λ j l, <[i * (d + 1) + j
                                        := str2float ((rows !!! i).2 !!! j)]> l))
              (fresh_x <$> seq 0 ((d + 1) * N))).
  assert (length X = (d + 1) * N) as HX.
  { unfold X. by rewrite length_for_for_insert, length_fmap, length_seq. }
  eexists _, _. split; [reflexivity|].
  split_and!; [|done|done| |done|done|].
  - unfold wf, mat_size. cbn [getRows getCols getData].
    by rewrite length_for_insert_idx.
  - unfold wf, mat_size. cbn [getRows getCols getData].
    by rewrite length_for_insert_idx, length_fmap, length_seq.
  - intros i row Hrow.
    assert (i < N) as Hi by (by eapply lookup_lt_Some).
    assert (rows !!! i = row) as Hrow' by (by apply list_lookup_total_correct).
    rewrite Forall_forall in Hok.
    destruct (Hok row) as [Htoks Hlen]; [by eapply list_elem_of_lookup_2|].
    split_and!.
    + cbn [getData].
      rewrite (lookup_for_insert_hit N (λ i, i) (λ i, str2float (rows !!! i).1));
        [by rewrite Hrow'|done|done|].
      rewrite length_fmap, length_seq. lia.
    + intros j f Hf. assert (j < d) as Hj by (rewrite <- Hlen; by eapply lookup_lt_Some).
      apply get_eq_Some. cbn [getData getRows].
      rewrite (lookup_for_insert_miss N (λ i, i * (d + 1) + d) (λ _, fone)).
      2:{ intros k Hk E. apply cell_inj in E; lia. }
      unfold X.
      rewrite (lookup_for_for_insert_hit N d (λ i j, i * (d + 1) + j)
                 (λ i j, str2float ((rows !!! i).2 !!! j))).
      * rewrite Hrow'. f_equal. f_equal. by apply list_lookup_total_correct.
      * intros a b a' b' Ha Hb Ha' Hb' E. apply cell_inj in E; lia.
      * done.
      * done.
      * rewrite length_fmap, length_seq.
        pose proof (cell_lt (d + 1) N j i ltac:(lia) Hi). lia.
    + apply get_eq_Some. cbn [getData getRows].
      rewrite (lookup_for_insert_hit N (λ i, i * (d + 1) + d) (λ _, fone)); [done| |done|].
      * intros k k' Hk Hk' E. apply cell_inj in E; lia.
      * rewrite HX. pose proof (cell_lt (d + 1) N d i ltac:(lia) Hi). lia.
Qed.
End ReadFacts.

(** A file of two lines, the second without its line break. *)
Lemma DataSet_scans_spec_witness :
  Forall (λ l, contains "010" l = false) ["1 2 3"]
  ∧ contains "010" "4 5 6" = false
  ∧ Forall (λ t, is_token t = true) ("1" :: ["2"; "3"])
  ∧ Forall (λ l, contains "010" l = false) ["4 5 6"]
  ∧ getLineNumber (unlines ["1 2 3"] +:+ "4 5 6") = 2
  ∧ findDimension (unlines (unwords ("1" :: ["2"; "3"]) :: ["4 5 6"])) = 2.
Proof.
  assert (Forall (λ l, contains "010" l = false) ["1 2 3"]) as H1 by (by repeat constructor).
  assert (contains "010" "4 5 6" = false) as H2 by reflexivity.
  assert (Forall (λ t, is_token t = true) ("1" :: ["2"; "3"])) as H3
    by (by repeat constructor).
  assert (Forall (λ l, contains "010" l = false) ["4 5 6"]) as H4 by (by repeat constructor).
  destruct (DataSet_scans_spec ["1 2 3"] "4 5 6" "1" ["2"; "3"] ["4 5 6"] H1 H2 H3 H4)
    as (_ & Hn & Hd & _).
  split_and!; done.
Defined.

(** The file train.dat of the example is read. *)
Lemma DataSet_read_dense_witness :
  fs_example "train.dat" = Some (dense_file [("1", ["3"; "4"]); ("2", ["5"; "6"])])
  ∧ DataSet_read str2float_Q (λ _, 0) (λ _, 0%Q) (λ _, 0%Q) fs_example "train.dat" ds_empty
    = Ok (mkDataSet 2 (Mat 3 2 [3; 4; 1; 5; 6; 1]%Q) (Mat 1 2 [1; 2]%Q))
  ∧ ∃ hx hy,
      DataSet_read str2float_Q (λ _, 0) (λ _, 0%Q) (λ _, 0%Q) fs_example "train.dat" ds_empty
      = Ok (mkDataSet 2 hx hy)
      ∧ wf hx.
Proof.
  set (rows := [("1", ["3"; "4"]); ("2", ["5"; "6"])]).
  assert (fs_example "train.dat" = Some (dense_file rows)) as H1 by reflexivity.
  assert (Forall (λ row : string * list string,
            Forall (λ t, is_token t = true) (row.1 :: row.2) ∧ length row.2 = 2) rows) as H2
    by (by repeat constructor).
  assert (∀ row : string * list string, head rows = Some row →
            Forall (λ t, contains ":" t = false) (row.1 :: row.2)) as H3
    by (intros row [= <-]; by repeat constructor).
  assert (_dim ds_empty = 2 ∨ (_dim ds_empty = 0 ∧ rows ≠ [])) as H4 by (by right).
  split; [exact H1|]. split; [vm_compute; reflexivity|].
  destruct (DataSet_read_dense str2float_Q (λ _, 0) (λ _, 0%Q) (λ _, 0%Q)
              fs_example "train.dat" ds_empty rows 2) as [_ Hread].
  destruct (Hread H1 H2 H3 H4) as (hx & hy & Heq & Hwf & _).
  by exists hx, hy.
Defined.

(** ** The assertions of the backward pass, and [ext::softmax] *)

Section BackPropagateAsserts.
Context {T : Type} `{Arith T} `{Activation T}.

(** X28: [ConvolutionalLayer::backPropagate] never throws; it fails an
    assertion exactly when, for one of its output maps, the incoming error
    does not have the rows and columns of the output ([operator &]), or
    when the learning rate is not greater than 0. In both cases the call
    ends there: no kernel and no bias is updated and no error is
    returned. *)
Theorem ConvolutionalLayer_backPropagate_asserts
    (l : ConvolutionalLayer T) (errors fins fouts : list (mat T)) (learning_rate : T) :
  (∀ msg, ConvolutionalLayer_backPropagate l errors fins fouts learning_rate ≠ Throw msg)
  ∧ (ConvolutionalLayer_backPropagate l errors fins fouts learning_rate = AssertFail
     ↔ (∃ j, j < conv_m l
             ∧ (getRows (fouts !!! j) ≠ getRows (errors !!! j)
                ∨ getCols (fouts !!! j) ≠ getCols (errors !!! j)))
       ∨ fltb fzero learning_rate = false).
Proof.
  rewrite ConvolutionalLayer_backPropagate_eq.
  assert (delta_shapes_ok fouts errors (conv_m l) = false
          ↔ ∃ j, j < conv_m l
                 ∧ (getRows (fouts !!! j) ≠ getRows (errors !!! j)
                    ∨ getCols (fouts !!! j) ≠ getCols (errors !!! j))) as Hshapes.
  { generalize (conv_m l). intros n. induction n as [|n IH].
    - split; [done|]. intros (j & Hj & _). lia.
    - unfold delta_shapes_ok. rewrite seq_S, forallb_app. cbn [forallb plus].
      fold (delta_shapes_ok fouts errors n).
      rewrite andb_true_r, !andb_false_iff, IH, !Nat.eqb_neq. split.
      + intros [(j & Hj & Hbad)|Hbad]; [exists j|exists n]; (split; [lia|done]).
      + intros (j & Hj & Hbad). destruct (decide (j = n)) as [->|Hne]; [by right|].
        left. exists j. split; [lia|done]. }
  destruct (delta_shapes_ok fouts errors (conv_m l)) eqn:Hs; cbn [andb].
  - destruct (fltb fzero learning_rate) eqn:Hlr.
    + split; [done|]. split; [done|]. intros [Hbad|?]; [|done].
      apply Hshapes in Hbad. done.
    + split; [done|]. split; [by right|done].
  - split; [done|]. split; [|done]. intros _. left. by apply Hshapes.
Qed.
End BackPropagateAsserts.

(** An error of the wrong shape, and a learning rate 0. *)
Lemma ConvolutionalLayer_backPropagate_asserts_witness :
  ConvolutionalLayer_backPropagate conv11 errors_short fins11 fouts11 1%Q = AssertFail
  ∧ ConvolutionalLayer_backPropagate conv11 errors11 fins11 fouts11 0%Q = AssertFail.
Proof.
  split.
  - apply (ConvolutionalLayer_backPropagate_asserts conv11 errors_short fins11 fouts11 1%Q).
    left. exists 0. split; [simpl; lia|]. left. simpl. lia.
  - apply (ConvolutionalLayer_backPropagate_asserts conv11 errors11 fins11 fouts11 0%Q).
    by right.
Defined.

Section ExtSoftmax.
Local Open Scope R_scope.

Lemma fsum_replicate (n : nat) (x : R) : fsum (replicate n x) = INR n * x.
Proof.
  induction n as [|n IH]; [unfold fsum; cbn; lra|].
  cbn [replicate]. rewrite fsum_cons, IH, S_INR. lra.
Qed.

End ExtSoftmax.
